(** * dashcam_ocr: frame-record extraction and statistical cleaning

    A shallow embedding of [scripts/ocr_functions.py] and
    [scripts/map_functions.py], with the frame file names of
    [video_functions.py], and the properties of the text parsers,
    the attribute stream builder, the record assembler, the reindexer and
    the outlier filter.

    Conventions of the embedding.
    - A Python [str] is a [string]; a character is a code point below 256,
      so [\d] is [0-9], [\s] is the Unicode white space of that range and
      [.] is everything except the line feed.
    - A Python [float] and a polars [Float64] are binary64 numbers
      ([PrimFloat.float]); an [int] and a polars [Int64] are [Z]: the
      frame numbers and speeds of a trip are far from the 64-bit bounds,
      which the embedding leaves out.
    - A raised exception is the [Raise] case of [result]; statements that
      run one after the other are chained with [bind].
    - A polars [DataFrame] is the ordered list of its named columns.
    - What polars leaves unspecified is a parameter of the functions that
      depend on it: the order in which [mode()] lists its values and the
      order of the rows of an inner join. *)

From Stdlib Require Import ZArith Bool Ascii String Floats Uint63 Lia List.
From Stdlib Require Import Permutation Sorted.
From Stdlib Require DecimalString DecimalZ.
Import ListNotations.


(* ================================================================== *)
(** * Exceptions *)

Inductive exn : Type :=
| AssertionError (msg : string)
| AttributeError            (* [None.group(..)] *)
| ValueError
| TypeError                 (* arithmetic on [None], [range] on a float *)
| KeyError (key : string)
| IndexError
| ZeroDivisionError
| OSError                   (* raised by the file system *)
| ColumnNotFoundError (col : string)
| ShapeError
| InvalidOperationError
| SchemaError               (* polars: join keys of different dtypes *)
| Cv2Error                  (* raised by OpenCV *)
| TesseractError.           (* raised by pytesseract *)

Inductive result (A : Type) : Type :=
| Ok (a : A)
| Raise (e : exn).

Arguments Ok {A} a.
Arguments Raise {A} e.

Definition bind {A B : Type} (m : result A) (k : A -> result B) : result B :=
  match m with
  | Ok a => k a
  | Raise e => Raise e
  end.

Declare Scope py_scope.
Delimit Scope py_scope with py.
Notation "x <- m ;; k" := (bind m (fun x => k))
  (at level 61, m at next level, right associativity) : py_scope.
Notation "'assert' b 'or' e ;; k" := (if b then k else Raise e)
  (at level 61, b at next level, e at next level, right associativity) : py_scope.
Open Scope py_scope.

Fixpoint mapM {A B : Type} (f : A -> result B) (l : list A) : result (list B) :=
  match l with
  | [] => Ok []
  | a :: l' => b <- f a ;; bs <- mapM f l' ;; Ok (b :: bs)
  end.

(* ================================================================== *)
(** * Characters and character classes *)

Definition text := list ascii.

Definition code (a : ascii) : nat := nat_of_ascii a.

Definition between (lo hi : nat) (a : ascii) : bool :=
  (lo <=? code a)%nat && (code a <=? hi)%nat.

(** [\d] *)
Definition is_digit (a : ascii) : bool := between 48 57 a.
(** [\D] *)
Definition non_digit (a : ascii) : bool := negb (is_digit a).
(** [\s]: [str.isspace] on the code points below 256 *)
Definition is_space (a : ascii) : bool :=
  between 9 13 a || between 28 32 a || (code a =? 133)%nat || (code a =? 160)%nat.
(** [\S] *)
Definition non_space (a : ascii) : bool := negb (is_space a).
(** [[A-Za-z]] *)
Definition is_alpha (a : ascii) : bool := between 65 90 a || between 97 122 a.
(** [.] without DOTALL *)
Definition not_newline (a : ascii) : bool := negb (code a =? 10)%nat.
(** a literal character *)
Definition lit (c : ascii) (a : ascii) : bool := Ascii.eqb a c.
(** a character set [[xy]] *)
Definition one_of (cs : list ascii) (a : ascii) : bool := existsb (Ascii.eqb a) cs.
(** a literal under [re.IGNORECASE] *)
Definition lower (a : ascii) : ascii :=
  if between 65 90 a then ascii_of_nat (code a + 32) else a.
Definition lit_nocase (c : ascii) (a : ascii) : bool := Ascii.eqb (lower a) (lower c).

(* ================================================================== *)
(** * The fragment of Python's [re] that the repository uses

    Every repetition in the repository's patterns is greedy and ranges over
    a single character class, so a pattern is a sequence of [Rep] nodes,
    cut into capturing and non-capturing pieces. The matcher is the
    backtracking one of [re]: a repetition first takes as many characters
    as it can and gives them back one at a time while the rest of the
    pattern fails. *)

Inductive node : Type :=
| Rep (c : ascii -> bool) (lo : nat) (hi : option nat)
| Eos.  (* [$]: at the end, or before a final line feed *)

Inductive piece : Type :=
| Cap (ns : list node)    (* a capture group *)
| Seq (ns : list node).   (* outside any group *)

Definition regex := list piece.

Definition one (c : ascii -> bool) : node := Rep c 1 (Some 1).
Definition star (c : ascii -> bool) : node := Rep c 0 None.
Definition plus (c : ascii -> bool) : node := Rep c 1 None.
Definition literal (s : string) : list node :=
  map (fun c => one (lit c)) (list_ascii_of_string s).
Definition literal_nocase (s : string) : list node :=
  map (fun c => one (lit_nocase c)) (list_ascii_of_string s).

Definition piece_nodes (p : piece) : list node :=
  match p with Cap ns => ns | Seq ns => ns end.

Definition nodes_of (re : regex) : list node := flat_map piece_nodes re.

(** length of the longest prefix of [s] in class [c] *)
Fixpoint run (c : ascii -> bool) (s : text) : nat :=
  match s with
  | a :: s' => if c a then S (run c s') else 0
  | [] => 0
  end.

Definition cap (hi : option nat) (n : nat) : nat :=
  match hi with Some h => Nat.min h n | None => n end.

(** [n; n-1; ...; lo], the repetition counts in the order they are tried *)
Fixpoint countdown (lo n : nat) : list nat :=
  if (n <? lo)%nat then []
  else n :: match n with
            | O => []
            | S n' => countdown lo n'
            end.

Fixpoint first_some {A : Type} (f : nat -> option A) (ks : list nat) : option A :=
  match ks with
  | [] => None
  | k :: ks' => match f k with
                | Some r => Some r
                | None => first_some f ks'
                end
  end.

Definition at_end (s : text) : bool :=
  match s with
  | [] => true
  | [a] => (code a =? 10)%nat
  | _ => false
  end.

(** [match_here ns s]: the pattern matched at the start of [s]; the result
    lists what each node consumed. *)
Fixpoint match_here (ns : list node) (s : text) : option (list text) :=
  match ns with
  | [] => Some []
  | Rep c lo hi :: ns' =>
      first_some
        (fun k => option_map (cons (firstn k s)) (match_here ns' (skipn k s)))
        (countdown lo (cap hi (run c s)))
  | Eos :: ns' =>
      if at_end s then option_map (cons []) (match_here ns' s) else None
  end.

(** [pattern.search]: the first start position at which the pattern matches *)
Fixpoint search (ns : list node) (s : text) : option (list text) :=
  match match_here ns s with
  | Some segs => Some segs
  | None => match s with
            | [] => None
            | _ :: s' => search ns s'
            end
  end.

(** the text of each capture group, from what the nodes consumed *)
Fixpoint groups_of (re : regex) (segs : list text) : list text :=
  match re with
  | [] => []
  | Cap ns :: re' =>
      concat (firstn (length ns) segs) :: groups_of re' (skipn (length ns) segs)
  | Seq ns :: re' => groups_of re' (skipn (length ns) segs)
  end.

(** [pattern.search(s)] followed by [.groups()]; [None] when there is no match *)
Definition re_search (re : regex) (s : string) : option (list text) :=
  option_map (groups_of re) (search (nodes_of re) (list_ascii_of_string s)).

(* ================================================================== *)
(** * [int(..)] and [float(..)] on the strings the parsers pass them *)

Definition digit_value (a : ascii) : Z := (Z.of_nat (code a) - 48)%Z.

Definition digits_value (ds : text) : Z :=
  fold_left (fun acc a => (10 * acc + digit_value a)%Z) ds 0%Z.

(** [int(s)] for a string of decimal digits; anything else is a [ValueError] *)
Definition py_int (s : text) : result Z :=
  match s with
  | [] => Raise ValueError
  | _ => if forallb is_digit s then Ok (digits_value s) else Raise ValueError
  end.

(** The binary64 number nearest to [p / q] (ties to even), for [0 <= p] and
    [0 < q]: what [float] of a decimal literal and the true division of two
    ints compute. *)
Definition round_ratio (p q : Z) : float :=
  if (p <=? 0)%Z then 0%float
  else
    let e0 := (Z.log2 p - Z.log2 q - 52)%Z in
    let scaled e := if (e <? 0)%Z then ((p * 2 ^ (- e)) / q)%Z else (p / (q * 2 ^ e))%Z in
    let e1 := if (scaled e0 <? 2 ^ 52)%Z then (e0 - 1)%Z else e0 in
    let e := Z.max e1 (-1074) in
    let num := if (e <? 0)%Z then (p * 2 ^ (- e))%Z else p in
    let den := if (e <? 0)%Z then q else (q * 2 ^ e)%Z in
    let m := (num / den)%Z in
    let r := (num mod den)%Z in
    let up := ((den <? 2 * r) || ((2 * r =? den) && Z.odd m))%Z in
    let m' := if up then (m + 1)%Z else m in
    Z.ldexp (PrimFloat.of_uint63 (Uint63.of_Z m')) e.

(** an [int] converted to [float] *)
Definition float_of_Z (z : Z) : float :=
  if (z <? 0)%Z then PrimFloat.opp (round_ratio (- z) 1) else round_ratio z 1.

Fixpoint split_at_dot (s : text) : option (text * text) :=
  match s with
  | [] => None
  | a :: s' =>
      if Ascii.eqb a "."%char then Some ([], s')
      else match split_at_dot s' with
           | Some (w, f) => Some (a :: w, f)
           | None => None
           end
  end.

(** [float(s)] for [s] of the form digits [.] digits, the only form
    [text_to_coordinates] builds; anything else is a [ValueError] here. *)
Definition py_float (s : text) : result float :=
  match split_at_dot s with
  | Some (w, f) =>
      match py_int w, py_int f with
      | Ok _, Ok _ => Ok (round_ratio (digits_value (w ++ f)) (10 ^ Z.of_nat (length f))%Z)
      | _, _ => Raise ValueError
      end
  | None => Raise ValueError
  end.

(* ================================================================== *)
(** * Text parsers ([ocr_functions.py], lines 101-152) *)

Record Coordinates : Type := { latitude : float; longitude : float }.
Record Speed : Type := { speed : Z; speed_units : string }.

(** The coordinate pattern, its tokens spaced out:
    [( [NS] ) \D* ( \d+ ) ( \s* \. \s* ) ( \d+ ) \s* ( [EW] ) \D* ( \d+ ) ( \s* \. \s* ) ( \d+ )] *)
Definition regex_coord_pattern : regex :=
  [ Cap [one (one_of ["N"; "S"]%char)]; Seq [star non_digit];
    Cap [plus is_digit];
    Cap [star is_space; one (lit "."); star is_space];
    Cap [plus is_digit];
    Seq [star is_space];
    Cap [one (one_of ["E"; "W"]%char)]; Seq [star non_digit];
    Cap [plus is_digit];
    Cap [star is_space; one (lit "."); star is_space];
    Cap [plus is_digit] ].

Definition text_eqb (a b : text) : bool :=
  String.eqb (string_of_list_ascii a) (string_of_list_ascii b).

Definition text_to_coordinates (coord_string : string) : result Coordinates :=
  match re_search regex_coord_pattern coord_string with
  | None => Ok {| latitude := 0; longitude := 0 |}
  | Some [lat_dir; lat_whole_number; lat_decimal; lat_float_number;
          lon_dir; lon_whole_number; lon_decimal; lon_float_number] =>
      lat <- py_float (lat_whole_number ++ "."%char :: lat_float_number) ;;
      let latitude_coord :=
        PrimFloat.mul lat (float_of_Z (if text_eqb lat_dir ["N"%char] then 1 else -1)%Z) in
      lon <- py_float (lon_whole_number ++ "."%char :: lon_float_number) ;;
      let longitude_coord :=
        PrimFloat.mul lon (float_of_Z (if text_eqb lon_dir ["E"%char] then 1 else -1)%Z) in
      Ok {| latitude := latitude_coord; longitude := longitude_coord |}
  | Some _ => Raise ValueError
  end.

(** The timestamp pattern, its tokens spaced out:
    [( \d{2} ) \D* ( \d{2} ) \D* ( \d{4} ) \s* ( \d{2} ) \D* ( \d{2} ) \s* \D* ( \d{2} )] *)
Definition regex_timestamp_pattern : regex :=
  [ Cap [Rep is_digit 2 (Some 2)]; Seq [star non_digit];
    Cap [Rep is_digit 2 (Some 2)]; Seq [star non_digit];
    Cap [Rep is_digit 4 (Some 4)]; Seq [star is_space];
    Cap [Rep is_digit 2 (Some 2)]; Seq [star non_digit];
    Cap [Rep is_digit 2 (Some 2)]; Seq [star is_space; star non_digit];
    Cap [Rep is_digit 2 (Some 2)] ].

Definition text_to_timestamp (timestamp_string : string) : string :=
  match re_search regex_timestamp_pattern timestamp_string with
  | Some [day; month; year; hour; minute; second] =>
      string_of_list_ascii
        (day ++ "-"%char :: month ++ "-"%char :: year ++ " "%char ::
         hour ++ ":"%char :: minute ++ ":"%char :: second)
  | _ => timestamp_string
  end.

(** The speed pattern, its tokens spaced out:
    [( \d{1,3} ) \s* ( [A-Za-z]{3,} .* )] *)
Definition regex_speed_pattern : regex :=
  [ Cap [Rep is_digit 1 (Some 3)]; Seq [star is_space];
    Cap [Rep is_alpha 3 None; star not_newline] ].

Definition text_to_speed (speed_string : string) : result Speed :=
  match re_search regex_speed_pattern speed_string with
  | None => Ok {| speed := 0%Z; speed_units := "MPH" |}
  | Some [speed_str; units] =>
      n <- py_int speed_str ;;
      Ok {| speed := n; speed_units := string_of_list_ascii units |}
  | Some _ => Raise ValueError
  end.

(* ================================================================== *)
(** * Attribute stream builder ([ocr_functions.py], lines 8-99) *)

(** What the builder reads from its environment: the directory tree, the
    image decoder and the OCR engine. *)
Record FileSystem : Type := {
  path_exists : string -> bool;               (* [os.path.exists] *)
  listdir : string -> result (list string);   (* [os.listdir] *)
  imread : string -> bool;                    (* [cv2.imread(..) is not None] *)
  image_to_string : string -> result string   (* lines 20-44 of [image_to_text] on the image at
                                                 a path: the text tesseract reads from the
                                                 pre-processed image, or the error that a call
                                                 of OpenCV or of pytesseract raises *)
}.

(** One value of a stream: the dict [{data_type: ...}] stored per frame. *)
Inductive Entry : Type :=
| GpsEntry (c : Coordinates)     (* [{'gps': {'latitude': .., 'longitude': ..}}] *)
| SpeedEntry (s : Speed)         (* [{'speed': {'speed': .., 'speed_units': ..}}] *)
| TimeEntry (t : string)         (* [{'time': ..}] *)
| ErrorEntry.                    (* [{'Error': 'Unrecognized Datatype'}] *)

(** A Python dict keyed by frame index, in insertion order. *)
Definition AttributeStream := list (Z * Entry).

(** [d[k] = v]: an existing key keeps its place, a new one goes last *)
Fixpoint dict_set (d : AttributeStream) (k : Z) (v : Entry) : AttributeStream :=
  match d with
  | [] => [(k, v)]
  | (k', v') :: d' => if (k' =? k)%Z then (k, v) :: d' else (k', v') :: dict_set d' k v
  end.

Definition keys (d : AttributeStream) : list Z := map fst d.
Definition values (d : AttributeStream) : list Entry := map snd d.

(** [s.rstrip('/')] *)
Fixpoint rstrip_slash (s : text) : text :=
  match s with
  | [] => []
  | a :: s' => match rstrip_slash s' with
               | [] => if Ascii.eqb a "/"%char then [] else [a]
               | r => a :: r
               end
  end.

Definition rstrip (s : string) : string :=
  string_of_list_ascii (rstrip_slash (list_ascii_of_string s)).

(** The numeric suffix pattern, its tokens spaced out: [\D* ( \d+ ) \D*] *)
Definition regex_suffix_pattern : regex :=
  [ Seq [star non_digit]; Cap [plus is_digit]; Seq [star non_digit] ].

(** [\.(jpg|jpeg|png)$] under [re.IGNORECASE], one pattern per alternative *)
Definition regex_image_pattern : list regex :=
  map (fun ext => [ Seq [one (lit "."%char)]; Cap (literal_nocase ext); Seq [Eos] ])
      ["jpg"; "jpeg"; "png"]%string.

(** The directory pattern, its tokens spaced out:
    [\.\./ ( frames ) / ( \S* ) / ( \D* )] *)
Definition regex_directory_pattern : regex :=
  [ Seq (literal "../"); Cap (literal "frames"); Seq (literal "/");
    Cap [star non_space]; Seq (literal "/"); Cap [star non_digit] ].

Definition is_image (f : string) : bool :=
  existsb (fun re => match re_search re f with Some _ => true | None => false end)
          regex_image_pattern.

(** [int(regex_suffix_pattern.search(x).group(1))] *)
Definition frame_number (x : string) : result Z :=
  match re_search regex_suffix_pattern x with
  | None => Raise AttributeError
  | Some gs => py_int (nth 0 gs [])
  end.

(** [list.sort(key=..)] on the keys already computed: a stable sort *)
Fixpoint insert_by_key (x : Z * string) (l : list (Z * string)) : list (Z * string) :=
  match l with
  | [] => [x]
  | y :: l' => if (fst x <=? fst y)%Z then x :: l else y :: insert_by_key x l'
  end.

Definition sort_by_key (l : list (Z * string)) : list (Z * string) :=
  fold_right insert_by_key [] l.

Definition image_to_text (fs : FileSystem) (file_name : string) : result string :=
  assert imread fs file_name or AssertionError "Could not open image" ;;
  image_to_string fs file_name.

(** the body of the loop over the sorted image files *)
Fixpoint process_images (fs : FileSystem) (input_dir data_type : string)
    (image_files : list string) (frame_dict : AttributeStream) : result AttributeStream :=
  match image_files with
  | [] => Ok frame_dict
  | image_name :: rest =>
      numerical_suffix <- frame_number image_name ;;
      let relative_path := (input_dir ++ "/" ++ image_name)%string in
      assert imread fs relative_path or AssertionError "Unable to open the provided image" ;;
      extracted_text <- image_to_text fs relative_path ;;
      entry <-
        (if String.eqb data_type "gps" then
           c <- text_to_coordinates extracted_text ;; Ok (GpsEntry c)
         else if String.eqb data_type "speed" then
           s <- text_to_speed extracted_text ;; Ok (SpeedEntry s)
         else if String.eqb data_type "time" then
           Ok (TimeEntry (text_to_timestamp extracted_text))
         else Ok ErrorEntry) ;;
      process_images fs input_dir data_type rest (dict_set frame_dict numerical_suffix entry)
  end.

Definition image_directory_to_dict (fs : FileSystem) (input_dir : string)
    : result AttributeStream :=
  let input_dir := rstrip input_dir in
  assert path_exists fs input_dir or AssertionError "Directory does not exist" ;;
  all_files <- listdir fs input_dir ;;
  let image_files := filter is_image all_files in
  assert (0 <? length image_files)%nat
    or AssertionError "Provided directory does not contain any images" ;;
  sort_keys <- mapM frame_number image_files ;;
  let image_files := map snd (sort_by_key (combine sort_keys image_files)) in
  data_type <- match re_search regex_directory_pattern input_dir with
               | None => Raise AttributeError
               | Some gs => Ok (string_of_list_ascii (nth 2 gs []))
               end ;;
  process_images fs input_dir data_type image_files [].

(* ================================================================== *)
(** * polars: series and data frames *)

Inductive Series : Type :=
| SInt (xs : list Z)          (* Int64 *)
| SFloat (xs : list float)    (* Float64 *)
| SStr (xs : list string).    (* Utf8 *)

Definition DataFrame := list (string * Series).

Definition series_len (s : Series) : nat :=
  match s with
  | SInt xs => length xs
  | SFloat xs => length xs
  | SStr xs => length xs
  end.

(** [df.height] *)
Definition height (df : DataFrame) : nat :=
  match df with
  | [] => 0
  | (_, s) :: _ => series_len s
  end.

(** [df.columns] *)
Definition columns (df : DataFrame) : list string := map fst df.

Definition has_column (df : DataFrame) (name : string) : bool :=
  existsb (String.eqb name) (columns df).

(** [df[name]], [pl.col(name)] *)
Fixpoint column (df : DataFrame) (name : string) : result Series :=
  match df with
  | [] => Raise (ColumnNotFoundError name)
  | (n, s) :: df' => if String.eqb n name then Ok s else column df' name
  end.

Fixpoint replace_column (df : DataFrame) (name : string) (s : Series) : DataFrame :=
  match df with
  | [] => []
  | (n, s') :: df' =>
      if String.eqb n name then (n, s) :: df' else (n, s') :: replace_column df' name s
  end.

(** [df.with_columns(expr.alias(name))]: the column replaces the one of that
    name, or is added last *)
Definition with_column (df : DataFrame) (name : string) (s : Series) : result DataFrame :=
  assert (match df with [] => true | _ => (series_len s =? height df)%nat end)
    or ShapeError ;;
  Ok (if has_column df name then replace_column df name s else df ++ [(name, s)]).

(** [df.drop(name)] *)
Definition drop (df : DataFrame) (name : string) : result DataFrame :=
  assert has_column df name or ColumnNotFoundError name ;;
  Ok (filter (fun c => negb (String.eqb (fst c) name)) df).

(** the rows of a column whose mask bit is set *)
Fixpoint mask_list {A : Type} (m : list bool) (xs : list A) : list A :=
  match m, xs with
  | b :: m', x :: xs' => if b then x :: mask_list m' xs' else mask_list m' xs'
  | _, _ => []
  end.

Definition mask_series (m : list bool) (s : Series) : Series :=
  match s with
  | SInt xs => SInt (mask_list m xs)
  | SFloat xs => SFloat (mask_list m xs)
  | SStr xs => SStr (mask_list m xs)
  end.

(** [df.filter(mask)] *)
Definition filter_rows (df : DataFrame) (m : list bool) : result DataFrame :=
  assert forallb (fun c => (series_len (snd c) =? length m)%nat) df or ShapeError ;;
  Ok (map (fun c => (fst c, mask_series m (snd c))) df).

(** The dtype of a column. A [Series] holds the values and tells [Int64],
    [Float64] and [Utf8] apart; it does not tell whether an empty column is
    of dtype [Null]. *)
Inductive dtype : Type := Int64 | Float64 | Utf8 | Null.

Definition dtype_eqb (a b : dtype) : bool :=
  match a, b with
  | Int64, Int64 | Float64, Float64 | Utf8, Utf8 | Null, Null => true
  | _, _ => false
  end.

(** the dtype that [pl.DataFrame] infers for a column given as a Python
    list: the dtype of its items, and [Null] for the empty list *)
Definition inferred_dtype (s : Series) : dtype :=
  match s with
  | SInt [] | SFloat [] | SStr [] => Null
  | SInt _ => Int64
  | SFloat _ => Float64
  | SStr _ => Utf8
  end.

(** [pl.DataFrame({name: values, ...})] on Python lists. The dtype of each
    column is [inferred_dtype] of its list; the frame does not record it,
    and [join], the one operation of the repository that depends on it, is
    given it. Ints are [Z] here: a list with an int outside the 64-bit
    range, which polars does not hold in an [Int64] column, is outside the
    embedding. *)
Definition pl_DataFrame (cols : list (string * Series)) : result DataFrame :=
  assert forallb (fun c => (series_len (snd c) =? height cols)%nat) cols or ShapeError ;;
  Ok cols.

(** the rows of a series at the given positions *)
Definition take (s : Series) (idx : list nat) : Series :=
  match s with
  | SInt xs => SInt (map (fun i => nth i xs 0%Z) idx)
  | SFloat xs => SFloat (map (fun i => nth i xs 0%float) idx)
  | SStr xs => SStr (map (fun i => nth i xs EmptyString) idx)
  end.

Definition int_column (df : DataFrame) (name : string) : result (list Z) :=
  s <- column df name ;;
  match s with
  | SInt xs => Ok xs
  | _ => Raise InvalidOperationError
  end.

(** the positions of [k] in [l], counted from [j] *)
Fixpoint positions_from (k : Z) (l : list Z) (j : nat) : list nat :=
  match l with
  | [] => []
  | x :: l' => if (x =? k)%Z then j :: positions_from k l' (S j)
               else positions_from k l' (S j)
  end.

(** the pairs (left row, right row) with equal keys, in the order of the
    left rows *)
Fixpoint join_pairs (lk rk : list Z) (i : nat) : list (nat * nat) :=
  match lk with
  | [] => []
  | k :: lk' => map (fun j => (i, j)) (positions_from k rk 0) ++ join_pairs lk' rk (S i)
  end.

(** [left.join(right, on=name)], an inner join on an integer key.
    [left_key] and [right_key] are the dtypes of the two key columns: polars
    refuses to join keys of different dtypes. It leaves the order of the
    rows of an inner join unspecified: [join_order] is what it makes of the
    matching pairs of rows. The other columns of the two frames have
    different names here, so none is renamed. *)
Definition join (join_order : list (nat * nat) -> list (nat * nat))
    (left right : DataFrame) (on : string) (left_key right_key : dtype)
    : result DataFrame :=
  lk <- int_column left on ;;
  rk <- int_column right on ;;
  assert dtype_eqb left_key right_key or SchemaError ;;
  let pairs := join_order (join_pairs lk rk 0) in
  Ok (map (fun c => (fst c, take (snd c) (map fst pairs))) left ++
      map (fun c => (fst c, take (snd c) (map snd pairs)))
          (filter (fun c => negb (String.eqb (fst c) on)) right)).

(* ================================================================== *)
(** * Record assembler ([ocr_functions.py], lines 154-190) *)

(** [entry['time']] *)
Definition entry_time (e : Entry) : result string :=
  match e with TimeEntry t => Ok t | _ => Raise (KeyError "time") end.
(** [entry['gps']] *)
Definition entry_gps (e : Entry) : result Coordinates :=
  match e with GpsEntry c => Ok c | _ => Raise (KeyError "gps") end.
(** [entry['speed']] *)
Definition entry_speed (e : Entry) : result Speed :=
  match e with SpeedEntry s => Ok s | _ => Raise (KeyError "speed") end.

Definition dict_to_dataframe (join_order : list (nat * nat) -> list (nat * nat))
    (time_dict gps_dict speed_dict : AttributeStream) : result DataFrame :=
  timestamps <- mapM entry_time (values time_dict) ;;
  time_df <- pl_DataFrame [("frame_index", SInt (keys time_dict));
                           ("timestamp", SStr timestamps)]%string ;;
  lats <- mapM (fun e => c <- entry_gps e ;; Ok (latitude c)) (values gps_dict) ;;
  lons <- mapM (fun e => c <- entry_gps e ;; Ok (longitude c)) (values gps_dict) ;;
  gps_df <- pl_DataFrame [("frame_index", SInt (keys gps_dict));
                          ("latitude", SFloat lats);
                          ("longitude", SFloat lons)]%string ;;
  speeds <- mapM (fun e => s <- entry_speed e ;; Ok (speed s)) (values speed_dict) ;;
  units <- mapM (fun e => s <- entry_speed e ;; Ok (speed_units s)) (values speed_dict) ;;
  speed_df <- pl_DataFrame [("frame_index", SInt (keys speed_dict));
                            ("speed", SInt speeds);
                            ("speed_units", SStr units)]%string ;;
  let time_key := inferred_dtype (SInt (keys time_dict)) in
  let gps_key := inferred_dtype (SInt (keys gps_dict)) in
  let speed_key := inferred_dtype (SInt (keys speed_dict)) in
  joined <- join join_order time_df gps_df "frame_index" time_key gps_key ;;
  join join_order joined speed_df "frame_index" time_key speed_key.

(* ================================================================== *)
(** * Reindexer and outlier filter ([map_functions.py], lines 8-66) *)

(** [Series.diff()]: the first row has no predecessor and is null *)
Fixpoint diff_from (prev : Z) (xs : list Z) : list (option Z) :=
  match xs with
  | [] => []
  | x :: xs' => Some (x - prev)%Z :: diff_from x xs'
  end.

Definition diff (xs : list Z) : list (option Z) :=
  match xs with
  | [] => []
  | x :: xs' => None :: diff_from x xs'
  end.

Fixpoint diff_float_from (prev : float) (xs : list float) : list (option float) :=
  match xs with
  | [] => []
  | x :: xs' => Some (PrimFloat.sub x prev) :: diff_float_from x xs'
  end.

Definition diff_float (xs : list float) : list (option float) :=
  match xs with
  | [] => []
  | x :: xs' => None :: diff_float_from x xs'
  end.

(** [Series.fill_null(d)] *)
Definition fill_null {A : Type} (d : A) (l : list (option A)) : list A :=
  map (fun o => match o with Some v => v | None => d end) l.

(** [pl.col(name).diff().fill_null(0)] *)
Definition diff_fill (s : Series) : result Series :=
  match s with
  | SInt xs => Ok (SInt (fill_null 0%Z (diff xs)))
  | SFloat xs => Ok (SFloat (fill_null 0%float (diff_float xs)))
  | SStr _ => Raise InvalidOperationError
  end.

Definition count (x : Z) (l : list Z) : nat := count_occ Z.eq_dec l x.

Definition max_count (l : list Z) : nat :=
  fold_right (fun x m => Nat.max (count x l) m) 0 l.

(** the most frequent values of a column, each once *)
Definition modes_of (l : list Z) : list Z :=
  nodup Z.eq_dec (filter (fun x => (count x l =? max_count l)%nat) l).

(** [range(start, stop, step)] *)
Definition py_range (start stop step : Z) : result (list Z) :=
  if (step =? 0)%Z then Raise ValueError
  else
    let n := if (0 <? step)%Z then ((stop - start + step - 1) / step)%Z
             else ((start - stop - step - 1) / (- step))%Z in
    Ok (map (fun k => (start + Z.of_nat k * step)%Z) (seq 0 (Z.to_nat n))).

(** a numeric column seen as floats, as polars does to compare it with a
    float or to average it *)
Definition as_floats (s : Series) : result (list float) :=
  match s with
  | SInt xs => Ok (map float_of_Z xs)
  | SFloat xs => Ok xs
  | SStr _ => Raise InvalidOperationError
  end.

Definition is_nan (x : float) : bool := negb (PrimFloat.eqb x x).

(** polars compares floats in a total order: NaN equals NaN and is above
    every other value *)
Definition pl_le (x y : float) : bool :=
  if is_nan y then true else if is_nan x then false else PrimFloat.leb x y.
Definition pl_ge (x y : float) : bool := pl_le y x.
Definition pl_ne (x y : float) : bool :=
  negb (if is_nan x then is_nan y else PrimFloat.eqb x y).

(** [abs(x)] and [k * x] on a statistic that is [None] on too short a column *)
Definition py_abs (o : option float) : result float :=
  match o with Some x => Ok (PrimFloat.abs x) | None => Raise TypeError end.
Definition py_mul (k : float) (o : option float) : result float :=
  match o with Some x => Ok (PrimFloat.mul k x) | None => Raise TypeError end.

(** [df.filter(test(pl.col(name)))] *)
Definition filter_by (df : DataFrame) (name : string) (test : float -> bool)
    : result DataFrame :=
  s <- column df name ;;
  xs <- as_floats s ;;
  filter_rows df (map test xs).

(** [df.filter((abs(df[name]) >= abs(m) - k * sd) & (abs(df[name]) <= abs(m) + k * sd))],
    the operands evaluated from left to right *)
Definition band_filter (df : DataFrame) (name : string) (m sd : option float)
    (k : result float) : result DataFrame :=
  s <- column df name ;;
  xs <- as_floats s ;;
  a <- py_abs m ;;
  k1 <- k ;;
  w1 <- py_mul k1 sd ;;
  let lower := PrimFloat.sub a w1 in
  k2 <- k ;;
  w2 <- py_mul k2 sd ;;
  let upper := PrimFloat.add a w2 in
  filter_rows df
    (map (fun x => pl_ge (PrimFloat.abs x) lower && pl_le (PrimFloat.abs x) upper) xs).

(** [write_dataframe_to_file]: the path written and the table stored there *)
Definition write_dataframe_to_file (df : DataFrame) (output_dir file_name : string)
    : string * DataFrame :=
  ((rstrip output_dir ++ "/" ++ file_name)%string, df).

Definition std_threshold : Z := 2.
Definition speed_std_threshold : Z := 3.

(** [std_threshold * (1 + 100 / df.height)] *)
Definition small_sample_threshold (df : DataFrame) : result float :=
  if (height df =? 0)%nat then Raise ZeroDivisionError
  else Ok (PrimFloat.mul (float_of_Z std_threshold)
             (PrimFloat.add 1 (round_ratio 100 (Z.of_nat (height df))))).

Section Clean.

(** polars' aggregations, which the repository calls and does not define. *)

(** The order in which [mode()] lists the most frequent values; polars
    leaves it unspecified. *)
Variable mode_order : list Z -> list Z.
(** [Series.mean()], [None] on an empty column. *)
Variable mean : list float -> option float.
(** [Series.std()] with one degree of freedom removed, [None] on fewer than
    two values. *)
Variable std : list float -> option float.

Definition series_stat (f : list float -> option float) (s : Series) : option float :=
  match s with
  | SInt xs => f (map float_of_Z xs)
  | SFloat xs => f xs
  | SStr _ => None
  end.

(** [df[name].mean()] and [df[name].std()] *)
Definition column_stat (f : list float -> option float) (df : DataFrame) (name : string)
    : result (option float) :=
  s <- column df name ;; Ok (series_stat f s).

(** [df.select(pl.col(name).mode()).to_series()[0]] *)
Definition first_mode (df : DataFrame) (name : string) : result Z :=
  s <- column df name ;;
  match s with
  | SInt xs => match mode_order (modes_of xs) with
               | [] => Raise IndexError
               | i :: _ => Ok i
               end
  | SFloat [] => Raise IndexError
  | SFloat _ => Raise TypeError     (* [range] refuses a float interval *)
  | SStr [] => Raise IndexError
  | SStr _ => Raise TypeError
  end.

(** lines 11-14 *)
Definition reindex (df : DataFrame) : result DataFrame :=
  frame_index <- column df "frame_index" ;;
  frame_delta <- diff_fill frame_index ;;
  df <- with_column df "frame_delta" frame_delta ;;
  interval <- first_mode df "frame_delta" ;;
  new_index <- py_range 0 (interval * Z.of_nat (height df)) interval ;;
  df <- with_column df "new_index" (SInt new_index) ;;
  df <- drop df "frame_delta" ;;
  drop df "frame_index".

(** lines 16-18 *)
Definition domain_pass (df : DataFrame) : result DataFrame :=
  df <- filter_by df "latitude" (fun x => pl_ne x 0) ;;
  df <- filter_by df "latitude" (fun x => pl_le (PrimFloat.abs x) 90) ;;
  filter_by df "longitude" (fun x => pl_le (PrimFloat.abs x) 180).

(** lines 22-41 *)
Definition magnitude_pass (df : DataFrame) : result DataFrame :=
  latitude_mean <- column_stat mean df "latitude" ;;
  latitude_std <- column_stat std df "latitude" ;;
  longitude_mean <- column_stat mean df "longitude" ;;
  longitude_std <- column_stat std df "longitude" ;;
  speed_mean <- column_stat mean df "speed" ;;
  speed_std <- column_stat std df "speed" ;;
  df <- band_filter df "latitude" latitude_mean latitude_std
          (Ok (float_of_Z std_threshold)) ;;
  df <- band_filter df "longitude" longitude_mean longitude_std
          (Ok (float_of_Z std_threshold)) ;;
  band_filter df "speed" speed_mean speed_std (Ok (float_of_Z speed_std_threshold)).

(** lines 46-60 *)
Definition delta_pass (df : DataFrame) : result DataFrame :=
  lat <- column df "latitude" ;;
  lat_delta <- diff_fill lat ;;
  df <- with_column df "lat_delta" lat_delta ;;
  lon <- column df "longitude" ;;
  lon_delta <- diff_fill lon ;;
  df <- with_column df "lon_delta" lon_delta ;;
  latitude_diff_mean <- column_stat mean df "lat_delta" ;;
  latitude_diff_std <- column_stat std df "lat_delta" ;;
  longitude_diff_mean <- column_stat mean df "lon_delta" ;;
  longitude_diff_std <- column_stat std df "lon_delta" ;;
  df <- band_filter df "lat_delta" latitude_diff_mean latitude_diff_std
          (small_sample_threshold df) ;;
  band_filter df "lon_delta" longitude_diff_mean longitude_diff_std
    (small_sample_threshold df).

(** lines 16-60: the filter passes, on a table that is already reindexed *)
Definition outlier_filter (df : DataFrame) : result DataFrame :=
  df <- domain_pass df ;;
  df <- magnitude_pass df ;;
  delta_pass df.

(** [clean_dataframe]: the table returned, and the file written at line 63 *)
Definition clean_dataframe (df : DataFrame) : result (DataFrame * (string * DataFrame)) :=
  df <- reindex df ;;
  df <- outlier_filter df ;;
  let written := write_dataframe_to_file df "../output/" "filtered_dashcam.csv" in
  Ok (df, written).

End Clean.

(* ================================================================== *)
(** * Reference aggregations

    The textbook mean and sample standard deviation in binary64, summed
    from the first row to the last, and [mode()] listing the most frequent
    values in the order of their first occurrence. They instantiate the
    parameters of [clean_dataframe] on concrete tables. *)

Definition float_sum (xs : list float) : float :=
  fold_left PrimFloat.add xs 0%float.

Definition ref_mean (xs : list float) : option float :=
  match xs with
  | [] => None
  | _ => Some (PrimFloat.div (float_sum xs) (float_of_Z (Z.of_nat (length xs))))
  end.

Definition ref_std (xs : list float) : option float :=
  match ref_mean xs with
  | None => None
  | Some m =>
      if (length xs <=? 1)%nat then None
      else
        let sq := map (fun x => PrimFloat.mul (PrimFloat.sub x m) (PrimFloat.sub x m)) xs in
        Some (PrimFloat.sqrt
                (PrimFloat.div (float_sum sq) (float_of_Z (Z.of_nat (length xs) - 1))))
  end.

Definition ref_mode_order (l : list Z) : list Z := l.

(** an inner join that keeps the order of the left frame *)
Definition ref_join_order (pairs : list (nat * nat)) : list (nat * nat) := pairs.

(** a table in the layout of [dashcam.csv] *)
Definition dashcam (frame_index : list Z) (timestamp : list string)
    (lat lon : list float) (spd : list Z) (units : list string) : DataFrame :=
  [ ("frame_index", SInt frame_index); ("timestamp", SStr timestamp);
    ("latitude", SFloat lat); ("longitude", SFloat lon);
    ("speed", SInt spd); ("speed_units", SStr units) ]%string.

(** a directory tree with one directory [dir] holding [files], every image
    readable and read by the OCR engine as [ocr] *)
Definition one_directory (dir : string) (files : list string) (ocr : string) : FileSystem :=
  {| path_exists := fun p => String.eqb p dir;
     listdir := fun p => if String.eqb p dir then Ok files else Raise OSError;
     imread := fun _ => true;
     image_to_string := fun _ => Ok ocr |}.

(** eleven frames three apart on one meridian at constant speed, the last
    two read with a wrong latitude *)
Definition sample_trip : DataFrame :=
  dashcam (map (fun k => (3 * Z.of_nat k)%Z) (seq 0 11))
          (repeat "08-04-2024 11:04:13"%string 11)
          (repeat 10%float 9 ++ [11%float; 50%float])
          (repeat (-97)%float 11)
          (repeat 50%Z 11)
          (repeat "MPH"%string 11).

(** a table of one frame *)
Definition single_frame : DataFrame :=
  dashcam [7%Z] ["08-04-2024 11:04:13"%string] [30.5%float] [(-97.5)%float]
          [50%Z] ["MPH"%string].

(** the table [clean_dataframe] returns on [sample_trip] *)
Definition sample_trip_cleaned : DataFrame :=
  Eval vm_compute in
    match clean_dataframe ref_mode_order ref_mean ref_std sample_trip with
    | Ok (out, _) => out
    | Raise _ => []
    end.

(** the three streams of a video whose gps and speed readers each lost a frame *)
Definition sample_time : AttributeStream :=
  [(0, TimeEntry "08-04-2024 11:28:08"); (3, TimeEntry "08-04-2024 11:28:11");
   (6, TimeEntry "08-04-2024 11:28:14")]%Z.
Definition sample_gps : AttributeStream :=
  [(0, GpsEntry {| latitude := 30.5; longitude := -97.5 |});
   (6, GpsEntry {| latitude := 30.75; longitude := -97.75 |})]%Z.
Definition sample_speed : AttributeStream :=
  [(3, SpeedEntry {| speed := 73; speed_units := "MPH" |});
   (6, SpeedEntry {| speed := 74; speed_units := "MPH" |})]%Z.

(** the table [dict_to_dataframe] assembles from them *)
Definition sample_joined : DataFrame :=
  Eval vm_compute in
    match dict_to_dataframe ref_join_order sample_time sample_gps sample_speed with
    | Ok df => df
    | Raise _ => []
    end.

(* ================================================================== *)
(** * Assembling the videos of a directory ([ocr_functions.py], lines 192-229) *)

Definition same_dtype (a b : Series) : bool :=
  match a, b with
  | SInt _, SInt _ => true
  | SFloat _, SFloat _ => true
  | SStr _, SStr _ => true
  | _, _ => false
  end.

Definition append_series (a b : Series) : Series :=
  match a, b with
  | SInt xs, SInt ys => SInt (xs ++ ys)
  | SFloat xs, SFloat ys => SFloat (xs ++ ys)
  | SStr xs, SStr ys => SStr (xs ++ ys)
  | _, _ => a
  end.

(** [a.vstack(b)]: the rows of [b] under those of [a]; the two frames must
    have the same columns, by name and by type, in the same order. polars
    has an exception of its own for each mismatch; both are [ShapeError]
    here. *)
Fixpoint vstack (a b : DataFrame) : result DataFrame :=
  match a, b with
  | [], [] => Ok []
  | (n, s) :: a', (n', s') :: b' =>
      assert String.eqb n n' && same_dtype s s' or ShapeError ;;
      rest <- vstack a' b' ;;
      Ok ((n, append_series s s') :: rest)
  | _, _ => Raise ShapeError
  end.

Definition directory_to_dataframe (join_order : list (nat * nat) -> list (nat * nat))
    (fs : FileSystem) (input_dir : string) : result DataFrame :=
  let input_dir := rstrip input_dir in
  assert path_exists fs input_dir or AssertionError "Directory does not exist" ;;
  time_dict <- image_directory_to_dict fs (input_dir ++ "/time")%string ;;
  gps_dict <- image_directory_to_dict fs (input_dir ++ "/gps")%string ;;
  speed_dict <- image_directory_to_dict fs (input_dir ++ "/speed")%string ;;
  dict_to_dataframe join_order time_dict gps_dict speed_dict.

(** the loop of lines 225-227 over the subfolders after the first *)
Fixpoint stack_directories (join_order : list (nat * nat) -> list (nat * nat))
    (fs : FileSystem) (input_dir : string)
    (subfolders : list string) (base_df : DataFrame) : result DataFrame :=
  match subfolders with
  | [] => Ok base_df
  | sub :: rest =>
      new_df <- directory_to_dataframe join_order fs (input_dir ++ "/" ++ sub)%string ;;
      base_df <- vstack base_df new_df ;;
      stack_directories join_order fs input_dir rest base_df
  end.

Definition all_directories_to_dataframe (join_order : list (nat * nat) -> list (nat * nat))
    (fs : FileSystem) (input_dir : string) : result DataFrame :=
  let input_dir := rstrip input_dir in
  assert path_exists fs input_dir or AssertionError "Directory does not exist" ;;
  subfolders <- listdir fs input_dir ;;
  match subfolders with
  | [] => Raise (AssertionError
                   ("Error: there are no subfolders in directory: " ++ input_dir)%string)
  | first :: rest =>
      base_df <- directory_to_dataframe join_order fs (input_dir ++ "/" ++ first)%string ;;
      stack_directories join_order fs input_dir rest base_df
  end.

(** a directory tree given by the listing of each of its directories, every
    image readable, the OCR text of an image given by its path *)
Definition directory_tree (dirs : list (string * list string)) (ocr : string -> string)
    : FileSystem :=
  {| path_exists := fun p => existsb (fun d => String.eqb (fst d) p) dirs;
     listdir := fun p =>
       match find (fun d => String.eqb (fst d) p) dirs with
       | Some d => Ok (snd d)
       | None => Raise OSError
       end;
     imread := fun _ => true;
     image_to_string := fun p => Ok (ocr p) |}.

(** two videos of two frames each *)
Definition sample_tree : FileSystem :=
  directory_tree
    [ ("../frames", ["010243F"; "010244F"]);
      ("../frames/010243F", ["gps"; "speed"; "time"]);
      ("../frames/010243F/gps", ["frame_0.jpg"; "frame_3.jpg"]);
      ("../frames/010243F/speed", ["frame_0.jpg"; "frame_3.jpg"]);
      ("../frames/010243F/time", ["frame_0.jpg"; "frame_3.jpg"]);
      ("../frames/010244F", ["gps"; "speed"; "time"]);
      ("../frames/010244F/gps", ["frame_0.jpg"; "frame_3.jpg"]);
      ("../frames/010244F/speed", ["frame_0.jpg"; "frame_3.jpg"]);
      ("../frames/010244F/time", ["frame_0.jpg"; "frame_3.jpg"]) ]%string
    (fun p =>
       match index 0 "/gps/" p, index 0 "/speed/" p with
       | Some _, _ => "N30.426786 W97 .665820"
       | _, Some _ => "8   MPH"
       | _, _ => "08-04-2024 11:  04 :13"
       end)%string.

(** the table of the first video, and the table of both *)
Definition sample_video_table : DataFrame :=
  Eval vm_compute in
    match directory_to_dataframe ref_join_order sample_tree "../frames/010243F/" with
    | Ok df => df
    | Raise _ => []
    end.

Definition sample_trip_table : DataFrame :=
  Eval vm_compute in
    match all_directories_to_dataframe ref_join_order sample_tree "../frames/" with
    | Ok df => df
    | Raise _ => []
    end.

(* ================================================================== *)
(** * Frame files ([video_functions.py], lines 5-64) *)

(** [str(i)] of an int, as an f-string renders it *)
Definition py_str_int (i : Z) : string :=
  DecimalString.NilEmpty.string_of_int (Z.to_int i).

(** the name of the file that [frame_extractor] writes for a time offset
    that is an int, as [frame_extractor_loop] passes it (line 32) *)
Definition frame_file (time_offset : Z) : string :=
  ("frame_" ++ py_str_int time_offset ++ ".jpg")%string.

(** [output_path] of line 32; [parent_folder] is what lines 26-27 cut out of
    the name of the video file *)
Definition output_path (output_dir parent_folder frame_type : string) (time_offset : Z)
    : string :=
  (rstrip output_dir ++ "/" ++ parent_folder ++ "/" ++ frame_type ++ "/" ++
   frame_file time_offset)%string.

(** the paths that [frame_extractor_loop] writes, one every [frequency]
    seconds of a video that opens, is [length_in_seconds] long and gives a
    frame at each offset (lines 63-64) *)
Definition frame_extractor_loop (parent_folder : string) (length_in_seconds frequency : Z)
    (frame_type : string) : result (list string) :=
  offsets <- py_range 0 length_in_seconds frequency ;;
  Ok (map (output_path "frames" parent_folder frame_type) offsets).

(** eleven frames three apart at one place and speed, the fifth read as
    the sentinel (0.0, 0.0) of [text_to_coordinates] *)
Definition gap_trip : DataFrame :=
  dashcam (map (fun k => (3 * Z.of_nat k)%Z) (seq 0 11))
          (repeat "08-04-2024 11:04:13"%string 11)
          (repeat 10%float 4 ++ [0%float] ++ repeat 10%float 6)
          (repeat (-97)%float 4 ++ [0%float] ++ repeat (-97)%float 6)
          (repeat 50%Z 11)
          (repeat "MPH"%string 11).

(** the table [clean_dataframe] returns on [gap_trip] *)
Definition gap_trip_cleaned : DataFrame :=
  Eval vm_compute in
    match clean_dataframe ref_mode_order ref_mean ref_std gap_trip with
    | Ok (out, _) => out
    | Raise _ => []
    end.


(* ================================================================== *)
(** * Specification predicates *)

(** what a node may consume *)
Inductive seg_ok : node -> text -> Prop :=
| seg_ok_rep : forall c lo hi seg,
    Forall (fun a => c a = true) seg ->
    lo <= length seg ->
    (forall h, hi = Some h -> length seg <= h) ->
    seg_ok (Rep c lo hi) seg
| seg_ok_eos : seg_ok Eos [].

(** a repetition of class [c] cannot go on into [rest] *)
Definition stops (c : ascii -> bool) (rest : text) : Prop :=
  match rest with
  | [] => True
  | a :: _ => c a = false
  end.

Definition all_in (c : ascii -> bool) (s : text) : Prop :=
  Forall (fun a => c a = true) s.

Definition none_in (c : ascii -> bool) (s : text) : Prop :=
  Forall (fun a => c a = false) s.

Fixpoint take_while (c : ascii -> bool) (s : text) : text :=
  match s with
  | a :: s' => if c a then a :: take_while c s' else []
  | [] => []
  end.

Fixpoint drop_while (c : ascii -> bool) (s : text) : text :=
  match s with
  | a :: s' => if c a then drop_while c s' else s
  | [] => []
  end.

(** [n] decimal digits *)
Definition digits (n : nat) (s : text) : Prop :=
  all_in is_digit s /\ length s = n.

Definition chars (s : string) : text := list_ascii_of_string s.
Definition str (s : text) : string := string_of_list_ascii s.

(** C5 as the specification words it: any non-digit separators will do. *)
Definition timestamp_claim : Prop :=
  forall dd s1 mo s2 yyyy s3 hh s4 mi s5 ss,
    digits 2 dd -> digits 2 mo -> digits 4 yyyy ->
    digits 2 hh -> digits 2 mi -> digits 2 ss ->
    all_in non_digit s1 -> all_in non_digit s2 -> all_in non_digit s3 ->
    all_in non_digit s4 -> all_in non_digit s5 ->
    text_to_timestamp (str (dd ++ s1 ++ mo ++ s2 ++ yyyy ++ s3 ++ hh ++ s4 ++ mi ++ s5 ++ ss)) =
    str (dd ++ "-"%char :: mo ++ "-"%char :: yyyy ++ " "%char ::
         hh ++ ":"%char :: mi ++ ":"%char :: ss).

(** C6 as the specification words it: the units are the unit token. *)
Definition speed_claim : Prop :=
  forall ds ws unit rest,
    all_in is_digit ds -> 1 <= length ds <= 3 ->
    all_in is_space ws ->
    all_in is_alpha unit -> 3 <= length unit -> stops is_alpha rest ->
    text_to_speed (str (ds ++ ws ++ unit ++ rest)) =
    Ok {| speed := digits_value ds; speed_units := str unit |}.

(** the kinds of entries the three streams of a video hold *)
Definition is_time (e : Entry) : Prop := exists t, e = TimeEntry t.
Definition is_gps (e : Entry) : Prop := exists c, e = GpsEntry c.
Definition is_speed (e : Entry) : Prop := exists s, e = SpeedEntry s.

(** an int that an [Int64] column holds *)
Definition int64 (z : Z) : Prop := (- 2 ^ 63 <= z < 2 ^ 63)%Z.

(** an entry whose speed, when it has one, is such an int *)
Definition int64_speed (e : Entry) : Prop :=
  match e with SpeedEntry s => int64 (speed s) | _ => True end.

(** the key column of an inner join: every left key, once per right row
    that carries it *)
Definition joined_keys (lk rk : list Z) : list Z :=
  flat_map (fun k => map (fun _ => k) (positions_from k rk 0)) lk.

(** [df'] is [df] with some rows removed *)
Definition masked (df df' : DataFrame) : Prop :=
  exists m, filter_rows df m = Ok df'.

(** column [name] is numeric and all its values satisfy [P] *)
Definition holds (P : float -> Prop) (df : DataFrame) (name : string) : Prop :=
  exists s xs, column df name = Ok s /\ as_floats s = Ok xs /\ Forall P xs.

(** every column has [n] rows *)
Definition rect (n : nat) (df : DataFrame) : Prop :=
  Forall (fun c => series_len (snd c) = n) df.

(** the column names after [with_columns] *)
Definition add_name (n : string) (cs : list string) : list string :=
  if existsb (String.eqb n) cs then cs else cs ++ [n].

Definition drop_name (n : string) (cs : list string) : list string :=
  filter (fun c => negb (String.eqb c n)) cs.

(** the column names of the cleaned table, from those of the input *)
Definition clean_columns (cs : list string) : list string :=
  add_name "lon_delta" (add_name "lat_delta"
    (drop_name "frame_index" (drop_name "frame_delta"
      (add_name "new_index" (add_name "frame_delta" cs))))).

Definition latitude_ok (x : float) : Prop :=
  PrimFloat.eqb x 0 = false /\ PrimFloat.leb (PrimFloat.abs x) 90 = true.

Definition longitude_ok (x : float) : Prop :=
  PrimFloat.leb (PrimFloat.abs x) 180 = true.

(** the differences that are not null *)
Definition non_null {A : Type} (l : list (option A)) : list A :=
  flat_map (fun o => match o with Some v => [v] | None => [] end) l.

(** the new index: 0, interval, 2*interval, ... *)
Definition multiples (interval : Z) (n : nat) : list Z :=
  map (fun k => (Z.of_nat k * interval)%Z) (seq 0 n).

(** C2 as the specification words it: on every table that is not empty, the
    interval is a mode of the differences that are not null, and the new
    index is made of its multiples. *)
Definition reindex_claim : Prop :=
  forall mode_order, (forall l, Permutation (mode_order l) l) ->
  forall df xs,
    column df "frame_index" = Ok (SInt xs) -> rect (length xs) df -> xs <> [] ->
    exists out interval,
      reindex mode_order df = Ok out /\
      In interval (modes_of (non_null (diff xs))) /\
      column out "new_index" = Ok (SInt (multiples interval (length xs))).

(** C7 as the specification words it, for the filter passes run again on
    the cleaned table, and for [clean_dataframe] itself run on its output. *)
Definition filter_idempotence_claim (mean std : list float -> option float) : Prop :=
  forall df out,
    outlier_filter mean std df = Ok out ->
    exists out2, outlier_filter mean std out = Ok out2 /\ height out2 = height out.

Definition clean_idempotence_claim (mode_order : list Z -> list Z)
    (mean std : list float -> option float) : Prop :=
  forall df out file,
    clean_dataframe mode_order mean std df = Ok (out, file) ->
    exists out2 file2,
      clean_dataframe mode_order mean std out = Ok (out2, file2) /\
      height out2 = height out.

(** the order of the sort keys *)
Definition key_le (x y : Z * string) : Prop := (fst x <= fst y)%Z.

(** the kind of entry that a directory of the given name produces *)
Definition entry_of_kind (data_type : string) (e : Entry) : Prop :=
  if String.eqb data_type "gps" then is_gps e
  else if String.eqb data_type "speed" then is_speed e
  else if String.eqb data_type "time" then is_time e
  else e = ErrorEntry.

(** the rows of [a] under the mask [m] are the rows of [b], in every column
    whose name is not in [skip] *)
Definition selected (skip : list string) (m : list bool) (a b : DataFrame) : Prop :=
  forall name s, ~ In name skip -> column a name = Ok s ->
    column b name = Ok (mask_series m s) /\ series_len s = length m.

(* ================================================================== *)
(** * The error monad *)

Lemma bind_Ok : forall (A B : Type) (m : result A) (k : A -> result B) (b : B),
  bind m k = Ok b -> exists a, m = Ok a /\ k a = Ok b.
Proof.
  intros A B m k b H. destruct m as [a | e]; simpl in H.
  - exists a. split; [reflexivity | exact H].
  - discriminate.
Qed.

Ltac bind_inv H :=
  let x := fresh "x" in
  let Hx := fresh "Hx" in
  apply bind_Ok in H; destruct H as [x [Hx H]].

Tactic Notation "bind_split" hyp(H) "as" ident(x) ident(Hx) :=
  apply bind_Ok in H; destruct H as [x [Hx H]].

Lemma mapM_length : forall (A B : Type) (f : A -> result B) (l : list A) (r : list B),
  mapM f l = Ok r -> length r = length l.
Proof.
  induction l as [| a l IH]; intros r H; simpl in H.
  - inversion H. reflexivity.
  - bind_inv H. bind_inv H. inversion H. simpl. f_equal. apply IH. assumption.
Qed.

Lemma mapM_Forall : forall (A B : Type) (f : A -> result B) (l : list A) (r : list B),
  mapM f l = Ok r -> Forall (fun a => exists b, f a = Ok b) l.
Proof.
  induction l as [| a l IH]; intros r H; simpl in H.
  - constructor.
  - bind_inv H. bind_inv H. constructor; [eexists; eassumption | eapply IH; eassumption].
Qed.

Lemma mapM_total : forall (A B : Type) (f : A -> result B) (l : list A),
  Forall (fun a => exists b, f a = Ok b) l -> exists r, mapM f l = Ok r.
Proof.
  induction 1 as [| a l [b Hb] _ [r Hr]]; simpl.
  - eexists; reflexivity.
  - rewrite Hb; simpl. rewrite Hr; simpl. eexists; reflexivity.
Qed.

(* ================================================================== *)
(** * The matcher *)

Lemma countdown_In : forall lo n k, In k (countdown lo n) -> lo <= k <= n.
Proof.
  induction n as [| n IH]; intros k H; simpl in H.
  - destruct (0 <? lo) eqn:E; simpl in H; [contradiction |].
    apply Nat.ltb_ge in E. destruct H as [H | []]. lia.
  - destruct (S n <? lo) eqn:E; simpl in H; [contradiction |].
    apply Nat.ltb_ge in E. destruct H as [H | H]; [lia |].
    apply IH in H. lia.
Qed.

Lemma countdown_head : forall lo n, lo <= n ->
  exists ks, countdown lo n = n :: ks.
Proof.
  intros lo n H. destruct n as [| n]; simpl.
  - assert (E : (0 <? lo) = false) by (apply Nat.ltb_ge; lia). rewrite E. eexists; reflexivity.
  - assert (E : (S n <? lo) = false) by (apply Nat.ltb_ge; lia). rewrite E. eexists; reflexivity.
Qed.

Lemma first_some_Some : forall (A : Type) (f : nat -> option A) ks r,
  first_some f ks = Some r -> exists k, In k ks /\ f k = Some r.
Proof.
  induction ks as [| k ks IH]; intros r H; simpl in H.
  - discriminate.
  - destruct (f k) eqn:E.
    + inversion H; subst. exists k. split; [left; reflexivity | assumption].
    + destruct (IH _ H) as [k' [Hin Hk]]. exists k'. split; [right |]; assumption.
Qed.

Lemma run_firstn : forall c s k, k <= run c s ->
  all_in c (firstn k s) /\ length (firstn k s) = k.
Proof.
  unfold all_in. induction s as [| a s IH]; intros k H; simpl in H.
  - assert (k = 0) by lia. subst. simpl. split; [constructor | reflexivity].
  - destruct k as [| k]; simpl.
    + split; [constructor | reflexivity].
    + destruct (c a) eqn:E; [| lia].
      destruct (IH k) as [H1 H2]; [lia |].
      split; [constructor; assumption | congruence].
Qed.

Lemma cap_le : forall hi n, cap hi n <= n.
Proof. intros [h |] n; simpl; lia. Qed.

Lemma cap_bound : forall h n, cap (Some h) n <= h.
Proof. intros h n; simpl; lia. Qed.

(** Soundness: what a successful match consumed is a prefix of the input,
    and every node consumed characters of its class, within its bounds. *)
Lemma match_here_sound : forall ns s segs,
  match_here ns s = Some segs ->
  Forall2 seg_ok ns segs /\ exists rest, s = concat segs ++ rest.
Proof.
  induction ns as [| n ns IH]; intros s segs H; simpl in H.
  - inversion H; subst. split; [constructor | exists s; reflexivity].
  - destruct n as [c lo hi |].
    + apply first_some_Some in H. destruct H as [k [Hin Hk]].
      apply countdown_In in Hin.
      destruct (match_here ns (skipn k s)) as [segs' |] eqn:E; simpl in Hk; [| discriminate].
      inversion Hk; subst. destruct (IH _ _ E) as [HF [rest Hrest]].
      assert (Hle : k <= run c s) by (pose proof (cap_le hi (run c s)); lia).
      destruct (run_firstn c s k Hle) as [Hall Hlen].
      split.
      * constructor; [| assumption]. constructor; [exact Hall | lia |].
        intros h Hh; subst. pose proof (cap_bound h (run c s)). lia.
      * exists rest. simpl. rewrite <- app_assoc, <- Hrest. symmetry. apply firstn_skipn.
    + destruct (at_end s); [| discriminate].
      destruct (match_here ns s) as [segs' |] eqn:E; simpl in H; [| discriminate].
      inversion H; subst. destruct (IH _ _ E) as [HF [rest Hrest]].
      split; [constructor; [constructor | assumption] | exists rest; assumption].
Qed.

Lemma search_sound : forall ns s segs,
  search ns s = Some segs ->
  Forall2 seg_ok ns segs /\ exists pre rest, s = pre ++ concat segs ++ rest.
Proof.
  induction s as [| a s IH]; intros segs H; simpl in H.
  - destruct (match_here ns []) eqn:E; [| discriminate]. inversion H; subst.
    destruct (match_here_sound _ _ _ E) as [HF [rest Hr]].
    split; [assumption | exists [], rest; assumption].
  - destruct (match_here ns (a :: s)) eqn:E.
    + inversion H; subst. destruct (match_here_sound _ _ _ E) as [HF [rest Hr]].
      split; [assumption | exists [], rest; assumption].
    + destruct (IH _ H) as [HF [pre [rest Hr]]].
      split; [assumption | exists (a :: pre), rest; simpl; congruence].
Qed.

Lemma run_app_stop : forall c seg rest,
  all_in c seg -> stops c rest -> run c (seg ++ rest) = length seg.
Proof.
  unfold all_in. induction seg as [| a seg IH]; intros rest Hall Hstop; simpl.
  - destruct rest as [| b rest]; simpl; [reflexivity |]. simpl in Hstop. rewrite Hstop. reflexivity.
  - inversion Hall; subst. rewrite H1. f_equal. apply IH; assumption.
Qed.

Lemma run_app_ge : forall c seg rest,
  all_in c seg -> length seg <= run c (seg ++ rest).
Proof.
  unfold all_in. induction seg as [| a seg IH]; intros rest Hall; simpl.
  - lia.
  - inversion Hall; subst. rewrite H1. apply le_n_S. apply IH. assumption.
Qed.

(** The greedy step: when a repetition can take exactly [seg] and the rest
    of the pattern matches what follows, that is the match found. *)
Lemma match_here_greedy : forall c lo hi ns seg rest r,
  all_in c seg ->
  lo <= length seg ->
  cap hi (run c (seg ++ rest)) = length seg ->
  match_here ns rest = Some r ->
  match_here (Rep c lo hi :: ns) (seg ++ rest) = Some (seg :: r).
Proof.
  intros c lo hi ns seg rest r Hall Hlo Hcap Hrest. simpl. rewrite Hcap.
  destruct (countdown_head lo (length seg) Hlo) as [ks Hks]. rewrite Hks. simpl.
  rewrite skipn_app, skipn_all, Nat.sub_diag. simpl. rewrite Hrest. simpl.
  rewrite firstn_app, firstn_all, Nat.sub_diag. simpl. rewrite app_nil_r. reflexivity.
Qed.

Lemma greedy_star : forall c ns seg rest r,
  all_in c seg -> stops c rest ->
  match_here ns rest = Some r ->
  match_here (Rep c 0 None :: ns) (seg ++ rest) = Some (seg :: r).
Proof.
  intros. apply match_here_greedy; try assumption; [lia |].
  simpl. apply run_app_stop; assumption.
Qed.

Lemma greedy_plus : forall c lo ns seg rest r,
  all_in c seg -> lo <= length seg -> stops c rest ->
  match_here ns rest = Some r ->
  match_here (Rep c lo None :: ns) (seg ++ rest) = Some (seg :: r).
Proof.
  intros. apply match_here_greedy; try assumption.
  simpl. apply run_app_stop; assumption.
Qed.

Lemma greedy_exact : forall c n ns seg rest r,
  all_in c seg -> length seg = n ->
  match_here ns rest = Some r ->
  match_here (Rep c n (Some n) :: ns) (seg ++ rest) = Some (seg :: r).
Proof.
  intros c n ns seg rest r Hall Hlen Hrest.
  apply match_here_greedy; try assumption; [lia |].
  simpl. pose proof (@run_app_ge c seg rest Hall). lia.
Qed.

Lemma greedy_upto : forall c lo h ns seg rest r,
  all_in c seg -> lo <= length seg -> length seg <= h -> stops c rest ->
  match_here ns rest = Some r ->
  match_here (Rep c lo (Some h) :: ns) (seg ++ rest) = Some (seg :: r).
Proof.
  intros c lo h ns seg rest r Hall Hlo Hh Hstop Hrest.
  apply match_here_greedy; try assumption.
  simpl. rewrite (@run_app_stop c seg rest Hall Hstop). lia.
Qed.

(** A pattern that starts with at least one character of class [c] cannot
    match where the input has none. *)
Lemma match_here_needs : forall c lo hi ns s,
  1 <= lo -> stops c s -> match_here (Rep c lo hi :: ns) s = None.
Proof.
  intros c lo hi ns s Hlo Hstop. simpl.
  assert (Hrun : run c s = 0).
  { destruct s as [| a s]; simpl; [reflexivity |]. simpl in Hstop. rewrite Hstop. reflexivity. }
  rewrite Hrun. assert (Hc : cap hi 0 = 0) by (destruct hi; simpl; lia). rewrite Hc.
  destruct lo as [| lo]; [lia |]. reflexivity.
Qed.

Lemma search_skip : forall c lo hi ns pre s,
  1 <= lo -> none_in c pre ->
  search (Rep c lo hi :: ns) (pre ++ s) = search (Rep c lo hi :: ns) s.
Proof.
  unfold none_in. induction pre as [| a pre IH]; intros s Hlo Hnone.
  - reflexivity.
  - inversion Hnone; subst. cbn [app search].
    rewrite match_here_needs; [| assumption | simpl; assumption].
    apply IH; assumption.
Qed.

Lemma search_none : forall c lo hi ns s,
  1 <= lo -> none_in c s -> search (Rep c lo hi :: ns) s = None.
Proof.
  intros c lo hi ns s Hlo Hnone.
  rewrite <- (app_nil_r s). rewrite search_skip by assumption.
  cbn [search]. rewrite match_here_needs; [reflexivity | assumption | exact I].
Qed.

Lemma search_here : forall ns s segs,
  match_here ns s = Some segs -> search ns s = Some segs.
Proof.
  intros ns s segs H. destruct s; simpl; rewrite H; reflexivity.
Qed.

(** every character a match consumed occurs in the input *)
Lemma search_consumed : forall ns s segs seg a,
  search ns s = Some segs -> In seg segs -> In a seg -> In a s.
Proof.
  intros ns s segs seg a H Hseg Ha.
  destruct (search_sound _ _ _ H) as [_ [pre [rest Hs]]]. subst s.
  apply in_or_app. right. apply in_or_app. left.
  apply in_concat. exists seg. split; assumption.
Qed.

(* ================================================================== *)
(** * Character classes *)

Ltac ascii_cases a :=
  let b0 := fresh in let b1 := fresh in let b2 := fresh in let b3 := fresh in
  let b4 := fresh in let b5 := fresh in let b6 := fresh in let b7 := fresh in
  destruct a as [b0 b1 b2 b3 b4 b5 b6 b7];
  destruct b0, b1, b2, b3, b4, b5, b6, b7;
  vm_compute; intros; try reflexivity; try discriminate.

Lemma digit_not_non_digit : forall a, is_digit a = true -> non_digit a = false.
Proof. intros a H. unfold non_digit. rewrite H. reflexivity. Qed.

Lemma non_digit_not_digit : forall a, non_digit a = true -> is_digit a = false.
Proof. intros a H. unfold non_digit in H. destruct (is_digit a); [discriminate | reflexivity]. Qed.

Lemma digit_not_space : forall a, is_digit a = true -> is_space a = false.
Proof. intros a. ascii_cases a. Qed.

Lemma space_not_digit : forall a, is_space a = true -> is_digit a = false.
Proof. intros a. ascii_cases a. Qed.

Lemma alpha_not_digit : forall a, is_alpha a = true -> is_digit a = false.
Proof. intros a. ascii_cases a. Qed.

Lemma alpha_not_space : forall a, is_alpha a = true -> is_space a = false.
Proof. intros a. ascii_cases a. Qed.

Lemma alpha_not_newline : forall a, is_alpha a = true -> not_newline a = true.
Proof. intros a. ascii_cases a. Qed.

Lemma digit_not_dot : forall a, is_digit a = true -> Ascii.eqb a "."%char = false.
Proof. intros a. ascii_cases a. Qed.

Lemma stops_app : forall (c d : ascii -> bool) seg rest,
  (forall a, d a = true -> c a = false) ->
  all_in d seg -> seg <> [] -> stops c (seg ++ rest).
Proof.
  intros c d seg rest Hcd Hall Hne. destruct seg as [| a seg]; [congruence |].
  simpl. inversion Hall; subst. apply Hcd. assumption.
Qed.

Lemma stops_app_nil : forall (c d : ascii -> bool) seg rest,
  (forall a, d a = true -> c a = false) ->
  all_in d seg -> stops c rest -> stops c (seg ++ rest).
Proof.
  intros c d seg rest Hcd Hall Hstop. destruct seg as [| a seg]; [assumption |].
  simpl. inversion Hall; subst. apply Hcd. assumption.
Qed.

Lemma length_nonempty : forall (s : text) n, length s = n -> 1 <= n -> s <> [].
Proof. intros s n H Hn Hs. subst s. simpl in H. lia. Qed.

Lemma take_drop_while : forall c s, take_while c s ++ drop_while c s = s.
Proof.
  induction s as [| a s IH]; simpl; [reflexivity |].
  destruct (c a); simpl; [rewrite IH |]; reflexivity.
Qed.

Lemma take_while_all : forall c s, all_in c (take_while c s).
Proof.
  unfold all_in. induction s as [| a s IH]; simpl; [constructor |].
  destruct (c a) eqn:E; [constructor; assumption | constructor].
Qed.

Lemma drop_while_stops : forall c s, stops c (drop_while c s).
Proof.
  induction s as [| a s IH]; simpl; [exact I |].
  destruct (c a) eqn:E; [assumption | simpl; assumption].
Qed.

Lemma take_while_refine : forall (c d : ascii -> bool) s,
  (forall a, c a = true -> d a = true) ->
  take_while c s ++ take_while d (drop_while c s) = take_while d s.
Proof.
  intros c d s Hcd. induction s as [| a s IH]; simpl; [reflexivity |].
  destruct (c a) eqn:E.
  - rewrite (Hcd _ E). simpl. rewrite IH. reflexivity.
  - simpl. reflexivity.
Qed.

Lemma all_in_app : forall c s t, all_in c s -> all_in c t -> all_in c (s ++ t).
Proof. intros c s t Hs Ht. apply Forall_app. split; assumption. Qed.

Lemma all_in_weaken : forall (c d : ascii -> bool) s,
  (forall a, c a = true -> d a = true) -> all_in c s -> all_in d s.
Proof. intros c d s Hcd Hs. eapply Forall_impl; [| exact Hs]. exact Hcd. Qed.

(* ================================================================== *)
(** * [int] and [float] *)

Lemma forallb_all_in : forall c s, all_in c s -> forallb c s = true.
Proof. intros c s H. apply forallb_forall. apply Forall_forall. exact H. Qed.

Lemma py_int_digits : forall s,
  all_in is_digit s -> s <> [] -> py_int s = Ok (digits_value s).
Proof.
  intros s Hall Hne. unfold py_int. destruct s as [| a s]; [congruence |].
  rewrite (forallb_all_in _ _ Hall). reflexivity.
Qed.

Lemma split_at_dot_digits : forall w f,
  all_in is_digit w -> split_at_dot (w ++ "."%char :: f) = Some (w, f).
Proof.
  induction w as [| a w IH]; intros f Hall; simpl.
  - reflexivity.
  - inversion Hall; subst. rewrite (digit_not_dot _ H1). rewrite (IH _ H2). reflexivity.
Qed.

Lemma py_float_digits : forall w f,
  all_in is_digit w -> w <> [] -> all_in is_digit f -> f <> [] ->
  py_float (w ++ "."%char :: f) =
  Ok (round_ratio (digits_value (w ++ f)) (10 ^ Z.of_nat (length f))).
Proof.
  intros w f Hw Hwne Hf Hfne. unfold py_float.
  rewrite (split_at_dot_digits w f Hw).
  rewrite (py_int_digits _ Hw Hwne), (py_int_digits _ Hf Hfne). reflexivity.
Qed.

(* ================================================================== *)
(** * Text parsers *)

Lemma re_search_chars : forall re (s : text),
  re_search re (string_of_list_ascii s) = option_map (groups_of re) (search (nodes_of re) s).
Proof. intros. unfold re_search. rewrite list_ascii_of_string_of_list_ascii. reflexivity. Qed.

Lemma seg_ok_length : forall c n seg, seg_ok (Rep c n (Some n)) seg -> length seg = n.
Proof.
  intros c n seg H. inversion H; subst. specialize (H6 n eq_refl). lia.
Qed.

Lemma seg_ok_all : forall c lo hi seg, seg_ok (Rep c lo hi) seg -> all_in c seg.
Proof. intros c lo hi seg H. inversion H; subst. assumption. Qed.

Lemma seg_ok_nonempty : forall c lo hi seg,
  seg_ok (Rep c lo hi) seg -> 1 <= lo -> seg <> [].
Proof.
  intros c lo hi seg H Hlo Hs. inversion H; subst. simpl in *. lia.
Qed.

Lemma seg_ok_one : forall c seg, seg_ok (one c) seg -> exists a, seg = [a] /\ c a = true.
Proof.
  intros c seg H. pose proof (seg_ok_length _ _ _ H) as Hlen. apply seg_ok_all in H.
  destruct seg as [| a [| b seg]]; simpl in Hlen; try lia.
  exists a. split; [reflexivity |]. inversion H; subst. assumption.
Qed.

Lemma hemisphere_NS : forall a, one_of ["N"; "S"]%char a = true -> a = "N"%char \/ a = "S"%char.
Proof.
  intros a H. unfold one_of in H. simpl in H.
  destruct (Ascii.eqb_spec a "N"%char); [left; assumption |].
  destruct (Ascii.eqb_spec a "S"%char); [right; assumption | discriminate].
Qed.

Lemma hemisphere_EW : forall a, one_of ["E"; "W"]%char a = true -> a = "E"%char \/ a = "W"%char.
Proof.
  intros a H. unfold one_of in H. simpl in H.
  destruct (Ascii.eqb_spec a "E"%char); [left; assumption |].
  destruct (Ascii.eqb_spec a "W"%char); [right; assumption | discriminate].
Qed.

(** The shape of a coordinate match: the eight groups of the pattern. *)
Lemma coord_groups : forall s gs,
  re_search regex_coord_pattern s = Some gs ->
  exists ns lat_w d1 lat_f ew lon_w d2 lon_f,
    gs = [[ns]; lat_w; d1; lat_f; [ew]; lon_w; d2; lon_f] /\
    (ns = "N"%char \/ ns = "S"%char) /\ (ew = "E"%char \/ ew = "W"%char) /\
    (all_in is_digit lat_w /\ lat_w <> []) /\ (all_in is_digit lat_f /\ lat_f <> []) /\
    (all_in is_digit lon_w /\ lon_w <> []) /\ (all_in is_digit lon_f /\ lon_f <> []) /\
    In ns (list_ascii_of_string s) /\ In ew (list_ascii_of_string s).
Proof.
  intros s gs H. unfold re_search in H.
  destruct (search (nodes_of regex_coord_pattern) (list_ascii_of_string s)) as [segs |] eqn:E;
    simpl in H; [| discriminate].
  inversion H; subst gs; clear H.
  pose proof (search_sound _ _ _ E) as [HF _].
  cbn in HF.
  repeat match goal with
         | HF : Forall2 seg_ok (_ :: _) _ |- _ => inversion HF; subst; clear HF
         | HF : Forall2 seg_ok [] _ |- _ => inversion HF; subst; clear HF
         end.
  match goal with
  | H1 : seg_ok (one (one_of ["N"; "S"]%char)) ?a, H2 : seg_ok (one (one_of ["E"; "W"]%char)) ?b |- _ =>
      destruct (seg_ok_one _ _ H1) as [ns [-> Hns]]; destruct (seg_ok_one _ _ H2) as [ew [-> Hew]]
  end.
  cbn [regex_coord_pattern groups_of length firstn skipn concat app].
  repeat rewrite app_nil_r.
  do 8 eexists. split; [reflexivity |].
  split; [apply hemisphere_NS; assumption |].
  split; [apply hemisphere_EW; assumption |].
  repeat match goal with
         | H : seg_ok (plus is_digit) ?x |- _ =>
             pose proof (seg_ok_all _ _ _ _ H); pose proof (@seg_ok_nonempty _ _ _ _ H (le_n 1)); clear H
         end.
  repeat split; try assumption.
  - apply (@search_consumed _ _ _ [ns] ns E); [simpl; auto | left; reflexivity].
  - apply (@search_consumed _ _ _ [ew] ew E); [simpl; auto 20 | left; reflexivity].
Qed.

Lemma re_search_str : forall re (s : text),
  re_search re (str s) = option_map (groups_of re) (search (nodes_of re) s).
Proof. exact re_search_chars. Qed.

Lemma str_chars : forall s, str (chars s) = s.
Proof. exact string_of_list_ascii_of_string. Qed.

Lemma digits_nonempty : forall n s, digits n s -> 1 <= n -> s <> [].
Proof. intros n s [_ H] Hn. eapply length_nonempty; eassumption. Qed.

Lemma stops_non_digit : forall n s rest, digits n s -> 1 <= n -> stops non_digit (s ++ rest).
Proof.
  intros n s rest H Hn. apply stops_app with (d := is_digit).
  - exact digit_not_non_digit.
  - apply H.
  - eapply digits_nonempty; eassumption.
Qed.

Lemma stops_space_digits : forall n s rest, digits n s -> 1 <= n -> stops is_space (s ++ rest).
Proof.
  intros n s rest H Hn. apply stops_app with (d := is_digit).
  - exact digit_not_space.
  - apply H.
  - eapply digits_nonempty; eassumption.
Qed.

(** The timestamp pattern on a well-formed stamp: every repetition takes
    its field at the first try. *)
Lemma timestamp_match : forall dd s1 mo s2 yyyy s3 hh s4 mi s5 ss post,
  digits 2 dd -> digits 2 mo -> digits 4 yyyy ->
  digits 2 hh -> digits 2 mi -> digits 2 ss ->
  all_in non_digit s1 -> all_in non_digit s2 -> all_in is_space s3 ->
  all_in non_digit s4 -> all_in non_digit s5 ->
  match_here (nodes_of regex_timestamp_pattern)
    (dd ++ s1 ++ mo ++ s2 ++ yyyy ++ s3 ++ hh ++ s4 ++ mi ++ s5 ++ ss ++ post) =
  Some [dd; s1; mo; s2; yyyy; s3; hh; s4; mi;
        take_while is_space s5; drop_while is_space s5; ss].
Proof.
  intros dd s1 mo s2 yyyy s3 hh s4 mi s5 ss post
    Hdd Hmo Hyyyy Hhh Hmi Hss H1 H2 H3 H4 H5.
  cbn [nodes_of regex_timestamp_pattern flat_map piece_nodes app]. unfold star.
  rewrite <- (take_drop_while is_space s5) at 1. rewrite <- (app_assoc _ _ (ss ++ post)).
  apply greedy_exact; [apply Hdd | apply Hdd |].
  apply greedy_star; [assumption | apply stops_non_digit with (n := 2); [assumption | lia] |].
  apply greedy_exact; [apply Hmo | apply Hmo |].
  apply greedy_star; [assumption | apply stops_non_digit with (n := 4); [assumption | lia] |].
  apply greedy_exact; [apply Hyyyy | apply Hyyyy |].
  apply greedy_star; [assumption | apply stops_space_digits with (n := 2); [assumption | lia] |].
  apply greedy_exact; [apply Hhh | apply Hhh |].
  apply greedy_star; [assumption | apply stops_non_digit with (n := 2); [assumption | lia] |].
  apply greedy_exact; [apply Hmi | apply Hmi |].
  apply greedy_star; [apply take_while_all | |].
  { rewrite <- (take_drop_while is_space s5) in H5. apply Forall_app in H5. destruct H5 as [_ H5].
    destruct (drop_while is_space s5) as [| a t] eqn:E.
    - simpl. apply stops_space_digits with (n := 2); [assumption | lia].
    - pose proof (drop_while_stops is_space s5) as Hs. rewrite E in Hs. exact Hs. }
  apply greedy_star.
  { rewrite <- (take_drop_while is_space s5) in H5. apply Forall_app in H5. apply H5. }
  { apply stops_non_digit with (n := 2); [assumption | lia]. }
  apply greedy_exact; [apply Hss | apply Hss | reflexivity].
Qed.

(** C5 (amended): a stamp [DD s1 MM s2 YYYY s3 HH s4 MM s5 SS] that holds the
    first digits of the input, with non-digit separators [s1], [s2], [s4],
    [s5] and only white space between the year and the hour, is returned as
    [DD-MM-YYYY HH:MM:SS]; without a match the input comes back unchanged;
    and ["08-04-2024 11:  04 :13"] becomes ["08-04-2024 11:04:13"]. *)
Theorem text_to_timestamp_spec :
  (forall pre dd s1 mo s2 yyyy s3 hh s4 mi s5 ss post,
     none_in is_digit pre ->
     digits 2 dd -> digits 2 mo -> digits 4 yyyy ->
     digits 2 hh -> digits 2 mi -> digits 2 ss ->
     all_in non_digit s1 -> all_in non_digit s2 -> all_in is_space s3 ->
     all_in non_digit s4 -> all_in non_digit s5 ->
     text_to_timestamp
       (str (pre ++ dd ++ s1 ++ mo ++ s2 ++ yyyy ++ s3 ++ hh ++ s4 ++ mi ++ s5 ++ ss ++ post)) =
     str (dd ++ "-"%char :: mo ++ "-"%char :: yyyy ++ " "%char ::
          hh ++ ":"%char :: mi ++ ":"%char :: ss)) /\
  (forall s, re_search regex_timestamp_pattern s = None -> text_to_timestamp s = s) /\
  text_to_timestamp "08-04-2024 11:  04 :13" = "08-04-2024 11:04:13"%string.
Proof.
  split; [| split].
  - intros pre dd s1 mo s2 yyyy s3 hh s4 mi s5 ss post
      Hpre Hdd Hmo Hyyyy Hhh Hmi Hss H1 H2 H3 H4 H5.
    unfold text_to_timestamp. rewrite re_search_str.
    cbn [nodes_of regex_timestamp_pattern flat_map piece_nodes app].
    rewrite search_skip; [| lia | assumption].
    erewrite search_here;
      [| exact (@timestamp_match dd s1 mo s2 yyyy s3 hh s4 mi s5 ss post
                  Hdd Hmo Hyyyy Hhh Hmi Hss H1 H2 H3 H4 H5)].
    cbn [option_map groups_of regex_timestamp_pattern length firstn skipn concat app].
    repeat rewrite app_nil_r. reflexivity.
  - intros s H. unfold text_to_timestamp. rewrite H. reflexivity.
  - vm_compute. reflexivity.
Qed.

Lemma text_to_timestamp_spec_witness :
  text_to_timestamp "at 08/04/2024   11h04m 13s" = "08-04-2024 11:04:13"%string.
Proof.
  apply (proj1 text_to_timestamp_spec (chars "at ") (chars "08") (chars "/") (chars "04")
           (chars "/") (chars "2024") (chars "   ") (chars "11") (chars "h") (chars "04")
           (chars "m ") (chars "13") (chars "s"));
    try (split; [| reflexivity]); repeat constructor.
Defined.

(** C5 as stated fails: a dash between the year and the hour is a non-digit
    separator, and the stamp is returned as it came. *)
Lemma timestamp_claim_counterexample : ~ timestamp_claim.
Proof.
  intros H.
  assert (E : text_to_timestamp "08/04/2024 - 11:04:13" = "08-04-2024 11:04:13"%string).
  { apply (H (chars "08") (chars "/") (chars "04") (chars "/") (chars "2024")
             (chars " - ") (chars "11") (chars ":") (chars "04") (chars ":") (chars "13"));
      try (split; [| reflexivity]); repeat constructor. }
  vm_compute in E. discriminate E.
Qed.

(** The speed pattern on digits, white space and a unit: the unit group
    runs on to the end of the line. *)
Lemma speed_match : forall ds ws unit rest,
  all_in is_digit ds -> 1 <= length ds <= 3 ->
  all_in is_space ws ->
  all_in is_alpha unit -> 3 <= length unit ->
  match_here (nodes_of regex_speed_pattern) (ds ++ ws ++ unit ++ rest) =
  Some [ds; ws; unit ++ take_while is_alpha rest;
        take_while not_newline (drop_while is_alpha rest)].
Proof.
  intros ds ws unit rest Hds Hlen Hws Hunit Hul.
  cbn [nodes_of regex_speed_pattern flat_map piece_nodes app]. unfold star.
  assert (Hune : unit <> []) by (intros ->; simpl in Hul; lia).
  apply greedy_upto; [assumption | lia | lia | |].
  { apply stops_app_nil with (d := is_space); [exact space_not_digit | assumption |].
    apply stops_app with (d := is_alpha); [exact alpha_not_digit | assumption | assumption]. }
  apply greedy_star; [assumption | |].
  { apply stops_app with (d := is_alpha); [exact alpha_not_space | assumption | assumption]. }
  rewrite <- (take_drop_while is_alpha rest) at 1. rewrite app_assoc.
  apply greedy_plus.
  { apply all_in_app; [assumption | apply take_while_all]. }
  { rewrite length_app. lia. }
  { apply drop_while_stops. }
  rewrite <- (take_drop_while not_newline (drop_while is_alpha rest)) at 1.
  apply greedy_star; [apply take_while_all | apply drop_while_stops | reflexivity].
Qed.

(** C6 (amended): on 1-3 digits that are the first digits of the input,
    optional white space and a unit token of at least three letters,
    [text_to_speed] returns the digits as an int and, as units, the unit
    token together with whatever follows it on its line; without a match
    (in particular without any digit) it returns speed 0 in MPH; and
    ["8   MPH"] gives speed 8 in MPH. *)
Theorem text_to_speed_spec :
  (forall pre ds ws unit rest,
     none_in is_digit pre ->
     all_in is_digit ds -> 1 <= length ds <= 3 ->
     all_in is_space ws ->
     all_in is_alpha unit -> 3 <= length unit ->
     text_to_speed (str (pre ++ ds ++ ws ++ unit ++ rest)) =
     Ok {| speed := digits_value ds;
           speed_units := str (unit ++ take_while not_newline rest) |}) /\
  (forall s, re_search regex_speed_pattern s = None ->
     text_to_speed s = Ok {| speed := 0; speed_units := "MPH" |}) /\
  (forall s, none_in is_digit (chars s) ->
     text_to_speed s = Ok {| speed := 0; speed_units := "MPH" |}) /\
  text_to_speed "8   MPH" = Ok {| speed := 8; speed_units := "MPH" |}.
Proof.
  split; [| split; [| split]].
  - intros pre ds ws unit rest Hpre Hds Hlen Hws Hunit Hul.
    unfold text_to_speed. rewrite re_search_str.
    cbn [nodes_of regex_speed_pattern flat_map piece_nodes app].
    rewrite search_skip; [| lia | assumption].
    erewrite search_here; [| exact (@speed_match ds ws unit rest Hds Hlen Hws Hunit Hul)].
    cbn [option_map groups_of regex_speed_pattern length firstn skipn concat app].
    repeat rewrite app_nil_r.
    rewrite py_int_digits; [| assumption | intros ->; simpl in Hlen; lia].
    cbn [bind]. rewrite <- app_assoc.
    rewrite (@take_while_refine is_alpha not_newline rest alpha_not_newline).
    reflexivity.
  - intros s H. unfold text_to_speed. rewrite H. reflexivity.
  - intros s H. unfold text_to_speed, re_search.
    cbn [nodes_of regex_speed_pattern flat_map piece_nodes app].
    rewrite search_none; [reflexivity | lia | exact H].
  - vm_compute. reflexivity.
Qed.

(** C6 as stated fails: text after the unit token, on the same line, ends
    up in [speed_units]. *)
Lemma speed_claim_counterexample : ~ speed_claim.
Proof.
  intros H.
  assert (E : text_to_speed "65 MPH NE" = Ok {| speed := 65; speed_units := "MPH" |}).
  { apply (H (chars "65") (chars " ") (chars "MPH") (chars " NE"));
      try (simpl; lia); try reflexivity; repeat constructor. }
  vm_compute in E. discriminate E.
Qed.

Lemma stops_cons : forall (c : ascii -> bool) a rest, c a = false -> stops c (a :: rest).
Proof. intros c a rest H. exact H. Qed.

Lemma NS_class : forall h, h = "N"%char \/ h = "S"%char -> one_of ["N"; "S"]%char h = true.
Proof. intros h [-> | ->]; reflexivity. Qed.

Lemma EW_class : forall h, h = "E"%char \/ h = "W"%char -> one_of ["E"; "W"]%char h = true.
Proof. intros h [-> | ->]; reflexivity. Qed.

Lemma EW_not_space : forall h, h = "E"%char \/ h = "W"%char -> is_space h = false.
Proof. intros h [-> | ->]; reflexivity. Qed.

Lemma EW_not_digit : forall h, h = "E"%char \/ h = "W"%char -> is_digit h = false.
Proof. intros h [-> | ->]; reflexivity. Qed.

Lemma nonempty_length : forall s : text, s <> [] -> 1 <= length s.
Proof. intros [| a s] H; [congruence | simpl; lia]. Qed.

(** one half of the coordinate pattern, a number with its decimal point,
    on degrees, point and fraction *)
Lemma decimal_match : forall ns w a b f rest r,
  all_in is_digit w -> w <> [] -> all_in is_space a -> all_in is_space b ->
  all_in is_digit f -> f <> [] -> stops is_digit rest ->
  match_here ns rest = Some r ->
  match_here (plus is_digit :: star is_space :: one (lit "."%char) :: star is_space ::
              plus is_digit :: ns)
             (w ++ a ++ ["."%char] ++ b ++ f ++ rest) =
  Some (w :: a :: ["."%char] :: b :: f :: r).
Proof.
  intros ns w a b f rest r Hw Hwn Ha Hb Hf Hfn Hstop Hr. unfold plus, star, one.
  apply greedy_plus; [assumption | apply nonempty_length; assumption | |].
  { apply stops_app_nil with (d := is_space); [exact space_not_digit | assumption |].
    apply stops_cons. reflexivity. }
  apply greedy_star; [assumption | apply stops_cons; reflexivity |].
  apply greedy_exact; [repeat constructor | reflexivity |].
  apply greedy_star; [assumption | |].
  { apply stops_app with (d := is_digit); [exact digit_not_space | assumption | assumption]. }
  apply greedy_plus; [assumption | apply nonempty_length; assumption | assumption | assumption].
Qed.

(** The coordinate pattern on a well-formed pair: every repetition takes
    its field at the first try. *)
Lemma coord_match : forall h1 j1 w1 a1 b1 f1 c h2 j2 w2 a2 b2 f2 post,
  (h1 = "N"%char \/ h1 = "S"%char) -> (h2 = "E"%char \/ h2 = "W"%char) ->
  all_in non_digit j1 -> all_in non_digit j2 ->
  all_in is_digit w1 -> w1 <> [] -> all_in is_digit f1 -> f1 <> [] ->
  all_in is_digit w2 -> w2 <> [] -> all_in is_digit f2 -> f2 <> [] ->
  all_in is_space a1 -> all_in is_space b1 -> all_in is_space c ->
  all_in is_space a2 -> all_in is_space b2 -> stops is_digit post ->
  match_here (nodes_of regex_coord_pattern)
    ([h1] ++ j1 ++ w1 ++ a1 ++ ["."%char] ++ b1 ++ f1 ++ c ++
     [h2] ++ j2 ++ w2 ++ a2 ++ ["."%char] ++ b2 ++ f2 ++ post) =
  Some [[h1]; j1; w1; a1; ["."%char]; b1; f1; c;
        [h2]; j2; w2; a2; ["."%char]; b2; f2].
Proof.
  intros h1 j1 w1 a1 b1 f1 c h2 j2 w2 a2 b2 f2 post
    Hh1 Hh2 Hj1 Hj2 Hw1 Hw1n Hf1 Hf1n Hw2 Hw2n Hf2 Hf2n Ha1 Hb1 Hc Ha2 Hb2 Hpost.
  cbn [nodes_of regex_coord_pattern flat_map piece_nodes app].
  change (one (one_of ["N"; "S"]%char)) with (Rep (one_of ["N"; "S"]%char) 1 (Some 1)).
  apply (greedy_exact (one_of ["N"; "S"]%char) 1 _ [h1]);
    [repeat constructor; apply NS_class; assumption | reflexivity |].
  unfold star at 1.
  apply greedy_star; [assumption | |].
  { apply stops_app with (d := is_digit); [exact digit_not_non_digit | assumption | assumption]. }
  apply decimal_match; try assumption.
  { apply stops_app_nil with (d := is_space); [exact space_not_digit | assumption |].
    apply stops_cons. apply EW_not_digit. assumption. }
  unfold star at 1.
  apply greedy_star; [assumption | apply stops_cons; apply EW_not_space; assumption |].
  change (one (one_of ["E"; "W"]%char)) with (Rep (one_of ["E"; "W"]%char) 1 (Some 1)).
  apply (greedy_exact (one_of ["E"; "W"]%char) 1 _ [h2]);
    [repeat constructor; apply EW_class; assumption | reflexivity |].
  unfold star at 1.
  apply greedy_star; [assumption | |].
  { apply stops_app with (d := is_digit); [exact digit_not_non_digit | assumption | assumption]. }
  apply decimal_match; try assumption. reflexivity.
Qed.

(** C4: [text_to_coordinates] never raises; without a match it returns the
    sentinel (0.0, 0.0), in particular when the input has no latitude
    letter or no longitude letter; on a match the latitude is the decimal
    number read after N or S, multiplied by -1 for S, and the longitude the
    one read after E or W, multiplied by -1 for W; a pair written
    [N|S] degrees [.] fraction [E|W] degrees [.] fraction, with white space
    allowed around each point, is matched field by field; and
    ["N40.426786 W97 .665820"] gives (40.426786, -97.665820). *)
Theorem text_to_coordinates_spec :
  (forall s, exists c, text_to_coordinates s = Ok c) /\
  (forall s, re_search regex_coord_pattern s = None ->
     text_to_coordinates s = Ok {| latitude := 0; longitude := 0 |}) /\
  (forall s gs, re_search regex_coord_pattern s = Some gs ->
     exists ns lat_w d1 lat_f ew lon_w d2 lon_f lat lon,
       gs = [[ns]; lat_w; d1; lat_f; [ew]; lon_w; d2; lon_f] /\
       (ns = "N"%char \/ ns = "S"%char) /\ (ew = "E"%char \/ ew = "W"%char) /\
       py_float (lat_w ++ "."%char :: lat_f) = Ok lat /\
       py_float (lon_w ++ "."%char :: lon_f) = Ok lon /\
       text_to_coordinates s =
       Ok {| latitude := PrimFloat.mul lat (if Ascii.eqb ns "S" then (-1)%float else 1%float);
             longitude := PrimFloat.mul lon (if Ascii.eqb ew "W" then (-1)%float else 1%float) |}) /\
  (forall pre h1 j1 w1 a1 b1 f1 c h2 j2 w2 a2 b2 f2 post,
     none_in (one_of ["N"; "S"]%char) pre ->
     (h1 = "N"%char \/ h1 = "S"%char) -> (h2 = "E"%char \/ h2 = "W"%char) ->
     all_in non_digit j1 -> all_in non_digit j2 ->
     all_in is_digit w1 -> w1 <> [] -> all_in is_digit f1 -> f1 <> [] ->
     all_in is_digit w2 -> w2 <> [] -> all_in is_digit f2 -> f2 <> [] ->
     all_in is_space a1 -> all_in is_space b1 -> all_in is_space c ->
     all_in is_space a2 -> all_in is_space b2 -> stops is_digit post ->
     exists lat lon,
       py_float (w1 ++ "."%char :: f1) = Ok lat /\
       py_float (w2 ++ "."%char :: f2) = Ok lon /\
       text_to_coordinates
         (str (pre ++ [h1] ++ j1 ++ w1 ++ a1 ++ ["."%char] ++ b1 ++ f1 ++ c ++
               [h2] ++ j2 ++ w2 ++ a2 ++ ["."%char] ++ b2 ++ f2 ++ post)) =
       Ok {| latitude := PrimFloat.mul lat (if Ascii.eqb h1 "S" then (-1)%float else 1%float);
             longitude := PrimFloat.mul lon (if Ascii.eqb h2 "W" then (-1)%float else 1%float) |}) /\
  (forall s,
     none_in (one_of ["N"; "S"]%char) (chars s) \/ none_in (one_of ["E"; "W"]%char) (chars s) ->
     text_to_coordinates s = Ok {| latitude := 0; longitude := 0 |}) /\
  text_to_coordinates "N40.426786 W97 .665820" =
  Ok {| latitude := 40.426786; longitude := -97.665820 |}.
Proof.
  assert (Hmatch : forall s gs, re_search regex_coord_pattern s = Some gs ->
     exists ns lat_w d1 lat_f ew lon_w d2 lon_f lat lon,
       gs = [[ns]; lat_w; d1; lat_f; [ew]; lon_w; d2; lon_f] /\
       (ns = "N"%char \/ ns = "S"%char) /\ (ew = "E"%char \/ ew = "W"%char) /\
       py_float (lat_w ++ "."%char :: lat_f) = Ok lat /\
       py_float (lon_w ++ "."%char :: lon_f) = Ok lon /\
       text_to_coordinates s =
       Ok {| latitude := PrimFloat.mul lat (if Ascii.eqb ns "S" then (-1)%float else 1%float);
             longitude := PrimFloat.mul lon (if Ascii.eqb ew "W" then (-1)%float else 1%float) |}).
  { intros s gs H.
    destruct (coord_groups s gs H)
      as (ns & lat_w & d1 & lat_f & ew & lon_w & d2 & lon_f & Hgs & Hns & Hew &
          [Hw1 Hw1n] & [Hf1 Hf1n] & [Hw2 Hw2n] & [Hf2 Hf2n] & _ & _).
    exists ns, lat_w, d1, lat_f, ew, lon_w, d2, lon_f.
    eexists. eexists.
    split; [exact Hgs |]. split; [exact Hns |]. split; [exact Hew |].
    split; [apply py_float_digits; assumption |].
    split; [apply py_float_digits; assumption |].
    unfold text_to_coordinates. rewrite H, Hgs.
    rewrite (py_float_digits _ _ Hw1 Hw1n Hf1 Hf1n), (py_float_digits _ _ Hw2 Hw2n Hf2 Hf2n).
    cbn [bind].
    destruct Hns as [-> | ->]; destruct Hew as [-> | ->]; reflexivity. }
  split; [| split; [| split; [| split; [| split]]]].
  - intros s. destruct (re_search regex_coord_pattern s) as [gs |] eqn:E.
    + destruct (Hmatch s gs E) as (? & ? & ? & ? & ? & ? & ? & ? & ? & ? & _ & _ & _ & _ & _ & Hr).
      eexists. exact Hr.
    + unfold text_to_coordinates. rewrite E. eexists. reflexivity.
  - intros s H. unfold text_to_coordinates. rewrite H. reflexivity.
  - exact Hmatch.
  - intros pre h1 j1 w1 a1 b1 f1 c h2 j2 w2 a2 b2 f2 post
      Hpre Hh1 Hh2 Hj1 Hj2 Hw1 Hw1n Hf1 Hf1n Hw2 Hw2n Hf2 Hf2n Ha1 Hb1 Hc Ha2 Hb2 Hpost.
    eexists. eexists.
    split; [apply py_float_digits; assumption |].
    split; [apply py_float_digits; assumption |].
    unfold text_to_coordinates. rewrite re_search_str.
    cbn [nodes_of regex_coord_pattern flat_map piece_nodes app].
    change (one (one_of ["N"; "S"]%char)) with (Rep (one_of ["N"; "S"]%char) 1 (Some 1)).
    rewrite search_skip; [| lia | assumption].
    erewrite search_here;
      [| exact (coord_match h1 j1 w1 a1 b1 f1 c h2 j2 w2 a2 b2 f2 post
                  Hh1 Hh2 Hj1 Hj2 Hw1 Hw1n Hf1 Hf1n Hw2 Hw2n Hf2 Hf2n Ha1 Hb1 Hc Ha2 Hb2 Hpost)].
    cbn [option_map groups_of regex_coord_pattern length firstn skipn concat app].
    repeat rewrite app_nil_r.
    rewrite (py_float_digits _ _ Hw1 Hw1n Hf1 Hf1n), (py_float_digits _ _ Hw2 Hw2n Hf2 Hf2n).
    cbn [bind].
    destruct Hh1 as [-> | ->]; destruct Hh2 as [-> | ->]; reflexivity.
  - intros s Hnone. destruct (re_search regex_coord_pattern s) as [gs |] eqn:E.
    + exfalso.
      destruct (coord_groups s gs E)
        as (ns & ? & ? & ? & ew & ? & ? & ? & _ & Hns & Hew & _ & _ & _ & _ & Hin1 & Hin2).
      unfold none_in, chars in Hnone. rewrite !Forall_forall in Hnone.
      destruct Hnone as [Hn | Hn].
      * specialize (Hn _ Hin1). destruct Hns as [-> | ->]; discriminate Hn.
      * specialize (Hn _ Hin2). destruct Hew as [-> | ->]; discriminate Hn.
    + unfold text_to_coordinates. rewrite E. reflexivity.
  - vm_compute. reflexivity.
Qed.

Lemma text_to_coordinates_spec_witness :
  text_to_coordinates "40.426786 97 .665820" = Ok {| latitude := 0; longitude := 0 |}.
Proof.
  apply (proj1 (proj2 (proj2 (proj2 (proj2 text_to_coordinates_spec))))
           "40.426786 97 .665820"%string).
  left. repeat constructor.
Defined.

Lemma text_to_speed_spec_witness :
  text_to_speed "at 65 MPH NE" = Ok {| speed := 65; speed_units := "MPH NE" |}.
Proof.
  apply (proj1 text_to_speed_spec (chars "at ") (chars "65") (chars " ") (chars "MPH")
           (chars " NE"));
    try (simpl; lia); repeat constructor.
Defined.

(* ================================================================== *)
(** * Data frames *)

Lemma column_map : forall (g : Series -> Series) df name,
  column (map (fun c => (fst c, g (snd c))) df) name =
  match column df name with
  | Ok s => Ok (g s)
  | Raise e => Raise e
  end.
Proof.
  induction df as [| [n s] df IH]; intros name; simpl.
  - reflexivity.
  - destruct (String.eqb n name); [reflexivity | apply IH].
Qed.

Lemma column_app_found : forall df1 df2 name s,
  column df1 name = Ok s -> column (df1 ++ df2) name = Ok s.
Proof.
  induction df1 as [| [n s'] df1 IH]; intros df2 name s H; simpl in *.
  - discriminate.
  - destruct (String.eqb n name); [assumption | apply IH; assumption].
Qed.

Lemma int_column_Ok : forall df name xs,
  int_column df name = Ok xs -> column df name = Ok (SInt xs).
Proof.
  intros df name xs H. unfold int_column in H. bind_inv H.
  destruct x; inversion H; subst. assumption.
Qed.

Lemma positions_from_In : forall k l j, positions_from k l j <> [] <-> In k l.
Proof.
  induction l as [| x l IH]; intros j; simpl.
  - split; [congruence | contradiction].
  - destruct (Z.eqb_spec x k) as [-> | Hne].
    + split; [intros _; left; reflexivity | intros _; discriminate].
    + rewrite IH. split; [intros H; right; assumption | intros [H | H]; [congruence | assumption]].
Qed.

Lemma join_pairs_left : forall rk lk pre,
  map (fun i => nth i (pre ++ lk) 0%Z) (map fst (join_pairs lk rk (length pre))) =
  joined_keys lk rk.
Proof.
  induction lk as [| k lk IH]; intros pre; simpl.
  - reflexivity.
  - rewrite !map_app. f_equal.
    + rewrite !map_map. apply map_ext. intros j. simpl.
      rewrite app_nth2, Nat.sub_diag; [reflexivity | lia].
    + specialize (IH (pre ++ [k])). rewrite <- app_assoc in IH. simpl in IH.
      rewrite length_app in IH. simpl in IH. rewrite Nat.add_1_r in IH. exact IH.
Qed.

Lemma joined_keys_In : forall lk rk k,
  In k (joined_keys lk rk) <-> In k lk /\ In k rk.
Proof.
  intros lk rk k. unfold joined_keys. rewrite in_flat_map. split.
  - intros [x [Hx Hin]]. apply in_map_iff in Hin. destruct Hin as [j [Hj Hin]]. subst x.
    split; [assumption |]. apply (positions_from_In k rk 0). intros E. rewrite E in Hin. exact Hin.
  - intros [Hl Hr]. exists k. split; [assumption |].
    apply (positions_from_In k rk 0) in Hr.
    destruct (positions_from k rk 0) as [| j js]; [congruence |]. left. reflexivity.
Qed.

Lemma joined_keys_perm : forall lk lk' rk,
  Permutation lk lk' -> Permutation (joined_keys lk rk) (joined_keys lk' rk).
Proof. intros lk lk' rk H. unfold joined_keys. apply Permutation_flat_map. exact H. Qed.

Lemma pl_DataFrame_Ok : forall cols df, pl_DataFrame cols = Ok df -> df = cols.
Proof.
  intros cols df H. unfold pl_DataFrame in H.
  destruct (forallb _ cols); [inversion H; reflexivity | discriminate].
Qed.

Lemma length_keys_values : forall d : AttributeStream, length (keys d) = length (values d).
Proof. intros d. unfold keys, values. rewrite !length_map. reflexivity. Qed.

Lemma inferred_dtype_keys : forall d : AttributeStream,
  d <> [] -> inferred_dtype (SInt (keys d)) = Int64.
Proof. intros d H. destruct d; [congruence | reflexivity]. Qed.

Section JoinFacts.

Variable join_order : list (nat * nat) -> list (nat * nat).
Hypothesis join_order_perm : forall l, Permutation (join_order l) l.

(** a join that returns has passed the key check, and its key column is
    read off the left frame *)
Lemma join_Ok_column : forall left right on a b df,
  join join_order left right on a b = Ok df ->
  dtype_eqb a b = true /\
  exists lk rk, int_column left on = Ok lk /\ int_column right on = Ok rk /\
    int_column df on =
    Ok (map (fun i => nth i lk 0%Z) (map fst (join_order (join_pairs lk rk 0)))).
Proof.
  intros left right on a b df H. unfold join in H.
  bind_split H as lk Hl. bind_split H as rk Hr.
  destruct (dtype_eqb a b); [| discriminate]. split; [reflexivity |].
  exists lk, rk. split; [exact Hl |]. split; [exact Hr |].
  inversion H; subst df. unfold int_column.
  erewrite column_app_found.
  2:{ rewrite (column_map (fun s => take s (map fst (join_order (join_pairs lk rk 0))))).
      rewrite (int_column_Ok _ _ _ Hl). reflexivity. }
  reflexivity.
Qed.

(** the key column of a join: the keys of the matching pairs, in the order
    polars gives them *)
Lemma join_key_column : forall left right on lk rk a b,
  int_column left on = Ok lk -> int_column right on = Ok rk ->
  dtype_eqb a b = true ->
  exists df ks, join join_order left right on a b = Ok df /\
                int_column df on = Ok ks /\ Permutation ks (joined_keys lk rk).
Proof.
  intros left right on lk rk a b Hl Hr Hab. unfold join. rewrite Hl, Hr. cbn [bind].
  rewrite Hab.
  eexists. eexists. split; [reflexivity |]. split.
  - unfold int_column.
    erewrite column_app_found.
    2:{ rewrite (column_map (fun s => take s (map fst (join_order (join_pairs lk rk 0))))).
        rewrite (int_column_Ok _ _ _ Hl). reflexivity. }
    cbn [bind take]. reflexivity.
  - rewrite <- (join_pairs_left rk lk []). cbn [app length].
    apply Permutation_map. apply Permutation_map. apply join_order_perm.
Qed.

Lemma join_Ok : forall left right on a b df,
  join join_order left right on a b = Ok df ->
  dtype_eqb a b = true /\
  exists lk rk ks, int_column left on = Ok lk /\ int_column right on = Ok rk /\
                   int_column df on = Ok ks /\ Permutation ks (joined_keys lk rk).
Proof.
  intros left right on a b df H.
  destruct (int_column left on) as [lk | e] eqn:El;
    [| unfold join in H; rewrite El in H; discriminate].
  destruct (int_column right on) as [rk | e] eqn:Er;
    [| unfold join in H; rewrite El, Er in H; discriminate].
  destruct (dtype_eqb a b) eqn:Eab;
    [| unfold join in H; rewrite El, Er in H; cbn [bind] in H; rewrite Eab in H;
       discriminate].
  split; [reflexivity |]. exists lk, rk.
  destruct (join_key_column _ _ _ _ _ _ _ El Er Eab) as (df' & ks & Hj & Hk & Hp).
  rewrite Hj in H. inversion H; subst. exists ks. repeat split; assumption.
Qed.

(* ================================================================== *)
(** * Record assembler *)

Lemma dict_to_dataframe_int_column : forall t g s df,
  dict_to_dataframe join_order t g s = Ok df ->
  exists ks, int_column df "frame_index" = Ok ks.
Proof.
  intros t g s df H. unfold dict_to_dataframe in H.
  do 9 (bind_inv H). cbv zeta in H.
  destruct (join_Ok_column _ _ _ _ _ _ H) as (_ & lk & rk & _ & _ & Hk).
  eexists. exact Hk.
Qed.

(** what [dict_to_dataframe] has done when it returns: the two key checks
    of the joins have passed, and the key column is made of the keys of the
    time stream, once for each pair of rows of the other two streams that
    carry them *)
Lemma dict_to_dataframe_keys : forall t g s df,
  dict_to_dataframe join_order t g s = Ok df ->
  exists ks, int_column df "frame_index" = Ok ks /\
             Permutation ks (joined_keys (joined_keys (keys t) (keys g)) (keys s)).
Proof.
  intros t g s df H. unfold dict_to_dataframe in H.
  bind_split H as ts Hts. bind_split H as tdf Htdf. apply pl_DataFrame_Ok in Htdf. subst.
  bind_split H as la Hla. bind_split H as lo Hlo. bind_split H as gdf Hgdf.
  apply pl_DataFrame_Ok in Hgdf. subst.
  bind_split H as sp Hsp. bind_split H as un Hun. bind_split H as sdf Hsdf.
  apply pl_DataFrame_Ok in Hsdf. subst.
  cbv zeta in H. bind_split H as j1 Hj1.
  destruct (join_Ok _ _ _ _ _ _ Hj1) as (_ & lk & rk & ks1 & Hl & Hr & Hk & Hp).
  inversion Hl; subst lk. inversion Hr; subst rk.
  destruct (join_Ok _ _ _ _ _ _ H) as (_ & lk' & rk' & ks2 & Hl' & Hr' & Hk' & Hp').
  rewrite Hk in Hl'. inversion Hl'; subst lk'. inversion Hr'; subst rk'.
  exists ks2. split; [exact Hk' |].
  eapply Permutation_trans; [exact Hp' |]. apply joined_keys_perm. exact Hp.
Qed.

(** C1: in every table that [dict_to_dataframe] returns, whatever order
    the joins give the rows, the frame_index column holds [k] exactly when
    [k] is a key of the time stream, of the gps stream and of the speed
    stream; and it returns a table for three streams that are not empty,
    hold entries of their kind and only 64-bit ints. *)
Theorem dict_to_dataframe_inner_join : forall time_dict gps_dict speed_dict,
  (time_dict <> [] -> gps_dict <> [] -> speed_dict <> [] ->
   Forall is_time (values time_dict) -> Forall is_gps (values gps_dict) ->
   Forall is_speed (values speed_dict) ->
   Forall int64 (keys time_dict) -> Forall int64 (keys gps_dict) ->
   Forall int64 (keys speed_dict) -> Forall int64_speed (values speed_dict) ->
   exists df, dict_to_dataframe join_order time_dict gps_dict speed_dict = Ok df) /\
  (forall df, dict_to_dataframe join_order time_dict gps_dict speed_dict = Ok df ->
   exists ks, column df "frame_index" = Ok (SInt ks) /\
     forall k, In k ks <->
       In k (keys time_dict) /\ In k (keys gps_dict) /\ In k (keys speed_dict)).
Proof.
  intros t g s. split.
  - intros Nt Ng Ns Ht Hg Hs _ _ _ _.
    assert (T : exists r, mapM entry_time (values t) = Ok r).
    { apply mapM_total. eapply Forall_impl; [| exact Ht].
      intros e [x ->]. eexists; reflexivity. }
    assert (G1 : exists r, mapM (fun e => c <- entry_gps e ;; Ok (latitude c)) (values g) = Ok r).
    { apply mapM_total. eapply Forall_impl; [| exact Hg].
      intros e [x ->]. eexists; reflexivity. }
    assert (G2 : exists r, mapM (fun e => c <- entry_gps e ;; Ok (longitude c)) (values g) = Ok r).
    { apply mapM_total. eapply Forall_impl; [| exact Hg].
      intros e [x ->]. eexists; reflexivity. }
    assert (S1 : exists r, mapM (fun e => c <- entry_speed e ;; Ok (speed c)) (values s) = Ok r).
    { apply mapM_total. eapply Forall_impl; [| exact Hs].
      intros e [x ->]. eexists; reflexivity. }
    assert (S2 : exists r, mapM (fun e => c <- entry_speed e ;; Ok (speed_units c)) (values s) = Ok r).
    { apply mapM_total. eapply Forall_impl; [| exact Hs].
      intros e [x ->]. eexists; reflexivity. }
    destruct T as [ts T], G1 as [la G1], G2 as [lo G2], S1 as [sp S1], S2 as [un S2].
    unfold dict_to_dataframe. rewrite T. cbn [bind].
    unfold pl_DataFrame. cbn [forallb snd series_len height].
    rewrite (mapM_length _ _ _ _ _ T), <- length_keys_values, Nat.eqb_refl. cbn [andb bind].
    rewrite G1, G2. cbn [bind].
    rewrite (mapM_length _ _ _ _ _ G1), (mapM_length _ _ _ _ _ G2), <- length_keys_values, Nat.eqb_refl.
    cbn [andb bind].
    rewrite S1, S2. cbn [bind].
    rewrite (mapM_length _ _ _ _ _ S1), (mapM_length _ _ _ _ _ S2), <- length_keys_values, Nat.eqb_refl.
    cbn [andb bind]. cbv zeta.
    rewrite (inferred_dtype_keys t Nt), (inferred_dtype_keys g Ng), (inferred_dtype_keys s Ns).
    edestruct join_key_column as (j1 & ks1 & Hj1 & Hk1 & _);
      [| | | rewrite Hj1; cbn [bind];
             edestruct join_key_column as (j2 & ks2 & Hj2 & _);
               [exact Hk1 | | | rewrite Hj2; eexists; reflexivity]];
      reflexivity.
  - intros df H. destruct (dict_to_dataframe_keys _ _ _ _ H) as (ks & Hk & Hp).
    apply int_column_Ok in Hk. exists ks. split; [exact Hk |].
    intros k. split.
    + intros Hin. apply (Permutation_in _ Hp) in Hin.
      rewrite !joined_keys_In in Hin. tauto.
    + intros Hin. apply (Permutation_in _ (Permutation_sym Hp)).
      rewrite !joined_keys_In. tauto.
Qed.

End JoinFacts.

Lemma dict_to_dataframe_inner_join_witness :
  (exists df, dict_to_dataframe ref_join_order sample_time sample_gps sample_speed = Ok df) /\
  exists ks, column sample_joined "frame_index" = Ok (SInt ks) /\
    forall k, In k ks <->
      In k (keys sample_time) /\ In k (keys sample_gps) /\ In k (keys sample_speed).
Proof.
  pose proof (dict_to_dataframe_inner_join ref_join_order (fun l => Permutation_refl l)
                sample_time sample_gps sample_speed) as [H1 H2].
  split.
  - apply H1; try discriminate;
      repeat constructor; try (eexists; reflexivity); unfold int64; simpl; lia.
  - apply (H2 sample_joined). vm_compute. reflexivity.
Defined.

(** only frame 6 is in all three streams *)
Example sample_joined_rows :
  dict_to_dataframe ref_join_order sample_time sample_gps sample_speed = Ok sample_joined /\
  column sample_joined "frame_index" = Ok (SInt [6%Z]) /\
  column sample_joined "speed" = Ok (SInt [74%Z]).
Proof. repeat split; vm_compute; reflexivity. Qed.

(* ================================================================== *)
(** * Attribute stream builder *)

Lemma suffix_groups : forall f gs,
  re_search regex_suffix_pattern f = Some gs ->
  exists g, gs = [g] /\ all_in is_digit g /\ g <> [] /\
            forall a, In a g -> In a (chars f).
Proof.
  intros f gs H. unfold re_search in H.
  destruct (search (nodes_of regex_suffix_pattern) (list_ascii_of_string f)) as [segs |] eqn:E;
    simpl in H; [| discriminate].
  inversion H; subst gs; clear H.
  pose proof (search_sound _ _ _ E) as [HF _]. cbn in HF.
  repeat match goal with
         | HF : Forall2 seg_ok (_ :: _) _ |- _ => inversion HF; subst; clear HF
         | HF : Forall2 seg_ok [] _ |- _ => inversion HF; subst; clear HF
         end.
  cbn [regex_suffix_pattern groups_of length firstn skipn concat app].
  rewrite app_nil_r.
  match goal with
  | H : seg_ok (plus is_digit) ?g |- _ =>
      exists g; split; [reflexivity |]; split; [exact (seg_ok_all _ _ _ _ H) |];
      split; [exact (seg_ok_nonempty _ _ _ _ H (le_n 1)) |];
      intros a Ha; apply (search_consumed _ _ _ g a E); [simpl; auto | exact Ha]
  end.
Qed.

Lemma frame_number_cases : forall f,
  (exists n, frame_number f = Ok n /\ Exists (fun a => is_digit a = true) (chars f)) \/
  (frame_number f = Raise AttributeError).
Proof.
  intros f. unfold frame_number.
  destruct (re_search regex_suffix_pattern f) as [gs |] eqn:E; [left | right; reflexivity].
  destruct (suffix_groups f gs E) as (g & -> & Hall & Hne & Hin).
  cbn [nth]. rewrite (py_int_digits g Hall Hne). eexists. split; [reflexivity |].
  destruct g as [| a g]; [congruence |].
  apply Exists_exists. exists a. split; [apply Hin; left; reflexivity |].
  inversion Hall; subst. assumption.
Qed.

Lemma frame_number_no_digit : forall f,
  none_in is_digit (chars f) -> frame_number f = Raise AttributeError.
Proof.
  intros f Hnone. destruct (frame_number_cases f) as [(n & _ & Hex) | H]; [| exact H].
  exfalso. apply Exists_exists in Hex. destruct Hex as (a & Hin & Hd).
  unfold none_in in Hnone. rewrite Forall_forall in Hnone.
  rewrite (Hnone a Hin) in Hd. discriminate.
Qed.

Lemma frame_number_digit : forall f n,
  frame_number f = Ok n -> Exists (fun a => is_digit a = true) (chars f).
Proof.
  intros f n H. destruct (frame_number_cases f) as [(m & _ & Hex) | H']; [exact Hex |].
  rewrite H in H'. discriminate.
Qed.

(** the sort key exists as soon as the name holds a digit *)
Lemma frame_number_total : forall f,
  Exists (fun a => is_digit a = true) (chars f) -> exists n, frame_number f = Ok n.
Proof.
  intros f Hex.
  assert (Hm : exists segs, search (nodes_of regex_suffix_pattern) (chars f) = Some segs).
  { set (s := chars f) in *.
    pose proof (take_drop_while non_digit s) as Hs.
    pose proof (drop_while_stops non_digit s) as Hstop.
    destruct (drop_while non_digit s) as [| d rest] eqn:Ed.
    - exfalso. rewrite app_nil_r in Hs.
      apply Exists_exists in Hex. destruct Hex as (a & Hin & Hd).
      pose proof (take_while_all non_digit s) as Hall. rewrite Hs in Hall.
      unfold all_in in Hall. rewrite Forall_forall in Hall.
      pose proof (Hall a Hin) as Hn. unfold non_digit in Hn. rewrite Hd in Hn. discriminate.
    - simpl in Hstop.
      assert (Hd : is_digit d = true).
      { unfold non_digit in Hstop. destruct (is_digit d); [reflexivity | discriminate]. }
      eexists. apply search_here. rewrite <- Hs.
      cbn [nodes_of regex_suffix_pattern flat_map piece_nodes app]. unfold star, plus.
      apply greedy_star; [apply take_while_all | simpl; unfold non_digit; rewrite Hd; reflexivity |].
      rewrite <- (take_drop_while is_digit (d :: rest)).
      apply greedy_plus; [apply take_while_all | simpl; rewrite Hd; simpl; lia
                          | apply drop_while_stops |].
      rewrite <- (take_drop_while non_digit (drop_while is_digit (d :: rest))).
      apply greedy_star; [apply take_while_all | apply drop_while_stops | reflexivity]. }
  destruct Hm as [segs Hm].
  destruct (frame_number_cases f) as [(n & Hn & _) | H]; [exists n; exact Hn |].
  exfalso. unfold frame_number in H.
  assert (Hr : re_search regex_suffix_pattern f = Some (groups_of regex_suffix_pattern segs)).
  { unfold re_search. unfold chars in Hm. rewrite Hm. reflexivity. }
  rewrite Hr in H.
  destruct (suffix_groups f _ Hr) as (g & Hg & Hall & Hne & _).
  rewrite Hg in H. cbn [nth] in H. rewrite (py_int_digits g Hall Hne) in H. discriminate.
Qed.

Lemma mapM_frame_number_raise : forall l,
  (exists f, In f l /\ none_in is_digit (chars f)) ->
  mapM frame_number l = Raise AttributeError.
Proof.
  induction l as [| x l IH]; intros (f & Hin & Hnone).
  - contradiction.
  - simpl. destruct (frame_number_cases x) as [(n & Hn & Hex) | Hr].
    + rewrite Hn. cbn [bind]. destruct Hin as [-> | Hin].
      * rewrite (frame_number_no_digit f Hnone) in Hn. discriminate.
      * rewrite IH; [reflexivity | exists f; split; assumption].
    + rewrite Hr. reflexivity.
Qed.

Lemma filter_nonempty : forall (A : Type) (p : A -> bool) l x,
  In x l -> p x = true -> (0 <? length (filter p l)) = true.
Proof.
  intros A p l x Hin Hp.
  assert (Hf : In x (filter p l)) by (apply filter_In; split; assumption).
  destruct (filter p l); [contradiction | reflexivity].
Qed.

(** C10: in a directory that exists and holds a recognized image file, an
    image file whose name has no decimal digit makes
    [image_directory_to_dict] raise the AttributeError of [None.group(1)];
    so the builder returns a stream only if every image file name holds a
    digit. *)
Theorem image_directory_to_dict_needs_digits : forall fs input_dir files,
  path_exists fs (rstrip input_dir) = true ->
  listdir fs (rstrip input_dir) = Ok files ->
  (exists f, In f files /\ is_image f = true) ->
  ((exists f, In f files /\ is_image f = true /\ none_in is_digit (chars f)) ->
   image_directory_to_dict fs input_dir = Raise AttributeError) /\
  (forall d, image_directory_to_dict fs input_dir = Ok d ->
   forall f, In f files -> is_image f = true ->
             Exists (fun a => is_digit a = true) (chars f)).
Proof.
  intros fs input_dir files Hex Hls (f0 & Hin0 & Him0).
  assert (Hne : (0 <? length (filter is_image files)) = true)
    by (eapply filter_nonempty; eassumption).
  split.
  - intros (f & Hin & Him & Hnone).
    unfold image_directory_to_dict. rewrite Hex, Hls. cbn [bind]. rewrite Hne.
    rewrite mapM_frame_number_raise; [reflexivity |].
    exists f. split; [apply filter_In; split; assumption | assumption].
  - intros d H f Hin Him.
    unfold image_directory_to_dict in H. rewrite Hex, Hls in H. cbn [bind] in H.
    rewrite Hne in H. bind_split H as ks Hks.
    apply mapM_Forall in Hks. rewrite Forall_forall in Hks.
    destruct (Hks f) as [n Hn]; [apply filter_In; split; assumption |].
    exact (frame_number_digit f n Hn).
Qed.

Lemma image_directory_to_dict_needs_digits_witness :
  image_directory_to_dict
    (one_directory "../frames/010243F/time"%string ["frame_0.jpg"; "frame.jpg"; "notes.txt"]%string
                   "08-04-2024 11:28:08"%string)
    "../frames/010243F/time/"%string = Raise AttributeError.
Proof.
  apply (image_directory_to_dict_needs_digits
           (one_directory "../frames/010243F/time"%string ["frame_0.jpg"; "frame.jpg"; "notes.txt"]%string
                          "08-04-2024 11:28:08"%string)
           "../frames/010243F/time/"%string ["frame_0.jpg"; "frame.jpg"; "notes.txt"]%string).
  - reflexivity.
  - reflexivity.
  - exists "frame_0.jpg"%string. split; [left; reflexivity | reflexivity].
  - exists "frame.jpg"%string. split; [right; left; reflexivity |].
    split; [reflexivity | repeat constructor].
Defined.

(** the directory of the comment at line 61 is read with the time parser *)
Example image_directory_to_dict_time :
  image_directory_to_dict
    (one_directory "../frames/010243F/time"%string ["frame_3.jpg"; "frame_0.jpg"]%string
                   "08-04-2024 11:  04 :13"%string)
    "../frames/010243F/time"%string =
  Ok [(0%Z, TimeEntry "08-04-2024 11:04:13"); (3%Z, TimeEntry "08-04-2024 11:04:13")]%string.
Proof. vm_compute. reflexivity. Qed.

(** a directory of another name records an error per frame *)
Example image_directory_to_dict_unrecognized :
  image_directory_to_dict
    (one_directory "../frames/010243F/audio"%string ["frame_3.jpg"; "frame_0.jpg"]%string "x"%string)
    "../frames/010243F/audio"%string =
  Ok [(0%Z, ErrorEntry); (3%Z, ErrorEntry)].
Proof. vm_compute. reflexivity. Qed.

(** C9: on the directory that the repository's test passes to
    [directory_to_dataframe], the time directory of [frames/010979F/], the
    directory pattern finds no [../frames/] and the builder raises the
    AttributeError of [None.group(3)]: no kind is derived from the final
    path segment and no entry is recorded. *)
Theorem image_directory_to_dict_relative_dir : forall fs files,
  path_exists fs "frames/010979F/time"%string = true ->
  listdir fs "frames/010979F/time"%string = Ok files ->
  (exists f, In f files /\ is_image f = true) ->
  (forall f, In f files -> is_image f = true ->
             Exists (fun a => is_digit a = true) (chars f)) ->
  image_directory_to_dict fs "frames/010979F/time"%string = Raise AttributeError.
Proof.
  intros fs files Hex Hls (f0 & Hin0 & Him0) Hdig.
  assert (Hne : (0 <? length (filter is_image files)) = true)
    by (eapply filter_nonempty; eassumption).
  unfold image_directory_to_dict.
  change (rstrip "frames/010979F/time"%string) with "frames/010979F/time"%string.
  rewrite Hex, Hls. cbn [bind]. rewrite Hne.
  destruct (mapM_total _ _ frame_number (filter is_image files)) as [ks Hks].
  { apply Forall_forall. intros f Hf. apply filter_In in Hf. destruct Hf as [Hin Him].
    apply frame_number_total. apply Hdig; assumption. }
  rewrite Hks. cbn [bind].
  change (re_search regex_directory_pattern "frames/010979F/time"%string) with (@None (list text)).
  reflexivity.
Qed.

Lemma image_directory_to_dict_relative_dir_witness :
  image_directory_to_dict
    (one_directory "frames/010979F/time"%string ["frame_0.jpg"; "frame_3.jpg"; "frame_6.jpg"]%string
                   "08-04-2024 11:28:08"%string)
    "frames/010979F/time"%string = Raise AttributeError.
Proof.
  apply (image_directory_to_dict_relative_dir
           (one_directory "frames/010979F/time"%string ["frame_0.jpg"; "frame_3.jpg"; "frame_6.jpg"]%string
                          "08-04-2024 11:28:08"%string)
           ["frame_0.jpg"; "frame_3.jpg"; "frame_6.jpg"]%string).
  - reflexivity.
  - reflexivity.
  - exists "frame_0.jpg"%string. split; [left; reflexivity | reflexivity].
  - intros f [<- | [<- | [<- | []]]] _; apply Exists_exists;
      exists "0"%char + exists "3"%char + exists "6"%char;
      (split; [simpl; tauto | reflexivity]).
Defined.

(* ================================================================== *)
(** * Columns, masks and row removal *)

Lemma has_column_columns : forall df name,
  has_column df name = existsb (String.eqb name) (columns df).
Proof. reflexivity. Qed.

Lemma column_has : forall df name s, column df name = Ok s -> has_column df name = true.
Proof.
  induction df as [| [n s'] df IH]; intros name s H; simpl in H; [discriminate |].
  unfold has_column. simpl. rewrite (String.eqb_sym name n).
  destruct (String.eqb n name); [reflexivity | apply (IH name s H)].
Qed.

Lemma column_missing : forall df name,
  ~ In name (columns df) -> column df name = Raise (ColumnNotFoundError name).
Proof.
  induction df as [| [n s] df IH]; intros name H; simpl; [reflexivity |].
  simpl in H. destruct (String.eqb_spec n name) as [-> | Hne].
  - exfalso. apply H. left. reflexivity.
  - apply IH. intros Hin. apply H. right. assumption.
Qed.

Lemma columns_replace : forall df name s, columns (replace_column df name s) = columns df.
Proof.
  induction df as [| [n s'] df IH]; intros name s; simpl; [reflexivity |].
  destruct (String.eqb n name); simpl; [reflexivity | f_equal; apply IH].
Qed.

Lemma with_column_columns : forall df name s df',
  with_column df name s = Ok df' -> columns df' = add_name name (columns df).
Proof.
  intros df name s df' H. unfold with_column in H.
  destruct (match df with [] => true | _ => (series_len s =? height df) end); [| discriminate].
  inversion H; subst. unfold add_name. rewrite <- has_column_columns.
  destruct (has_column df name).
  - apply columns_replace.
  - unfold columns. rewrite map_app. reflexivity.
Qed.

Lemma drop_columns : forall df name df',
  drop df name = Ok df' -> columns df' = drop_name name (columns df).
Proof.
  intros df name df' H. unfold drop in H.
  destruct (has_column df name); [| discriminate]. inversion H; subst. clear H.
  unfold drop_name, columns. induction df as [| [n s] df IH]; simpl; [reflexivity |].
  destruct (String.eqb n name); simpl; [apply IH | f_equal; apply IH].
Qed.

Lemma filter_rows_Ok : forall df m df',
  filter_rows df m = Ok df' ->
  df' = map (fun c => (fst c, mask_series m (snd c))) df /\ rect (length m) df.
Proof.
  intros df m df' H. unfold filter_rows in H.
  destruct (forallb (fun c => series_len (snd c) =? length m) df) eqn:E; [| discriminate].
  inversion H; subst. split; [reflexivity |].
  unfold rect. apply Forall_forall. intros c Hc.
  rewrite forallb_forall in E. apply Nat.eqb_eq. apply E. assumption.
Qed.

Lemma masked_columns : forall df df', masked df df' -> columns df' = columns df.
Proof.
  intros df df' [m H]. apply filter_rows_Ok in H. destruct H as [-> _].
  unfold columns. rewrite map_map. reflexivity.
Qed.

Lemma masked_column : forall df df' name,
  masked df df' ->
  exists m, column df' name = match column df name with
                              | Ok s => Ok (mask_series m s)
                              | Raise e => Raise e
                              end.
Proof.
  intros df df' name [m H]. apply filter_rows_Ok in H. destruct H as [-> _].
  exists m. apply (column_map (mask_series m)).
Qed.

Lemma mask_list_map : forall (A B : Type) (f : A -> B) m xs,
  mask_list m (map f xs) = map f (mask_list m xs).
Proof.
  induction m as [| b m IH]; intros xs; simpl; [reflexivity |].
  destruct xs as [| x xs]; simpl; [reflexivity |].
  destruct b; simpl; rewrite IH; reflexivity.
Qed.

Lemma mask_list_Forall : forall (A : Type) (P : A -> Prop) m xs,
  Forall P xs -> Forall P (mask_list m xs).
Proof.
  induction m as [| b m IH]; intros xs H; simpl; [constructor |].
  destruct xs as [| x xs]; [constructor |]. inversion H; subst.
  destruct b; [constructor; [assumption |] |]; apply IH; assumption.
Qed.

Lemma mask_list_test : forall (A : Type) (test : A -> bool) xs,
  Forall (fun x => test x = true) (mask_list (map test xs) xs).
Proof.
  induction xs as [| x xs IH]; simpl; [constructor |].
  destruct (test x) eqn:E; [constructor; assumption | assumption].
Qed.

Lemma mask_list_all : forall (A : Type) m (ys : list A),
  Forall (fun b => b = true) m -> length ys = length m -> mask_list m ys = ys.
Proof.
  induction m as [| b m IH]; intros ys H Hlen; destruct ys as [| y ys]; simpl in *;
    try reflexivity; try discriminate.
  inversion H; subst. f_equal. apply IH; [assumption | lia].
Qed.

Lemma as_floats_mask : forall m s xs,
  as_floats s = Ok xs -> as_floats (mask_series m s) = Ok (mask_list m xs).
Proof.
  intros m [zs | fs | ss] xs H; simpl in *; inversion H; subst.
  - rewrite mask_list_map. reflexivity.
  - reflexivity.
Qed.

Lemma as_floats_length : forall s xs, as_floats s = Ok xs -> length xs = series_len s.
Proof.
  intros [zs | fs | ss] xs H; simpl in *; inversion H; subst.
  - apply length_map.
  - reflexivity.
Qed.

Lemma masked_holds : forall P df df' name,
  masked df df' -> holds P df name -> holds P df' name.
Proof.
  intros P df df' name Hm (s & xs & Hc & Hf & HP).
  destruct (masked_column df df' name Hm) as [m Hcol]. rewrite Hc in Hcol.
  exists (mask_series m s), (mask_list m xs).
  split; [exact Hcol |]. split; [apply as_floats_mask; exact Hf |].
  apply mask_list_Forall. exact HP.
Qed.

Lemma holds_and : forall (P Q : float -> Prop) df name,
  holds P df name -> holds Q df name -> holds (fun x => P x /\ Q x) df name.
Proof.
  intros P Q df name (s & xs & Hc & Hf & HP) (s' & xs' & Hc' & Hf' & HQ).
  rewrite Hc in Hc'. inversion Hc'; subst s'. rewrite Hf in Hf'. inversion Hf'; subst xs'.
  exists s, xs. split; [assumption |]. split; [assumption |].
  rewrite Forall_forall in *. intros x Hx. split; [apply HP | apply HQ]; assumption.
Qed.

Lemma holds_impl : forall (P Q : float -> Prop) df name,
  (forall x, P x -> Q x) -> holds P df name -> holds Q df name.
Proof.
  intros P Q df name HPQ (s & xs & Hc & Hf & HP).
  exists s, xs. split; [assumption |]. split; [assumption |].
  eapply Forall_impl; [exact HPQ | exact HP].
Qed.

Lemma filter_by_masked : forall df name test df',
  filter_by df name test = Ok df' -> masked df df'.
Proof.
  intros df name test df' H. unfold filter_by in H.
  bind_split H as s Hs. bind_split H as xs Hxs. eexists. exact H.
Qed.

Lemma filter_by_holds : forall df name test df',
  filter_by df name test = Ok df' -> holds (fun x => test x = true) df' name.
Proof.
  intros df name test df' H. unfold filter_by in H.
  bind_split H as s Hs. bind_split H as xs Hxs.
  apply filter_rows_Ok in H. destruct H as [-> _].
  exists (mask_series (map test xs) s), (mask_list (map test xs) xs).
  split; [rewrite (column_map (mask_series (map test xs))), Hs; reflexivity |].
  split; [apply as_floats_mask; assumption | apply mask_list_test].
Qed.

Lemma band_filter_masked : forall df name m sd k df',
  band_filter df name m sd k = Ok df' -> masked df df'.
Proof.
  intros df name m sd k df' H. unfold band_filter in H.
  bind_split H as s Hs. bind_split H as xs Hxs. bind_split H as a Ha.
  bind_split H as k1 Hk1. bind_split H as w1 Hw1.
  bind_split H as k2 Hk2. bind_split H as w2 Hw2. eexists. exact H.
Qed.

Lemma column_replace_other : forall df n s name,
  String.eqb n name = false -> column (replace_column df n s) name = column df name.
Proof.
  induction df as [| [n' s'] df IH]; intros n s name Hne; simpl; [reflexivity |].
  destruct (String.eqb_spec n' n) as [-> | Hn]; simpl.
  - rewrite Hne. reflexivity.
  - destruct (String.eqb n' name); [reflexivity | apply IH; assumption].
Qed.

Lemma column_app_other : forall df n s name,
  String.eqb n name = false -> column (df ++ [(n, s)]) name = column df name.
Proof.
  induction df as [| [n' s'] df IH]; intros n s name Hne; simpl.
  - rewrite Hne. reflexivity.
  - destruct (String.eqb n' name); [reflexivity | apply IH; assumption].
Qed.

Lemma with_column_other : forall df n s df' name,
  with_column df n s = Ok df' -> String.eqb n name = false ->
  column df' name = column df name.
Proof.
  intros df n s df' name H Hne. unfold with_column in H.
  destruct (match df with [] => true | _ => (series_len s =? height df) end); [| discriminate].
  inversion H; subst. destruct (has_column df n).
  - apply column_replace_other; assumption.
  - apply column_app_other; assumption.
Qed.

Lemma with_column_holds : forall P df n s df' name,
  with_column df n s = Ok df' -> String.eqb n name = false ->
  holds P df name -> holds P df' name.
Proof.
  intros P df n s df' name H Hne (s0 & xs & Hc & Hf & HP).
  exists s0, xs. split; [| split; assumption].
  rewrite (with_column_other df n s df' name H Hne). exact Hc.
Qed.

(* ================================================================== *)
(** * The filter passes *)

Section CleanFacts.

Variable mode_order : list Z -> list Z.
Variables mean std : list float -> option float.

Lemma domain_pass_masked : forall df df',
  domain_pass df = Ok df' ->
  exists d1 d2, masked df d1 /\ masked d1 d2 /\ masked d2 df'.
Proof.
  intros df df' H. unfold domain_pass in H.
  bind_split H as d1 H1. bind_split H as d2 H2.
  exists d1, d2. repeat split; eapply filter_by_masked; eassumption.
Qed.

Lemma pl_ne_zero : forall x, pl_ne x 0 = true -> PrimFloat.eqb x 0 = false.
Proof.
  intros x H. unfold pl_ne, is_nan in H.
  rewrite !FloatAxioms.eqb_spec in *.
  change (Prim2SF 0) with (S754_zero false) in *.
  destruct (Prim2SF x) as [s | s | | s m e]; try destruct s;
    simpl in *; try reflexivity; discriminate.
Qed.

Lemma pl_le_const : forall x c, is_nan c = false -> pl_le x c = true -> PrimFloat.leb x c = true.
Proof.
  intros x c Hc H. unfold pl_le in H. rewrite Hc in H.
  destruct (is_nan x); [discriminate | exact H].
Qed.

Lemma domain_pass_holds : forall df df',
  domain_pass df = Ok df' ->
  holds latitude_ok df' "latitude" /\ holds longitude_ok df' "longitude".
Proof.
  intros df df' H. unfold domain_pass in H.
  bind_split H as d1 H1. bind_split H as d2 H2.
  pose proof (filter_by_holds _ _ _ _ H1) as L1.
  pose proof (filter_by_holds _ _ _ _ H2) as L2.
  pose proof (filter_by_holds _ _ _ _ H) as L3.
  apply (masked_holds _ d1 d2 _ (filter_by_masked _ _ _ _ H2)) in L1.
  pose proof (holds_and _ _ _ _ L1 L2) as L12.
  apply (masked_holds _ d2 df' _ (filter_by_masked _ _ _ _ H)) in L12.
  split.
  - eapply holds_impl; [| exact L12]. intros x [Hx1 Hx2]. split.
    + apply pl_ne_zero. exact Hx1.
    + apply pl_le_const; [reflexivity | exact Hx2].
  - eapply holds_impl; [| exact L3]. intros x Hx.
    apply pl_le_const; [reflexivity | exact Hx].
Qed.

Lemma magnitude_pass_masked : forall df df',
  magnitude_pass mean std df = Ok df' ->
  exists d1 d2, masked df d1 /\ masked d1 d2 /\ masked d2 df'.
Proof.
  intros df df' H. unfold magnitude_pass in H.
  do 6 (bind_inv H).
  bind_split H as d1 H1. bind_split H as d2 H2.
  exists d1, d2. repeat split; eapply band_filter_masked; eassumption.
Qed.

Lemma delta_pass_steps : forall df df',
  delta_pass mean std df = Ok df' ->
  exists lat_delta lon_delta d1 d2 d3,
    with_column df "lat_delta" lat_delta = Ok d1 /\
    with_column d1 "lon_delta" lon_delta = Ok d2 /\
    masked d2 d3 /\ masked d3 df'.
Proof.
  intros df df' H. unfold delta_pass in H.
  bind_split H as lat Hlat. bind_split H as lat_delta Hld. bind_split H as d1 H1.
  bind_split H as lon Hlon. bind_split H as lon_delta Hod. bind_split H as d2 H2.
  do 4 (bind_inv H).
  bind_split H as d3 H3.
  exists lat_delta, lon_delta, d1, d2, d3.
  split; [exact H1 |]. split; [exact H2 |].
  split; eapply band_filter_masked; eassumption.
Qed.

(** rows are only removed after the domain pass: what it established stays *)
Lemma outlier_filter_holds : forall df df',
  outlier_filter mean std df = Ok df' ->
  holds latitude_ok df' "latitude" /\ holds longitude_ok df' "longitude".
Proof.
  intros df df' H. unfold outlier_filter in H.
  bind_split H as d1 H1. bind_split H as d2 H2.
  destruct (domain_pass_holds _ _ H1) as [La Lo].
  destruct (magnitude_pass_masked _ _ H2) as (m1 & m2 & M1 & M2 & M3).
  destruct (delta_pass_steps _ _ H) as (ld & od & e1 & e2 & e3 & W1 & W2 & M4 & M5).
  assert (K : forall P name, String.eqb "lat_delta" name = false ->
                String.eqb "lon_delta" name = false ->
                holds P d1 name -> holds P df' name).
  { intros P name Hn1 Hn2 Hh.
    apply (masked_holds _ _ _ _ M1) in Hh. apply (masked_holds _ _ _ _ M2) in Hh.
    apply (masked_holds _ _ _ _ M3) in Hh.
    apply (with_column_holds _ _ _ _ _ _ W1 Hn1) in Hh.
    apply (with_column_holds _ _ _ _ _ _ W2 Hn2) in Hh.
    apply (masked_holds _ _ _ _ M4) in Hh. apply (masked_holds _ _ _ _ M5) in Hh.
    exact Hh. }
  split; apply K; try reflexivity; assumption.
Qed.

End CleanFacts.

Lemma mask_list_length : forall (A : Type) m (xs : list A),
  length xs = length m -> length (mask_list m xs) = length (filter (fun b => b) m).
Proof.
  induction m as [| b m IH]; intros xs H; destruct xs as [| x xs]; simpl in *;
    try reflexivity; try discriminate.
  destruct b; simpl; [f_equal |]; apply IH; lia.
Qed.

Lemma mask_series_length : forall m s,
  series_len s = length m -> series_len (mask_series m s) = length (filter (fun b => b) m).
Proof. intros m [xs | xs | xs] H; simpl in *; apply mask_list_length; exact H. Qed.

Lemma masked_rect : forall df df', masked df df' -> exists n, rect n df'.
Proof.
  intros df df' [m H]. apply filter_rows_Ok in H. destruct H as [-> Hr].
  exists (length (filter (fun b => b) m)). unfold rect in *.
  apply Forall_map. eapply Forall_impl; [| exact Hr].
  intros c Hc. simpl. apply mask_series_length. exact Hc.
Qed.

Lemma rect_column : forall n df name s,
  rect n df -> column df name = Ok s -> series_len s = n.
Proof.
  induction df as [| [n' s'] df IH]; intros name s Hr Hc; simpl in Hc; [discriminate |].
  inversion Hr as [| c l Hh Ht]; subst c l. destruct (String.eqb n' name).
  - inversion Hc; subst s. exact Hh.
  - eapply IH; eassumption.
Qed.

Lemma rect_height : forall n df name s,
  rect n df -> column df name = Ok s -> height df = n.
Proof.
  intros n [| [n' s'] df] name s Hr Hc; simpl in *; [discriminate |].
  inversion Hr as [| c l Hh Ht]; subst c l. exact Hh.
Qed.

Lemma add_name_In : forall x n cs, In x (add_name n cs) -> x = n \/ In x cs.
Proof.
  intros x n cs H. unfold add_name in H. destruct (existsb (String.eqb n) cs).
  - right. assumption.
  - apply in_app_or in H. destruct H as [H | [H | []]]; [right | left]; auto.
Qed.

Lemma drop_name_In : forall x n cs, In x (drop_name n cs) -> x <> n /\ In x cs.
Proof.
  intros x n cs H. unfold drop_name in H. apply filter_In in H. destruct H as [Hin Hne].
  split; [| assumption]. intros ->. rewrite String.eqb_refl in Hne. discriminate.
Qed.

Section CleanTheorems.

Variable mode_order : list Z -> list Z.
Variables mean std : list float -> option float.

Lemma reindex_columns : forall df df',
  reindex mode_order df = Ok df' ->
  columns df' =
  drop_name "frame_index" (drop_name "frame_delta"
    (add_name "new_index" (add_name "frame_delta" (columns df)))).
Proof.
  intros df df' H. unfold reindex in H.
  bind_split H as fi Hfi. bind_split H as fd Hfd. bind_split H as d1 H1.
  bind_split H as interval Hi. bind_split H as new_index Hn. bind_split H as d2 H2.
  bind_split H as d3 H3.
  rewrite (drop_columns _ _ _ H), (drop_columns _ _ _ H3).
  rewrite (with_column_columns _ _ _ _ H2), (with_column_columns _ _ _ _ H1).
  reflexivity.
Qed.

Lemma outlier_filter_columns : forall df df',
  outlier_filter mean std df = Ok df' ->
  columns df' = add_name "lon_delta" (add_name "lat_delta" (columns df)).
Proof.
  intros df df' H. unfold outlier_filter in H.
  bind_split H as d1 H1. bind_split H as d2 H2.
  destruct (domain_pass_masked _ _ H1) as (a1 & a2 & A1 & A2 & A3).
  destruct (magnitude_pass_masked _ _ _ _ H2) as (m1 & m2 & M1 & M2 & M3).
  destruct (delta_pass_steps _ _ _ _ H) as (ld & od & e1 & e2 & e3 & W1 & W2 & M4 & M5).
  rewrite (masked_columns _ _ M5), (masked_columns _ _ M4).
  rewrite (with_column_columns _ _ _ _ W2), (with_column_columns _ _ _ _ W1).
  rewrite (masked_columns _ _ M3), (masked_columns _ _ M2), (masked_columns _ _ M1).
  rewrite (masked_columns _ _ A3), (masked_columns _ _ A2), (masked_columns _ _ A1).
  reflexivity.
Qed.

Lemma clean_dataframe_Ok : forall df out file,
  clean_dataframe mode_order mean std df = Ok (out, file) ->
  exists d1, reindex mode_order df = Ok d1 /\ outlier_filter mean std d1 = Ok out /\
             file = ("../output/filtered_dashcam.csv"%string, out).
Proof.
  intros df out file H. unfold clean_dataframe in H.
  bind_split H as d1 H1. bind_split H as d2 H2.
  inversion H; subst. exists d1. repeat split; assumption.
Qed.

Lemma clean_dataframe_clean_columns : forall df out file,
  clean_dataframe mode_order mean std df = Ok (out, file) ->
  columns out = clean_columns (columns df).
Proof.
  intros df out file H. destruct (clean_dataframe_Ok _ _ _ H) as (d1 & H1 & H2 & _).
  rewrite (outlier_filter_columns _ _ H2), (reindex_columns _ _ H1). reflexivity.
Qed.

Lemma outlier_filter_rect : forall df df',
  outlier_filter mean std df = Ok df' -> exists n, rect n df'.
Proof.
  intros df df' H. unfold outlier_filter in H.
  bind_split H as d1 H1. bind_split H as d2 H2.
  destruct (delta_pass_steps _ _ _ _ H) as (ld & od & e1 & e2 & e3 & W1 & W2 & M4 & M5).
  exact (masked_rect _ _ M5).
Qed.

(** C8: on a table in the layout of dashcam.csv, the table that
    [clean_dataframe] returns is the one it writes to filtered_dashcam.csv,
    and its columns are timestamp, latitude, longitude, speed, speed_units,
    new_index, lat_delta and lon_delta: frame_index and frame_delta are
    gone, the two coordinate delta columns are still there. *)
Theorem clean_dataframe_columns : forall df out file,
  clean_dataframe mode_order mean std df = Ok (out, file) ->
  columns df = ["frame_index"; "timestamp"; "latitude"; "longitude";
                "speed"; "speed_units"]%string ->
  file = ("../output/filtered_dashcam.csv"%string, out) /\
  columns out = ["timestamp"; "latitude"; "longitude"; "speed"; "speed_units";
                 "new_index"; "lat_delta"; "lon_delta"]%string.
Proof.
  intros df out file H Hcols.
  destruct (clean_dataframe_Ok _ _ _ H) as (d1 & _ & _ & Hfile).
  split; [exact Hfile |].
  rewrite (clean_dataframe_clean_columns _ _ _ H), Hcols. reflexivity.
Qed.

(** C3: in every table that [clean_dataframe] returns, the latitude and the
    longitude column are numeric, as long as the table, every latitude is
    not zero and at most 90 in absolute value, and every longitude is at
    most 180 in absolute value; row by row as well. *)
Theorem clean_dataframe_domain : forall df out file,
  clean_dataframe mode_order mean std df = Ok (out, file) ->
  exists slat lats slon lons,
    column out "latitude" = Ok slat /\ as_floats slat = Ok lats /\
    column out "longitude" = Ok slon /\ as_floats slon = Ok lons /\
    length lats = height out /\ length lons = height out /\
    Forall latitude_ok lats /\ Forall longitude_ok lons /\
    forall i, i < height out ->
      latitude_ok (nth i lats 0%float) /\ longitude_ok (nth i lons 0%float).
Proof.
  intros df out file H. destruct (clean_dataframe_Ok _ _ _ H) as (d1 & _ & H2 & _).
  destruct (outlier_filter_holds _ _ _ _ H2)
    as [(slat & lats & Hc1 & Hf1 & HP1) (slon & lons & Hc2 & Hf2 & HP2)].
  destruct (outlier_filter_rect _ _ H2) as [n Hr].
  assert (L1 : length lats = height out).
  { rewrite (as_floats_length _ _ Hf1), (rect_column _ _ _ _ Hr Hc1).
    symmetry. eapply rect_height; eassumption. }
  assert (L2 : length lons = height out).
  { rewrite (as_floats_length _ _ Hf2), (rect_column _ _ _ _ Hr Hc2).
    symmetry. eapply rect_height; eassumption. }
  exists slat, lats, slon, lons. repeat (split; [assumption |]).
  intros i Hi. split.
  - rewrite Forall_forall in HP1. apply HP1. apply nth_In. lia.
  - rewrite Forall_forall in HP2. apply HP2. apply nth_In. lia.
Qed.

End CleanTheorems.

Lemma sample_trip_cleaned_eq :
  clean_dataframe ref_mode_order ref_mean ref_std sample_trip =
  Ok (sample_trip_cleaned, ("../output/filtered_dashcam.csv"%string, sample_trip_cleaned)).
Proof. vm_compute. reflexivity. Qed.

Lemma clean_dataframe_columns_witness :
  ("../output/filtered_dashcam.csv"%string, sample_trip_cleaned) =
  ("../output/filtered_dashcam.csv"%string, sample_trip_cleaned) /\
  columns sample_trip_cleaned =
  ["timestamp"; "latitude"; "longitude"; "speed"; "speed_units";
   "new_index"; "lat_delta"; "lon_delta"]%string.
Proof.
  apply (clean_dataframe_columns ref_mode_order ref_mean ref_std sample_trip
           sample_trip_cleaned ("../output/filtered_dashcam.csv"%string, sample_trip_cleaned)).
  - vm_compute. reflexivity.
  - reflexivity.
Defined.

Lemma clean_dataframe_domain_witness :
  exists slat lats slon lons,
    column sample_trip_cleaned "latitude" = Ok slat /\ as_floats slat = Ok lats /\
    column sample_trip_cleaned "longitude" = Ok slon /\ as_floats slon = Ok lons /\
    length lats = height sample_trip_cleaned /\ length lons = height sample_trip_cleaned /\
    Forall latitude_ok lats /\ Forall longitude_ok lons /\
    forall i, i < height sample_trip_cleaned ->
      latitude_ok (nth i lats 0%float) /\ longitude_ok (nth i lons 0%float).
Proof.
  apply (clean_dataframe_domain ref_mode_order ref_mean ref_std sample_trip
           sample_trip_cleaned ("../output/filtered_dashcam.csv"%string, sample_trip_cleaned)).
  vm_compute. reflexivity.
Defined.

(* ================================================================== *)
(** * Reindexer *)

Lemma column_nonempty : forall df name s, column df name = Ok s -> df <> [].
Proof. intros df name s H ->. simpl in H. discriminate. Qed.

Lemma with_column_ok : forall df name s,
  df <> [] -> series_len s = height df ->
  with_column df name s =
  Ok (if has_column df name then replace_column df name s else df ++ [(name, s)]).
Proof.
  intros df name s Hne Hlen. unfold with_column.
  destruct df as [| c df]; [congruence |]. rewrite Hlen, Nat.eqb_refl. reflexivity.
Qed.

Lemma column_replace_same : forall df name s,
  has_column df name = true -> column (replace_column df name s) name = Ok s.
Proof.
  induction df as [| [n s'] df IH]; intros name s H; [discriminate |].
  unfold has_column in H. simpl in H. simpl.
  destruct (String.eqb_spec n name) as [-> | Hne]; simpl.
  - rewrite String.eqb_refl. reflexivity.
  - destruct (String.eqb_spec n name); [congruence |].
    apply IH. rewrite (String.eqb_sym name n) in H.
    destruct (String.eqb_spec n name); [congruence |]. exact H.
Qed.

Lemma column_app_same : forall df name s,
  has_column df name = false -> column (df ++ [(name, s)]) name = Ok s.
Proof.
  induction df as [| [n s'] df IH]; intros name s H; simpl.
  - rewrite String.eqb_refl. reflexivity.
  - unfold has_column in H. simpl in H. rewrite (String.eqb_sym name n) in H.
    destruct (String.eqb n name); [discriminate |]. apply IH. exact H.
Qed.

Lemma with_column_same : forall df name s df',
  with_column df name s = Ok df' -> column df' name = Ok s.
Proof.
  intros df name s df' H. unfold with_column in H.
  destruct (match df with [] => true | _ => (series_len s =? height df) end); [| discriminate].
  inversion H; subst. destruct (has_column df name) eqn:E.
  - apply column_replace_same. exact E.
  - apply column_app_same. exact E.
Qed.

Lemma with_column_height : forall df name s df',
  with_column df name s = Ok df' -> df <> [] -> height df' = height df.
Proof.
  intros df name s df' H Hne. unfold with_column in H.
  destruct df as [| [n s0] df]; [congruence |].
  destruct (series_len s =? height ((n, s0) :: df)) eqn:E; [| discriminate].
  apply Nat.eqb_eq in E. inversion H; subst. destruct (has_column ((n, s0) :: df) name).
  - simpl. destruct (String.eqb n name); simpl; [exact E | reflexivity].
  - reflexivity.
Qed.

Lemma drop_ok : forall df name s,
  column df name = Ok s ->
  drop df name = Ok (filter (fun c => negb (String.eqb (fst c) name)) df).
Proof.
  intros df name s H. unfold drop. rewrite (column_has _ _ _ H). reflexivity.
Qed.

Lemma column_filter_other : forall df name name',
  String.eqb name name' = false ->
  column (filter (fun c => negb (String.eqb (fst c) name)) df) name' = column df name'.
Proof.
  induction df as [| [n s] df IH]; intros name name' Hne; simpl; [reflexivity |].
  destruct (String.eqb_spec n name) as [-> | Hn]; simpl.
  - rewrite Hne. apply IH. exact Hne.
  - destruct (String.eqb n name'); [reflexivity | apply IH; exact Hne].
Qed.

Lemma diff_from_length : forall xs p, length (diff_from p xs) = length xs.
Proof. induction xs as [| x xs IH]; intros p; simpl; [reflexivity | f_equal; apply IH]. Qed.

Lemma diff_fill_length : forall xs, length (fill_null 0%Z (diff xs)) = length xs.
Proof.
  intros xs. unfold fill_null. rewrite length_map.
  destruct xs as [| x xs]; simpl; [reflexivity | f_equal; apply diff_from_length].
Qed.

Lemma py_range_multiples : forall interval n,
  interval <> 0%Z ->
  py_range 0 (interval * Z.of_nat n) interval = Ok (multiples interval n).
Proof.
  intros i n Hi. unfold py_range, multiples.
  destruct (Z.eqb_spec i 0) as [E | _]; [congruence |].
  assert (Hn : (if (0 <? i)%Z then ((i * Z.of_nat n - 0 + i - 1) / i)%Z
                else ((0 - i * Z.of_nat n - i - 1) / - i)%Z) = Z.of_nat n).
  { destruct (Z.ltb_spec 0 i) as [Hpos | Hneg].
    - symmetry. apply (Z.div_unique _ _ _ (i - 1)); lia.
    - symmetry. apply (Z.div_unique _ _ _ (- i - 1)); lia. }
  rewrite Hn, Nat2Z.id. apply f_equal. apply map_ext. intros k. lia.
Qed.

Lemma multiples_length : forall interval n, length (multiples interval n) = n.
Proof. intros. unfold multiples. rewrite length_map, length_seq. reflexivity. Qed.

Lemma multiples_increasing : forall interval n,
  (0 < interval)%Z -> StronglySorted Z.lt (multiples interval n).
Proof.
  intros i n Hi. unfold multiples. generalize 0 as a.
  induction n as [| n IH]; intros a; simpl; constructor.
  - apply IH.
  - apply Forall_forall. intros z Hz. apply in_map_iff in Hz.
    destruct Hz as (k & <- & Hk). apply in_seq in Hk. nia.
Qed.

(** the most frequent values *)
Lemma fold_max_ge : forall (f : Z -> nat) l y,
  In y l -> f y <= fold_right (fun x m => Nat.max (f x) m) 0 l.
Proof.
  induction l as [| x l IH]; intros y H; simpl; [contradiction |].
  destruct H as [-> | H]; [lia |]. specialize (IH y H). lia.
Qed.

Lemma fold_max_attained : forall (f : Z -> nat) l,
  l <> [] -> exists x, In x l /\ f x = fold_right (fun x m => Nat.max (f x) m) 0 l.
Proof.
  induction l as [| x l IH]; intros H; [congruence |]. simpl.
  destruct l as [| x' l].
  - exists x. split; [left; reflexivity | simpl; lia].
  - destruct IH as (y & Hy & Hf); [discriminate |].
    destruct (Nat.max_spec (f x) (fold_right (fun x m => Nat.max (f x) m) 0 (x' :: l)))
      as [[_ E] | [_ E]]; rewrite E.
    + exists y. split; [right; exact Hy | exact Hf].
    + exists x. split; [left; reflexivity | reflexivity].
Qed.

Lemma modes_of_In : forall l x,
  In x (modes_of l) <-> In x l /\ forall y, count y l <= count x l.
Proof.
  intros l x. unfold modes_of. rewrite nodup_In, filter_In, Nat.eqb_eq. split.
  - intros [Hin Hc]. split; [exact Hin |]. intros y. rewrite Hc.
    destruct (in_dec Z.eq_dec y l) as [Hy | Hy].
    + exact (fold_max_ge (fun x => count x l) l y Hy).
    + unfold count at 1. rewrite (count_occ_not_In Z.eq_dec) in Hy. rewrite Hy. lia.
  - intros [Hin Hmax]. split; [exact Hin |].
    destruct l as [| z l]; [contradiction |].
    destruct (fold_max_attained (fun x => count x (z :: l)) (z :: l)) as (y & Hy & Hf);
      [discriminate |].
    pose proof (fold_max_ge (fun x => count x (z :: l)) (z :: l) x Hin) as Hle.
    unfold max_count. specialize (Hmax y). rewrite <- Hf in *. lia.
Qed.

Lemma modes_of_nonempty : forall l, l <> [] -> modes_of l <> [].
Proof.
  intros l H. destruct (fold_max_attained (fun x => count x l) l H) as (y & Hy & Hf).
  assert (Hin : In y (modes_of l)).
  { apply modes_of_In. split; [exact Hy |]. intros z.
    destruct (in_dec Z.eq_dec z l) as [Hz | Hz].
    - rewrite Hf. exact (fold_max_ge (fun x => count x l) l z Hz).
    - unfold count at 1. rewrite (count_occ_not_In Z.eq_dec) in Hz. rewrite Hz. lia. }
  intros E. rewrite E in Hin. contradiction.
Qed.

Section Reindex.

Variable mode_order : list Z -> list Z.
Hypothesis mode_order_perm : forall l, Permutation (mode_order l) l.

Lemma first_mode_exists : forall xs,
  xs <> [] ->
  exists interval rest, mode_order (modes_of xs) = interval :: rest /\
                        In interval xs /\ forall y, count y xs <= count interval xs.
Proof.
  intros xs H. pose proof (modes_of_nonempty xs H) as Hne.
  destruct (mode_order (modes_of xs)) as [| i rest] eqn:E.
  - exfalso. apply Hne. apply Permutation_nil. rewrite <- E. apply mode_order_perm.
  - exists i, rest. split; [reflexivity |]. apply modes_of_In.
    apply (Permutation_in i (mode_order_perm (modes_of xs))). rewrite E. left. reflexivity.
Qed.

(** the run of [reindex] once the interval is known *)
Lemma reindex_run : forall df xs interval rest,
  column df "frame_index" = Ok (SInt xs) -> height df = length xs ->
  mode_order (modes_of (fill_null 0%Z (diff xs))) = interval :: rest ->
  interval <> 0%Z ->
  exists out, reindex mode_order df = Ok out /\
              column out "new_index" = Ok (SInt (multiples interval (length xs))).
Proof.
  intros df xs i rest Hfi Hh Hm Hi.
  pose proof (column_nonempty _ _ _ Hfi) as Hne.
  set (deltas := fill_null 0%Z (diff xs)) in *.
  assert (W1 : exists d1, with_column df "frame_delta" (SInt deltas) = Ok d1).
  { eexists. apply with_column_ok; [exact Hne |].
    simpl. unfold deltas. rewrite diff_fill_length. symmetry. exact Hh. }
  destruct W1 as [d1 W1].
  pose proof (with_column_same _ _ _ _ W1) as C1.
  pose proof (with_column_height _ _ _ _ W1 Hne) as H1.
  pose proof (column_nonempty _ _ _ C1) as Hne1.
  assert (W2 : exists d2, with_column d1 "new_index" (SInt (multiples i (length xs))) = Ok d2).
  { eexists. apply with_column_ok; [exact Hne1 |].
    simpl. rewrite multiples_length. lia. }
  destruct W2 as [d2 W2].
  pose proof (with_column_same _ _ _ _ W2) as C2.
  assert (Cd : column d2 "frame_delta" = Ok (SInt deltas)).
  { rewrite (with_column_other _ _ _ _ "frame_delta" W2 eq_refl). exact C1. }
  assert (Cf : column d2 "frame_index" = Ok (SInt xs)).
  { rewrite (with_column_other _ _ _ _ "frame_index" W2 eq_refl).
    rewrite (with_column_other _ _ _ _ "frame_index" W1 eq_refl). exact Hfi. }
  eexists. split.
  - unfold reindex. rewrite Hfi. cbn [bind diff_fill]. fold deltas. rewrite W1. cbn [bind].
    unfold first_mode. rewrite C1. cbn [bind]. rewrite Hm. cbn [bind].
    rewrite H1, Hh, py_range_multiples by exact Hi. cbn [bind]. rewrite W2. cbn [bind].
    rewrite (drop_ok _ _ _ Cd). cbn [bind].
    apply drop_ok with (s := SInt xs).
    rewrite column_filter_other by reflexivity. exact Cf.
  - rewrite !column_filter_other by reflexivity. exact C2.
Qed.

(** the run of [reindex] when the interval is zero *)
Lemma reindex_zero : forall df xs rest,
  column df "frame_index" = Ok (SInt xs) -> height df = length xs ->
  mode_order (modes_of (fill_null 0%Z (diff xs))) = 0%Z :: rest ->
  reindex mode_order df = Raise ValueError.
Proof.
  intros df xs rest Hfi Hh Hm. unfold reindex. rewrite Hfi. cbn [bind diff_fill].
  pose proof (with_column_ok df "frame_delta" (SInt (fill_null 0%Z (diff xs)))
                (column_nonempty _ _ _ Hfi)) as W.
  assert (Hlen : series_len (SInt (fill_null 0%Z (diff xs))) = height df).
  { simpl. rewrite diff_fill_length. symmetry. exact Hh. }
  specialize (W Hlen). rewrite W. cbn [bind].
  pose proof (with_column_same _ _ _ _ W) as Hs.
  unfold first_mode. rewrite Hs. cbn [bind]. rewrite Hm. cbn [bind]. reflexivity.
Qed.

(** C2 (amended): the interval that the Reindexer takes is the first value
    that [mode()] lists, a most frequent value of the frame_index
    differences with the missing difference of the first row counted as 0;
    when that interval is not zero the Reindexer succeeds, the new index is
    0, interval, 2*interval, ... with one value per input row, and
    frame_index and frame_delta are gone; when it is zero the Reindexer
    raises ValueError; the new index increases strictly when the interval
    is positive; and indices [0, 3, 6, 10, 13] yield [0, 3, 6, 9, 12]. *)
Theorem reindex_spec :
  (forall df xs,
     column df "frame_index" = Ok (SInt xs) -> height df = length xs -> xs <> [] ->
     exists interval rest,
       mode_order (modes_of (fill_null 0%Z (diff xs))) = interval :: rest /\
       (In interval (fill_null 0%Z (diff xs)) /\
        forall y, count y (fill_null 0%Z (diff xs)) <= count interval (fill_null 0%Z (diff xs))) /\
       (interval <> 0%Z ->
        exists out,
          reindex mode_order df = Ok out /\
          column out "new_index" = Ok (SInt (multiples interval (length xs))) /\
          length (multiples interval (length xs)) = length xs /\
          ~ In "frame_index"%string (columns out) /\
          ~ In "frame_delta"%string (columns out)) /\
       (interval = 0%Z -> reindex mode_order df = Raise ValueError) /\
       ((0 < interval)%Z -> StronglySorted Z.lt (multiples interval (length xs)))) /\
  (forall df,
     column df "frame_index" = Ok (SInt [0; 3; 6; 10; 13]%Z) -> height df = 5 ->
     exists out, reindex mode_order df = Ok out /\
                 column out "new_index" = Ok (SInt [0; 3; 6; 9; 12]%Z)).
Proof.
  split.
  - intros df xs Hfi Hh Hne.
    assert (Hd : fill_null 0%Z (diff xs) <> []).
    { intros E. apply Hne. apply length_zero_iff_nil.
      rewrite <- diff_fill_length, E. reflexivity. }
    destruct (first_mode_exists _ Hd) as (i & rest & Hm & Hin & Hmax).
    exists i, rest. split; [exact Hm |]. split; [split; assumption |].
    split; [| split].
    + intros Hi. destruct (reindex_run df xs i rest Hfi Hh Hm Hi) as (out & Hr & Hc).
      exists out. split; [exact Hr |]. split; [exact Hc |].
      split; [apply multiples_length |].
      rewrite (reindex_columns _ _ _ Hr). split.
      * intros Hx. apply drop_name_In in Hx. destruct Hx as [Hx _]. congruence.
      * intros Hx. apply drop_name_In in Hx. destruct Hx as [_ Hx].
        apply drop_name_In in Hx. destruct Hx as [Hx _]. congruence.
    + intros ->. apply (reindex_zero df xs rest Hfi Hh Hm).
    + apply multiples_increasing.
  - intros df Hfi Hh.
    assert (Hm : mode_order (modes_of (fill_null 0%Z (diff [0; 3; 6; 10; 13]%Z))) = [3%Z]).
    { change (modes_of (fill_null 0%Z (diff [0; 3; 6; 10; 13]%Z))) with [3%Z].
      apply Permutation_length_1_inv. apply Permutation_sym. apply mode_order_perm. }
    destruct (reindex_run df _ 3%Z [] Hfi Hh Hm) as (out & Hr & Hc); [discriminate |].
    exists out. split; [exact Hr | exact Hc].
Qed.

End Reindex.

Lemma reindex_spec_witness :
  exists out,
    reindex ref_mode_order sample_trip = Ok out /\
    column out "new_index" = Ok (SInt [0; 3; 6; 9; 12; 15; 18; 21; 24; 27; 30]%Z).
Proof.
  destruct (proj1 (reindex_spec ref_mode_order (fun l => Permutation_refl l))
              sample_trip (map (fun k => (3 * Z.of_nat k)%Z) (seq 0 11)) eq_refl eq_refl)
    as (i & rest & _ & [Hin Hmax] & Hrun & _); [discriminate |].
  assert (Hi : i = 3%Z).
  { specialize (Hmax 3%Z). vm_compute in Hin.
    repeat (destruct Hin as [<- | Hin]; [try reflexivity; vm_compute in Hmax; lia |]).
    contradiction. }
  subst i. destruct (Hrun ltac:(discriminate)) as (out & Hr & Hc & _).
  exists out. split; [exact Hr | exact Hc].
Defined.

(** C2 as stated fails: on a table of one frame the only difference is the
    filled-in 0, the interval is 0 and [range] raises ValueError. *)
Lemma reindex_claim_counterexample : ~ reindex_claim.
Proof.
  intros H.
  destruct (H ref_mode_order (fun l => Permutation_refl l) single_frame [7%Z])
    as (out & i & Hr & _).
  - reflexivity.
  - repeat constructor.
  - discriminate.
  - vm_compute in Hr. discriminate Hr.
Qed.

(* ================================================================== *)
(** * Running the filter again *)

Lemma leb_not_nan : forall y c, PrimFloat.leb y c = true -> is_nan y = false.
Proof.
  intros y c H. unfold is_nan. rewrite FloatAxioms.leb_spec in H.
  rewrite FloatAxioms.eqb_spec.
  destruct (Prim2SF y) as [s | s | | s m e]; simpl in *.
  - reflexivity.
  - destruct s; reflexivity.
  - discriminate.
  - unfold SFeqb, SFcompare. rewrite Z.compare_refl, Pos.compare_cont_refl.
    destruct s; reflexivity.
Qed.

Lemma latitude_ok_tests : forall x,
  latitude_ok x -> pl_ne x 0 = true /\ pl_le (PrimFloat.abs x) 90 = true.
Proof.
  intros x [Hz Hb]. split.
  - unfold pl_ne. rewrite Hz. destruct (is_nan x); reflexivity.
  - unfold pl_le. rewrite (leb_not_nan _ _ Hb). exact Hb.
Qed.

Lemma longitude_ok_test : forall x, longitude_ok x -> pl_le (PrimFloat.abs x) 180 = true.
Proof.
  intros x Hb. unfold longitude_ok in Hb. unfold pl_le. rewrite (leb_not_nan _ _ Hb). exact Hb.
Qed.

Lemma mask_series_all : forall (test : float -> bool) xs s,
  Forall (fun x => test x = true) xs -> series_len s = length xs ->
  mask_series (map test xs) s = s.
Proof.
  intros test xs s H Hlen.
  assert (Hm : Forall (fun b => b = true) (map test xs)) by (apply Forall_map; exact H).
  destruct s as [zs | fs | ss]; simpl in *; f_equal; apply mask_list_all;
    try exact Hm; rewrite length_map; exact Hlen.
Qed.

(** a test that every row passes removes nothing *)
Lemma filter_by_all : forall n df name test s xs,
  rect n df -> column df name = Ok s -> as_floats s = Ok xs ->
  Forall (fun x => test x = true) xs ->
  filter_by df name test = Ok df.
Proof.
  intros n df name test s xs Hr Hc Hf Hall.
  assert (Hn : length xs = n).
  { rewrite (as_floats_length _ _ Hf). eapply rect_column; eassumption. }
  unfold filter_by. rewrite Hc. cbn [bind]. rewrite Hf. cbn [bind].
  unfold filter_rows.
  assert (Hchk : forallb (fun c => series_len (snd c) =? length (map test xs)) df = true).
  { apply forallb_forall. intros c Hin. apply Nat.eqb_eq. rewrite length_map, Hn.
    unfold rect in Hr. rewrite Forall_forall in Hr. apply Hr. exact Hin. }
  rewrite Hchk. f_equal.
  rewrite <- (map_id df) at 2. apply map_ext_in. intros [n' s'] Hin. simpl. f_equal.
  apply mask_series_all; [exact Hall |].
  unfold rect in Hr. rewrite Forall_forall in Hr. rewrite Hn. exact (Hr _ Hin).
Qed.

Lemma masked_height : forall df df', masked df df' -> height df' <= height df.
Proof.
  intros df df' [m H]. apply filter_rows_Ok in H. destruct H as [-> Hr].
  destruct df as [| [n s] df]; simpl; [lia |].
  inversion Hr as [| c l Hh Ht]; subst c l. simpl in Hh.
  rewrite (mask_series_length m s Hh), Hh. apply filter_length_le.
Qed.

Lemma clean_columns_no_frame_index : forall cs, ~ In "frame_index"%string (clean_columns cs).
Proof.
  intros cs H. unfold clean_columns in H.
  apply add_name_In in H. destruct H as [H | H]; [discriminate |].
  apply add_name_In in H. destruct H as [H | H]; [discriminate |].
  apply drop_name_In in H. destruct H as [H _]. congruence.
Qed.

Section SecondRun.

Variable mode_order : list Z -> list Z.
Variables mean std : list float -> option float.

Lemma domain_pass_again : forall n df,
  rect n df -> holds latitude_ok df "latitude" -> holds longitude_ok df "longitude" ->
  domain_pass df = Ok df.
Proof.
  intros n df Hr (s1 & lats & Hc1 & Hf1 & HP1) (s2 & lons & Hc2 & Hf2 & HP2).
  unfold domain_pass.
  rewrite (filter_by_all n df "latitude" _ s1 lats Hr Hc1 Hf1).
  2:{ eapply Forall_impl; [| exact HP1]. intros x Hx. apply (latitude_ok_tests x Hx). }
  cbn [bind].
  rewrite (filter_by_all n df "latitude" _ s1 lats Hr Hc1 Hf1).
  2:{ eapply Forall_impl; [| exact HP1]. intros x Hx. apply (latitude_ok_tests x Hx). }
  cbn [bind].
  apply (filter_by_all n df "longitude" _ s2 lons Hr Hc2 Hf2).
  eapply Forall_impl; [| exact HP2]. intros x Hx. apply (longitude_ok_test x Hx).
Qed.

Lemma delta_pass_nonempty : forall df df', delta_pass mean std df = Ok df' -> df <> [].
Proof.
  intros df df' H. unfold delta_pass in H. bind_split H as lat Hlat.
  exact (column_nonempty _ _ _ Hlat).
Qed.

Lemma outlier_filter_height : forall df df',
  outlier_filter mean std df = Ok df' -> height df' <= height df.
Proof.
  intros df df' H. unfold outlier_filter in H.
  bind_split H as d1 H1. bind_split H as d2 H2.
  destruct (domain_pass_masked _ _ H1) as (a1 & a2 & A1 & A2 & A3).
  destruct (magnitude_pass_masked _ _ _ _ H2) as (m1 & m2 & M1 & M2 & M3).
  pose proof (delta_pass_nonempty _ _ H) as Hne.
  destruct (delta_pass_steps _ _ _ _ H) as (ld & od & e1 & e2 & e3 & W1 & W2 & M4 & M5).
  pose proof (with_column_height _ _ _ _ W1 Hne) as E1.
  pose proof (with_column_height _ _ _ _ W2
                (column_nonempty _ _ _ (with_column_same _ _ _ _ W1))) as E2.
  apply masked_height in A1, A2, A3, M1, M2, M3, M4, M5. lia.
Qed.

(** C7 (amended): on a table that [clean_dataframe] has returned, the
    zero/domain pass removes no row and no filter pass adds one; the passes
    that compare with a mean and a standard deviation compute them anew
    over the rows that are left; and [clean_dataframe] itself cannot be run
    on its output, which has no frame_index column any more. *)
Theorem outlier_filter_second_run : forall df out file,
  clean_dataframe mode_order mean std df = Ok (out, file) ->
  domain_pass out = Ok out /\
  (forall out2, outlier_filter mean std out = Ok out2 -> height out2 <= height out) /\
  clean_dataframe mode_order mean std out = Raise (ColumnNotFoundError "frame_index").
Proof.
  intros df out file H.
  destruct (clean_dataframe_Ok _ _ _ _ _ _ H) as (d1 & _ & H2 & _).
  destruct (outlier_filter_holds _ _ _ _ H2) as [La Lo].
  destruct (outlier_filter_rect _ _ _ _ H2) as [n Hr].
  split; [exact (domain_pass_again n out Hr La Lo) |].
  split; [intros out2; apply outlier_filter_height |].
  unfold clean_dataframe, reindex.
  rewrite column_missing; [reflexivity |].
  rewrite (clean_dataframe_clean_columns _ _ _ _ _ _ H).
  apply clean_columns_no_frame_index.
Qed.

End SecondRun.

Lemma outlier_filter_second_run_witness :
  domain_pass sample_trip_cleaned = Ok sample_trip_cleaned /\
  (forall out2, outlier_filter ref_mean ref_std sample_trip_cleaned = Ok out2 ->
                height out2 <= height sample_trip_cleaned) /\
  clean_dataframe ref_mode_order ref_mean ref_std sample_trip_cleaned =
  Raise (ColumnNotFoundError "frame_index").
Proof.
  apply (outlier_filter_second_run ref_mode_order ref_mean ref_std sample_trip
           sample_trip_cleaned ("../output/filtered_dashcam.csv"%string, sample_trip_cleaned)).
  vm_compute. reflexivity.
Defined.

(** C7 as stated fails: cleaned once, [sample_trip] has ten rows; the filter
    passes run again remove the row of latitude 11, now two standard
    deviations off the new mean; and [clean_dataframe] run on its own output
    raises. *)
Lemma idempotence_counterexample :
  ~ filter_idempotence_claim ref_mean ref_std /\
  ~ clean_idempotence_claim ref_mode_order ref_mean ref_std.
Proof.
  split.
  - intros H.
    destruct (H (match reindex ref_mode_order sample_trip with Ok d => d | Raise _ => [] end)
                sample_trip_cleaned) as (out2 & Hf & Hh).
    + vm_compute. reflexivity.
    + vm_compute in Hf. inversion Hf; subst out2. vm_compute in Hh. discriminate Hh.
  - intros H.
    destruct (H sample_trip sample_trip_cleaned
                ("../output/filtered_dashcam.csv"%string, sample_trip_cleaned))
      as (out2 & file2 & Hc & _).
    + vm_compute. reflexivity.
    + vm_compute in Hc. discriminate Hc.
Qed.

(* ================================================================== *)
(** * The order of the frames *)

Lemma insert_by_key_perm : forall x l, Permutation (insert_by_key x l) (x :: l).
Proof.
  induction l as [| y l IH]; simpl; [apply Permutation_refl |].
  destruct (fst x <=? fst y)%Z; [apply Permutation_refl |].
  eapply Permutation_trans; [apply perm_skip; exact IH | apply perm_swap].
Qed.

Lemma sort_by_key_perm : forall l, Permutation (sort_by_key l) l.
Proof.
  induction l as [| x l IH]; simpl; [constructor |].
  eapply Permutation_trans; [apply insert_by_key_perm | apply perm_skip; exact IH].
Qed.

Lemma insert_by_key_sorted : forall x l,
  StronglySorted key_le l -> StronglySorted key_le (insert_by_key x l).
Proof.
  induction l as [| y l IH]; intros Hs; simpl.
  - constructor; constructor.
  - inversion Hs as [| y' l' Hl Hy]; subst.
    destruct (Z.leb_spec (fst x) (fst y)) as [Hle | Hgt].
    + constructor; [exact Hs |]. constructor; [exact Hle |].
      eapply Forall_impl; [| exact Hy]. intros z Hz. unfold key_le in *. lia.
    + constructor; [apply IH; exact Hl |].
      apply (Permutation_Forall (Permutation_sym (insert_by_key_perm x l))).
      constructor; [unfold key_le; lia | exact Hy].
Qed.

Lemma sort_by_key_sorted : forall l, StronglySorted key_le (sort_by_key l).
Proof.
  induction l as [| x l IH]; simpl; [constructor | apply insert_by_key_sorted; exact IH].
Qed.

Lemma insert_by_key_filter : forall k x l,
  filter (fun p => (fst p =? k)%Z) (insert_by_key x l) =
  filter (fun p => (fst p =? k)%Z) (x :: l).
Proof.
  induction l as [| y l IH]; [reflexivity |]. cbn [insert_by_key].
  destruct (Z.leb_spec (fst x) (fst y)) as [Hle | Hgt]; [reflexivity |].
  cbn [filter] in *. rewrite IH.
  destruct (Z.eqb_spec (fst x) k) as [Hx | Hx]; [| reflexivity].
  destruct (Z.eqb_spec (fst y) k) as [Hy | Hy]; [lia | reflexivity].
Qed.

(** X1: the sort of line 73 keeps every file, puts the frame numbers in
    non-decreasing order, and leaves files of equal number in the order of
    the directory listing. *)
Theorem sort_by_key_stable : forall l,
  Permutation (sort_by_key l) l /\
  StronglySorted key_le (sort_by_key l) /\
  forall k, filter (fun p => (fst p =? k)%Z) (sort_by_key l) =
            filter (fun p => (fst p =? k)%Z) l.
Proof.
  intros l. split; [apply sort_by_key_perm |]. split; [apply sort_by_key_sorted |].
  intros k. induction l as [| x l IH]; [reflexivity |].
  cbn [sort_by_key fold_right]. fold (sort_by_key l).
  rewrite insert_by_key_filter. cbn [filter]. rewrite IH. reflexivity.
Qed.

(* ================================================================== *)
(** * The keys and the entries of a stream *)

Lemma existsb_Zeqb : forall k l, existsb (Z.eqb k) l = true <-> In k l.
Proof.
  intros k l. rewrite existsb_exists. split.
  - intros (x & Hx & E). apply Z.eqb_eq in E. subst. exact Hx.
  - intros H. exists k. split; [exact H | apply Z.eqb_refl].
Qed.

Lemma keys_dict_set : forall d k v,
  keys (dict_set d k v) = if existsb (Z.eqb k) (keys d) then keys d else keys d ++ [k].
Proof.
  induction d as [| [k' v'] d IH]; intros k v; [reflexivity |].
  unfold keys in *. cbn [dict_set map fst existsb].
  rewrite (Z.eqb_sym k k'). destruct (Z.eqb_spec k' k) as [-> | Hne]; cbn [orb map fst].
  - reflexivity.
  - rewrite IH. destruct (existsb (Z.eqb k) (map fst d)); reflexivity.
Qed.

Lemma values_dict_set : forall (P : Entry -> Prop) d k v,
  Forall P (values d) -> P v -> Forall P (values (dict_set d k v)).
Proof.
  induction d as [| [k' v'] d IH]; intros k v Hd Hv; simpl.
  - constructor; [exact Hv | constructor].
  - inversion Hd; subst. destruct (k' =? k)%Z; simpl.
    + constructor; assumption.
    + constructor; [assumption | apply IH; assumption].
Qed.

Lemma sorted_snoc : forall l k,
  StronglySorted Z.lt l -> Forall (fun a => (a < k)%Z) l -> StronglySorted Z.lt (l ++ [k]).
Proof.
  induction l as [| a l IH]; intros k Hs Hk; simpl.
  - constructor; constructor.
  - inversion Hs; subst. inversion Hk; subst. constructor.
    + apply IH; assumption.
    + apply Forall_app. split; [assumption | constructor; [assumption | constructor]].
Qed.

Lemma mapM_combine : forall (A B : Type) (f : A -> result B) l r,
  mapM f l = Ok r ->
  Forall (fun p => f (snd p) = Ok (fst p)) (combine r l) /\
  map fst (combine r l) = r /\ map snd (combine r l) = l.
Proof.
  induction l as [| a l IH]; intros r H; simpl in H.
  - inversion H; subst. simpl. repeat split. constructor.
  - bind_split H as b Hb. bind_split H as bs Hbs. inversion H; subst. simpl.
    destruct (IH bs Hbs) as (H1 & H2 & H3).
    split; [constructor; assumption |]. split; f_equal; assumption.
Qed.

Lemma mapM_In : forall (A B : Type) (f : A -> result B) l r b,
  mapM f l = Ok r -> (In b r <-> exists a, In a l /\ f a = Ok b).
Proof.
  induction l as [| a l IH]; intros r b H; simpl in H.
  - inversion H; subst. simpl. split; [contradiction | intros (a & [] & _)].
  - bind_split H as b0 Hb. bind_split H as bs Hbs. inversion H; subst. simpl.
    rewrite (IH bs b Hbs). split.
    + intros [<- | (a' & Hin & Ha)]; [exists a; auto | exists a'; auto].
    + intros (a' & [<- | Hin] & Ha); [left; congruence | right; exists a'; auto].
Qed.

Section Stream.

Variable fs : FileSystem.
Variables input_dir data_type : string.

(** one turn of the loop of lines 77-97 *)
Lemma process_images_step : forall name rest acc d,
  process_images fs input_dir data_type (name :: rest) acc = Ok d ->
  exists k e,
    frame_number name = Ok k /\ entry_of_kind data_type e /\
    process_images fs input_dir data_type rest (dict_set acc k e) = Ok d.
Proof.
  intros name rest acc d H. cbn [process_images] in H.
  bind_split H as k Hk.
  destruct (imread fs (input_dir ++ "/" ++ name)); [| discriminate].
  bind_split H as txt Htxt. bind_split H as e He.
  exists k, e. split; [exact Hk |]. split; [| exact H].
  unfold entry_of_kind.
  destruct (String.eqb data_type "gps").
  { bind_split He as c Hc. inversion He. eexists; reflexivity. }
  destruct (String.eqb data_type "speed").
  { bind_split He as c Hc. inversion He. eexists; reflexivity. }
  destruct (String.eqb data_type "time").
  { inversion He. eexists; reflexivity. }
  inversion He. reflexivity.
Qed.

Lemma process_images_kinds : forall names acc d,
  process_images fs input_dir data_type names acc = Ok d ->
  Forall (entry_of_kind data_type) (values acc) ->
  Forall (entry_of_kind data_type) (values d).
Proof.
  induction names as [| name rest IH]; intros acc d H Hacc.
  - inversion H; subst. exact Hacc.
  - destruct (process_images_step name rest acc d H) as (k & e & _ & He & Hrest).
    apply (IH _ _ Hrest). apply values_dict_set; assumption.
Qed.

Lemma process_images_keys : forall ps acc d,
  Forall (fun p => frame_number (snd p) = Ok (fst p)) ps ->
  StronglySorted key_le ps ->
  StronglySorted Z.lt (keys acc) ->
  Forall (fun a => Forall (fun p => (a <= fst p)%Z) ps) (keys acc) ->
  process_images fs input_dir data_type (map snd ps) acc = Ok d ->
  StronglySorted Z.lt (keys d) /\
  forall k, In k (keys d) <-> In k (keys acc) \/ In k (map fst ps).
Proof.
  induction ps as [| p ps IH]; intros acc d Hcons Hsort Hacc Hbound H.
  - inversion H; subst. split; [exact Hacc |]. intros k. simpl. tauto.
  - cbn [map] in H.
    destruct (process_images_step _ _ _ _ H) as (k & e & Hk & _ & Hrest).
    inversion Hcons as [| p' ps' Hp Hps]; subst. rewrite Hp in Hk. inversion Hk; subst k.
    inversion Hsort as [| p' ps' Hs Hle]; subst.
    assert (Hkeys := keys_dict_set acc (fst p) e).
    assert (Hacc' : StronglySorted Z.lt (keys (dict_set acc (fst p) e))).
    { rewrite Hkeys. destruct (existsb (Z.eqb (fst p)) (keys acc)) eqn:E; [exact Hacc |].
      apply sorted_snoc; [exact Hacc |].
      rewrite Forall_forall in *. intros a Ha. specialize (Hbound a Ha).
      inversion Hbound; subst.
      assert (a <> fst p).
      { intros ->. apply (proj2 (existsb_Zeqb (fst p) (keys acc))) in Ha. congruence. }
      lia. }
    assert (Hbound' : Forall (fun a => Forall (fun q => (a <= fst q)%Z) ps)
                             (keys (dict_set acc (fst p) e))).
    { assert (Hold : Forall (fun a => Forall (fun q => (a <= fst q)%Z) ps) (keys acc)).
      { eapply Forall_impl; [| exact Hbound]. intros a Ha. inversion Ha; assumption. }
      rewrite Hkeys. destruct (existsb (Z.eqb (fst p)) (keys acc)); [exact Hold |].
      apply Forall_app. split; [exact Hold |]. constructor; [exact Hle | constructor]. }
    destruct (IH _ _ Hps Hs Hacc' Hbound' Hrest) as [Hd Hin].
    split; [exact Hd |]. intros k. rewrite Hin, Hkeys. cbn [map In].
    destruct (existsb (Z.eqb (fst p)) (keys acc)) eqn:E.
    + apply existsb_Zeqb in E. split; [tauto |].
      intros [Ha | [<- | Hk']]; tauto.
    + rewrite in_app_iff. simpl. tauto.
Qed.

End Stream.

Lemma image_directory_to_dict_Ok : forall fs input_dir d,
  image_directory_to_dict fs input_dir = Ok d ->
  path_exists fs (rstrip input_dir) = true /\
  exists files ks data_type,
    listdir fs (rstrip input_dir) = Ok files /\
    filter is_image files <> [] /\
    mapM frame_number (filter is_image files) = Ok ks /\
    option_map (fun gs => string_of_list_ascii (nth 2 gs []))
               (re_search regex_directory_pattern (rstrip input_dir)) = Some data_type /\
    process_images fs (rstrip input_dir) data_type
      (map snd (sort_by_key (combine ks (filter is_image files)))) [] = Ok d.
Proof.
  intros fs input_dir d H. unfold image_directory_to_dict in H.
  destruct (path_exists fs (rstrip input_dir)); [| discriminate].
  split; [reflexivity |].
  bind_split H as files Hfiles.
  destruct (0 <? length (filter is_image files)) eqn:Hne; [| discriminate].
  bind_split H as ks Hks. bind_split H as dt Hdt.
  exists files, ks, dt. split; [exact Hfiles |].
  split; [intros E; rewrite E in Hne; discriminate |].
  split; [exact Hks |]. split; [| exact H].
  destruct (re_search regex_directory_pattern (rstrip input_dir)); [| discriminate].
  inversion Hdt. reflexivity.
Qed.

(** X2: the keys of a stream that [image_directory_to_dict] returns are the
    frame numbers of the image files of the directory, each once, in
    strictly increasing order. *)
Theorem image_directory_to_dict_keys : forall fs input_dir files d,
  listdir fs (rstrip input_dir) = Ok files ->
  image_directory_to_dict fs input_dir = Ok d ->
  StronglySorted Z.lt (keys d) /\
  forall k, In k (keys d) <->
            exists f, In f files /\ is_image f = true /\ frame_number f = Ok k.
Proof.
  intros fs input_dir files d Hls H.
  destruct (image_directory_to_dict_Ok fs input_dir d H)
    as (_ & files' & ks & dt & Hls' & _ & Hks & _ & Hp).
  rewrite Hls in Hls'. inversion Hls'; subst files'.
  destruct (mapM_combine _ _ _ _ _ Hks) as (Hcons & Hfst & _).
  set (ps := sort_by_key (combine ks (filter is_image files))) in *.
  assert (Hperm : Permutation ps (combine ks (filter is_image files)))
    by apply sort_by_key_perm.
  destruct (process_images_keys fs (rstrip input_dir) dt ps [] d) as [Hs Hin].
  - apply (Permutation_Forall (Permutation_sym Hperm)). exact Hcons.
  - apply sort_by_key_sorted.
  - constructor.
  - constructor.
  - exact Hp.
  - split; [exact Hs |]. intros k. rewrite Hin. simpl.
    assert (Hk : In k (map fst ps) <-> In k ks).
    { rewrite <- Hfst. split; apply Permutation_in; apply Permutation_map;
        [exact Hperm | apply Permutation_sym; exact Hperm]. }
    rewrite Hk, (mapM_In _ _ _ _ _ k Hks). split.
    + intros [[] | (f & Hf & Hn)]. apply filter_In in Hf. exists f. tauto.
    + intros (f & Hf & Him & Hn). right. exists f. split; [apply filter_In; tauto | exact Hn].
Qed.

Lemma image_directory_to_dict_keys_witness :
  StronglySorted Z.lt [2; 10]%Z /\
  forall k, In k [2; 10]%Z <->
    exists f, In f ["frame_10.jpg"; "frame_2.jpg"; "frame_2.png"; "notes.txt"]%string /\
              is_image f = true /\ frame_number f = Ok k.
Proof.
  apply (image_directory_to_dict_keys
           (one_directory "../frames/010243F/time"%string
              ["frame_10.jpg"; "frame_2.jpg"; "frame_2.png"; "notes.txt"]%string
              "08-04-2024 11:28:08"%string)
           "../frames/010243F/time"%string
           ["frame_10.jpg"; "frame_2.jpg"; "frame_2.png"; "notes.txt"]%string
           [(2, TimeEntry "08-04-2024 11:28:08"); (10, TimeEntry "08-04-2024 11:28:08")]%Z).
  - reflexivity.
  - vm_compute. reflexivity.
Defined.

Lemma filter_none : forall (A : Type) (p : A -> bool) l,
  (forall x, In x l -> p x = false) -> filter p l = [].
Proof.
  induction l as [| x l IH]; intros H; [reflexivity |]. simpl.
  rewrite (H x (or_introl eq_refl)). apply IH. intros y Hy. apply H. right. exact Hy.
Qed.

(** X3: a directory that does not exist, and a directory without any file
    named as an image, are refused with the assertion messages of lines 55
    and 69 before any image is read. *)
Theorem image_directory_to_dict_refuses : forall fs input_dir,
  (path_exists fs (rstrip input_dir) = false ->
   image_directory_to_dict fs input_dir =
   Raise (AssertionError "Directory does not exist")) /\
  (forall files,
     path_exists fs (rstrip input_dir) = true ->
     listdir fs (rstrip input_dir) = Ok files ->
     (forall f, In f files -> is_image f = false) ->
     image_directory_to_dict fs input_dir =
     Raise (AssertionError "Provided directory does not contain any images")).
Proof.
  intros fs input_dir. split.
  - intros H. unfold image_directory_to_dict. rewrite H. reflexivity.
  - intros files Hex Hls Hno. unfold image_directory_to_dict. rewrite Hex, Hls. cbn [bind].
    rewrite (filter_none _ is_image files Hno). reflexivity.
Qed.

Lemma image_directory_to_dict_refuses_witness :
  image_directory_to_dict
    (one_directory "../frames/010243F/time"%string ["notes.txt"]%string "08-04-2024"%string)
    "../frames/010243F/gps"%string =
  Raise (AssertionError "Directory does not exist") /\
  image_directory_to_dict
    (one_directory "../frames/010243F/time"%string ["notes.txt"; "frame_0.bmp"]%string
                   "08-04-2024"%string)
    "../frames/010243F/time/"%string =
  Raise (AssertionError "Provided directory does not contain any images").
Proof.
  split.
  - apply (proj1 (image_directory_to_dict_refuses
                    (one_directory "../frames/010243F/time"%string ["notes.txt"]%string
                                   "08-04-2024"%string)
                    "../frames/010243F/gps"%string)).
    reflexivity.
  - apply (proj2 (image_directory_to_dict_refuses
                    (one_directory "../frames/010243F/time"%string
                                   ["notes.txt"; "frame_0.bmp"]%string "08-04-2024"%string)
                    "../frames/010243F/time/"%string)
             ["notes.txt"; "frame_0.bmp"]%string).
    + reflexivity.
    + reflexivity.
    + intros f [<- | [<- | []]]; reflexivity.
Defined.

(* ================================================================== *)
(** * Giving characters back *)

Lemma first_some_countdown : forall (A : Type) (f : nat -> option A) lo n k0 r,
  lo <= k0 <= n ->
  (forall k, k0 < k <= n -> f k = None) ->
  f k0 = Some r ->
  first_some f (countdown lo n) = Some r.
Proof.
  induction n as [| n IH]; intros k0 r Hk Hnone Hk0.
  - assert (k0 = 0) by lia. subst. simpl.
    assert (E : (0 <? lo) = false) by (apply Nat.ltb_ge; lia). rewrite E. simpl.
    rewrite Hk0. reflexivity.
  - cbn [countdown].
    assert (E : (S n <? lo) = false) by (apply Nat.ltb_ge; lia). rewrite E.
    cbn [first_some]. destruct (Nat.eq_dec k0 (S n)) as [-> | Hne].
    + rewrite Hk0. reflexivity.
    + rewrite (Hnone (S n)) by lia. apply (IH k0 r); [lia | | exact Hk0].
      intros k Hlt. apply Hnone. lia.
Qed.

(** A repetition gives back characters until the rest of the pattern
    matches: the match found is the one with the longest repetition that
    lets the rest match. *)
Lemma match_here_backtrack : forall c lo hi ns s k0 r,
  lo <= k0 <= cap hi (run c s) ->
  (forall k, k0 < k <= cap hi (run c s) -> match_here ns (skipn k s) = None) ->
  match_here ns (skipn k0 s) = Some r ->
  match_here (Rep c lo hi :: ns) s = Some (firstn k0 s :: r).
Proof.
  intros c lo hi ns s k0 r Hk Hnone Hk0. cbn [match_here].
  apply first_some_countdown with (k0 := k0); [exact Hk | |].
  - intros k Hlt. rewrite (Hnone k Hlt). reflexivity.
  - rewrite Hk0. reflexivity.
Qed.

Lemma match_here_lit : forall a ns rest r,
  match_here ns rest = Some r ->
  match_here (one (lit a) :: ns) (a :: rest) = Some ([a] :: r).
Proof.
  intros a ns rest r H. unfold one.
  apply (greedy_exact (lit a) 1 ns [a] rest r); [| reflexivity | exact H].
  constructor; [unfold lit; apply Ascii.eqb_refl | constructor].
Qed.

Lemma skipn_stops : forall (c : ascii -> bool) s j, none_in c s -> stops c (skipn j s).
Proof.
  induction s as [| a s IH]; intros j H.
  - destruct j; exact I.
  - inversion H; subst. destruct j as [| j]; [assumption | apply IH; assumption].
Qed.

Lemma slash_is_non_space : non_space "/"%char = true.
Proof. reflexivity. Qed.

(** The directory pattern on [../frames/<video>/<kind>]: the video group
    first runs to the end of the path and comes back to the last slash. *)
Lemma directory_match : forall vid kind,
  all_in non_space vid -> none_in (lit "/"%char) kind ->
  re_search regex_directory_pattern (str (chars "../frames/" ++ vid ++ "/"%char :: kind)) =
  Some [chars "frames"; vid; take_while non_digit kind].
Proof.
  intros vid kind Hvid Hkind. rewrite re_search_str.
  cbn [nodes_of regex_directory_pattern flat_map piece_nodes app literal
       list_ascii_of_string map chars].
  erewrite search_here.
  2:{ do 10 apply match_here_lit. unfold star at 1.
      apply (match_here_backtrack non_space 0 None _ (vid ++ "/"%char :: kind) (length vid)).
      - cbn [cap]. split; [lia |].
        change (vid ++ "/"%char :: kind) with (vid ++ ["/"%char] ++ kind).
        rewrite app_assoc.
        pose proof (run_app_ge non_space (vid ++ ["/"%char]) kind) as Hge.
        rewrite length_app in Hge. simpl in Hge.
        assert (length vid + 1 <= run non_space ((vid ++ ["/"%char]) ++ kind)).
        { apply Hge. apply all_in_app; [exact Hvid |].
          constructor; [reflexivity | constructor]. }
        lia.
      - intros k Hk. apply match_here_needs; [lia |].
        replace k with (length vid + S (k - length vid - 1)) by lia.
        rewrite skipn_app. rewrite (skipn_all2 vid) by lia.
        replace (length vid + S (k - length vid - 1) - length vid)
          with (S (k - length vid - 1)) by lia.
        cbn [app skipn]. apply skipn_stops. exact Hkind.
      - rewrite skipn_app, skipn_all, Nat.sub_diag. cbn [app skipn].
        apply match_here_lit.
        rewrite <- (take_drop_while non_digit kind) at 1.
        apply greedy_star; [apply take_while_all | apply drop_while_stops | reflexivity]. }
  cbn [option_map groups_of regex_directory_pattern literal list_ascii_of_string map
       length firstn skipn concat app].
  rewrite firstn_app, firstn_all, Nat.sub_diag. cbn [firstn]. rewrite !app_nil_r.
  reflexivity.
Qed.

Lemma take_while_all_in : forall c s, all_in c s -> take_while c s = s.
Proof.
  induction s as [| a s IH]; intros H; [reflexivity |]. inversion H; subst.
  simpl. rewrite H2. f_equal. apply IH. assumption.
Qed.

Lemma rstrip_slash_snoc : forall l a,
  Ascii.eqb a "/"%char = false -> rstrip_slash (l ++ [a]) = l ++ [a].
Proof.
  induction l as [| b l IH]; intros a Ha; simpl.
  - rewrite Ha. reflexivity.
  - rewrite (IH a Ha). destruct (l ++ [a]) eqn:E; [| reflexivity].
    destruct l; discriminate E.
Qed.

Lemma rstrip_slash_id : forall pre s,
  s <> [] -> none_in (lit "/"%char) s -> rstrip_slash (pre ++ s) = pre ++ s.
Proof.
  intros pre s Hne Hs. destruct (exists_last Hne) as (l & a & ->).
  rewrite app_assoc. apply rstrip_slash_snoc.
  apply Forall_app in Hs. destruct Hs as [_ Ha]. inversion Ha; subst. assumption.
Qed.

Lemma rstrip_str : forall pre s,
  s <> [] -> none_in (lit "/"%char) s -> rstrip (str (pre ++ s)) = str (pre ++ s).
Proof.
  intros pre s Hne Hs. unfold rstrip, str.
  rewrite list_ascii_of_string_of_list_ascii, rstrip_slash_id by assumption. reflexivity.
Qed.

(** X4: in a directory [../frames/<video>/<kind>] (no white space in the
    video name, no slash and no digit in the kind), every entry of the
    stream is of the kind of the directory: coordinates under gps, a speed
    under speed, a timestamp under time, and the error value under any
    other name. *)
Theorem image_directory_to_dict_kind : forall fs vid kind d,
  all_in non_space vid -> kind <> [] ->
  none_in (lit "/"%char) kind -> all_in non_digit kind ->
  image_directory_to_dict fs (str (chars "../frames/" ++ vid ++ "/"%char :: kind)) = Ok d ->
  Forall (entry_of_kind (str kind)) (values d).
Proof.
  intros fs vid kind d Hvid Hne Hslash Hdig H.
  destruct (image_directory_to_dict_Ok fs _ d H)
    as (_ & files & ks & dt & _ & _ & _ & Hdt & Hp).
  assert (Hr : rstrip (str (chars "../frames/" ++ vid ++ "/"%char :: kind)) =
               str (chars "../frames/" ++ vid ++ "/"%char :: kind)).
  { change (chars "../frames/" ++ vid ++ "/"%char :: kind)
      with (chars "../frames/" ++ vid ++ ["/"%char] ++ kind).
    rewrite !app_assoc. apply rstrip_str; assumption. }
  rewrite Hr in Hdt, Hp. rewrite (directory_match vid kind Hvid Hslash) in Hdt.
  cbn [option_map nth] in Hdt. rewrite (take_while_all_in _ _ Hdig) in Hdt.
  inversion Hdt; subst dt.
  apply (process_images_kinds fs _ _ _ [] d Hp). constructor.
Qed.

Lemma image_directory_to_dict_kind_witness :
  Forall (entry_of_kind "gps")
    (values [(0%Z, GpsEntry {| latitude := 40.426786; longitude := -97.665820 |})]).
Proof.
  apply (image_directory_to_dict_kind
           (one_directory "../frames/010243F/gps"%string ["frame_0.jpg"%string]
                          "N40.426786 W97 .665820"%string)
           (chars "010243F") (chars "gps")
           [(0%Z, GpsEntry {| latitude := 40.426786; longitude := -97.665820 |})]).
  - repeat constructor.
  - discriminate.
  - repeat constructor.
  - repeat constructor.
  - vm_compute. reflexivity.
Defined.

(* ================================================================== *)
(** * The rows of the assembled table *)

Lemma mapM_raise : forall (A B : Type) (f : A -> result B) (e : exn) l,
  (forall a, In a l -> f a = Raise e \/ exists b, f a = Ok b) ->
  (exists a, In a l /\ f a = Raise e) ->
  mapM f l = Raise e.
Proof.
  induction l as [| x l IH]; intros Hall (a & Hin & Ha); [contradiction |].
  simpl. destruct (Hall x (or_introl eq_refl)) as [Hx | (b & Hx)]; rewrite Hx; [reflexivity |].
  cbn [bind]. rewrite IH; [reflexivity | |].
  - intros y Hy. apply Hall. right. exact Hy.
  - destruct Hin as [-> | Hin]; [congruence |]. exists a. split; assumption.
Qed.

Lemma pl_DataFrame_same_length : forall cols,
  Forall (fun c => series_len (snd c) = height cols) cols -> pl_DataFrame cols = Ok cols.
Proof.
  intros cols H. unfold pl_DataFrame.
  assert (E : forallb (fun c => series_len (snd c) =? height cols) cols = true).
  { apply forallb_forall. rewrite Forall_forall in H. intros c Hc.
    apply Nat.eqb_eq. apply H. exact Hc. }
  rewrite E. reflexivity.
Qed.

Lemma entry_time_cases : forall e,
  entry_time e = Raise (KeyError "time") \/ exists t, entry_time e = Ok t.
Proof. intros [c | s | t |]; simpl; auto. right. eexists; reflexivity. Qed.

Lemma entry_gps_cases : forall (g : Coordinates -> float) e,
  (c <- entry_gps e ;; Ok (g c)) = Raise (KeyError "gps") \/
  exists x, (c <- entry_gps e ;; Ok (g c)) = Ok x.
Proof. intros g [c | s | t |]; simpl; auto. right. eexists; reflexivity. Qed.

Lemma entry_speed_cases : forall (B : Type) (g : Speed -> B) e,
  (s <- entry_speed e ;; Ok (g s)) = Raise (KeyError "speed") \/
  exists x, (s <- entry_speed e ;; Ok (g s)) = Ok x.
Proof. intros B g [c | s | t |]; simpl; auto. right. eexists; reflexivity. Qed.

Lemma time_frame_Ok : forall t ts,
  mapM entry_time (values t) = Ok ts ->
  pl_DataFrame [("frame_index"%string, SInt (keys t)); ("timestamp"%string, SStr ts)] =
  Ok [("frame_index"%string, SInt (keys t)); ("timestamp"%string, SStr ts)].
Proof.
  intros t ts H. apply pl_DataFrame_same_length.
  repeat constructor. simpl. rewrite (mapM_length _ _ _ _ _ H). symmetry.
  apply length_keys_values.
Qed.

(** X5: a stream that holds an entry of another kind, as the stream of an
    unrecognized directory does, makes [dict_to_dataframe] raise the
    KeyError of the first stream at fault, in the order time, gps, speed. *)
Theorem dict_to_dataframe_wrong_kind : forall join_order time_dict gps_dict speed_dict,
  ((exists e, In e (values time_dict) /\ ~ is_time e) ->
   dict_to_dataframe join_order time_dict gps_dict speed_dict = Raise (KeyError "time")) /\
  (Forall is_time (values time_dict) ->
   (exists e, In e (values gps_dict) /\ ~ is_gps e) ->
   dict_to_dataframe join_order time_dict gps_dict speed_dict = Raise (KeyError "gps")) /\
  (Forall is_time (values time_dict) -> Forall is_gps (values gps_dict) ->
   (exists e, In e (values speed_dict) /\ ~ is_speed e) ->
   dict_to_dataframe join_order time_dict gps_dict speed_dict = Raise (KeyError "speed")).
Proof.
  intros join_order t g s.
  assert (T : Forall is_time (values t) -> exists ts, mapM entry_time (values t) = Ok ts).
  { intros Ht. apply mapM_total. eapply Forall_impl; [| exact Ht].
    intros e [x ->]. eexists; reflexivity. }
  assert (G : forall f : Coordinates -> float, Forall is_gps (values g) ->
            exists r, mapM (fun e => c <- entry_gps e ;; Ok (f c)) (values g) = Ok r).
  { intros f Hg. apply mapM_total. eapply Forall_impl; [| exact Hg].
    intros e [x ->]. eexists; reflexivity. }
  split; [| split].
  - intros (e & Hin & Hbad). unfold dict_to_dataframe.
    rewrite (mapM_raise _ _ entry_time (KeyError "time")); [reflexivity | |].
    + intros a _. apply entry_time_cases.
    + exists e. split; [exact Hin |]. destruct e; try reflexivity.
      exfalso. apply Hbad. eexists; reflexivity.
  - intros Ht (e & Hin & Hbad). destruct (T Ht) as [ts Hts].
    unfold dict_to_dataframe. rewrite Hts. cbn [bind]. rewrite (time_frame_Ok t ts Hts).
    cbn [bind].
    rewrite (mapM_raise _ _ (fun e => c <- entry_gps e ;; Ok (latitude c)) (KeyError "gps"));
      [reflexivity | |].
    + intros a _. apply entry_gps_cases.
    + exists e. split; [exact Hin |]. destruct e; try reflexivity.
      exfalso. apply Hbad. eexists; reflexivity.
  - intros Ht Hg (e & Hin & Hbad).
    destruct (T Ht) as [ts Hts].
    destruct (G latitude Hg) as [la Hla]. destruct (G longitude Hg) as [lo Hlo].
    unfold dict_to_dataframe. rewrite Hts. cbn [bind]. rewrite (time_frame_Ok t ts Hts).
    cbn [bind]. rewrite Hla. cbn [bind]. rewrite Hlo. cbn [bind].
    rewrite pl_DataFrame_same_length.
    2:{ repeat constructor; simpl.
        - rewrite (mapM_length _ _ _ _ _ Hla). symmetry. apply length_keys_values.
        - rewrite (mapM_length _ _ _ _ _ Hlo). symmetry. apply length_keys_values. }
    cbn [bind].
    rewrite (mapM_raise _ _ (fun e => s <- entry_speed e ;; Ok (speed s)) (KeyError "speed"));
      [reflexivity | |].
    + intros a _. apply entry_speed_cases.
    + exists e. split; [exact Hin |]. destruct e; try reflexivity.
      exfalso. apply Hbad. eexists; reflexivity.
Qed.

Lemma dict_to_dataframe_wrong_kind_witness :
  dict_to_dataframe ref_join_order sample_time [(0%Z, ErrorEntry); (6%Z, ErrorEntry)]
    sample_speed =
  Raise (KeyError "gps").
Proof.
  apply (proj1 (proj2 (dict_to_dataframe_wrong_kind ref_join_order sample_time
                         [(0%Z, ErrorEntry); (6%Z, ErrorEntry)] sample_speed))).
  - repeat constructor; eexists; reflexivity.
  - exists ErrorEntry. split; [left; reflexivity |]. intros [c Hc]. discriminate Hc.
Defined.

Lemma positions_from_NoDup : forall k rk j,
  NoDup rk ->
  map (fun _ : nat => k) (positions_from k rk j) =
  if existsb (Z.eqb k) rk then [k] else [].
Proof.
  induction rk as [| x rk IH]; intros j Hnd; [reflexivity |].
  inversion Hnd as [| x' rk' Hx Hrk]; subst. cbn [positions_from existsb].
  rewrite (Z.eqb_sym k x). destruct (Z.eqb_spec x k) as [-> | Hne]; cbn [orb map].
  - destruct (positions_from k rk (S j)) eqn:E; [reflexivity |].
    exfalso. apply Hx. apply (positions_from_In k rk (S j)). rewrite E. discriminate.
  - apply IH. exact Hrk.
Qed.

Lemma joined_keys_NoDup : forall lk rk,
  NoDup rk -> joined_keys lk rk = filter (fun k => existsb (Z.eqb k) rk) lk.
Proof.
  intros lk rk Hnd. unfold joined_keys.
  induction lk as [| k lk IH]; [reflexivity |]. cbn [flat_map filter].
  rewrite IH, (positions_from_NoDup k rk 0 Hnd).
  destruct (existsb (Z.eqb k) rk); reflexivity.
Qed.

Lemma filter_filter : forall (A : Type) (p q : A -> bool) l,
  filter q (filter p l) = filter (fun x => p x && q x) l.
Proof.
  induction l as [| x l IH]; [reflexivity |]. simpl.
  destruct (p x); simpl; [destruct (q x); rewrite IH; reflexivity | exact IH].
Qed.

(** X6: when the gps and the speed stream have each key once, as Python
    dicts do, the assembled table has exactly one row for every key of the
    time stream that the other two streams hold as well: its frame_index
    column is a permutation of these keys, in an order that is the one of
    polars' joins. *)
Theorem dict_to_dataframe_rows :
  forall join_order, (forall l, Permutation (join_order l) l) ->
  forall time_dict gps_dict speed_dict df,
  NoDup (keys gps_dict) -> NoDup (keys speed_dict) ->
  dict_to_dataframe join_order time_dict gps_dict speed_dict = Ok df ->
  exists ks,
    column df "frame_index" = Ok (SInt ks) /\
    Permutation ks (filter (fun k => existsb (Z.eqb k) (keys gps_dict) &&
                                     existsb (Z.eqb k) (keys speed_dict))
                           (keys time_dict)).
Proof.
  intros join_order Hperm t g s df Hg Hs H.
  destruct (dict_to_dataframe_keys join_order Hperm _ _ _ _ H) as (ks & Hk & Hp).
  apply int_column_Ok in Hk. exists ks. split; [exact Hk |].
  rewrite (joined_keys_NoDup _ _ Hs), (joined_keys_NoDup _ _ Hg), filter_filter in Hp.
  exact Hp.
Qed.

Lemma dict_to_dataframe_rows_witness :
  exists ks,
    column sample_joined "frame_index" = Ok (SInt ks) /\
    Permutation ks (filter (fun k => existsb (Z.eqb k) (keys sample_gps) &&
                                     existsb (Z.eqb k) (keys sample_speed))
                           (keys sample_time)).
Proof.
  apply (dict_to_dataframe_rows ref_join_order (fun l => Permutation_refl l)
           sample_time sample_gps sample_speed sample_joined).
  - repeat constructor; simpl; intuition discriminate.
  - repeat constructor; simpl; intuition discriminate.
  - vm_compute. reflexivity.
Defined.

(* ================================================================== *)
(** * The videos of a directory *)

Lemma chars_append : forall s t : string, chars (s ++ t) = chars s ++ chars t.
Proof.
  induction s as [| a s IH]; intros t; [reflexivity |].
  unfold chars in *. simpl. rewrite IH. reflexivity.
Qed.

Lemma str_append : forall s t : text, str (s ++ t) = (str s ++ str t)%string.
Proof.
  induction s as [| a s IH]; intros t; [reflexivity |].
  unfold str in *. simpl. rewrite IH. reflexivity.
Qed.

Lemma string_append_assoc : forall a b c : string,
  ((a ++ b) ++ c)%string = (a ++ b ++ c)%string.
Proof.
  induction a as [| x a IH]; intros b c; [reflexivity |]. simpl. rewrite IH. reflexivity.
Qed.

Lemma rstrip_subdirectory : forall (d : string) (name : text),
  name <> [] -> none_in (lit "/"%char) name ->
  rstrip (d ++ "/" ++ str name) = (d ++ "/" ++ str name)%string.
Proof.
  intros d name Hne Hs.
  assert (E : (d ++ "/" ++ str name)%string = str ((chars d ++ ["/"%char]) ++ name)).
  { rewrite !str_append. unfold str at 1, chars.
    rewrite string_of_list_ascii_of_string. rewrite string_append_assoc. reflexivity. }
  rewrite E. apply rstrip_str; assumption.
Qed.

(** X7: [directory_to_dataframe] returns a table only for a video directory
    that exists together with its three subdirectories time, gps and speed. *)
Theorem directory_to_dataframe_needs : forall join_order fs input_dir df,
  directory_to_dataframe join_order fs input_dir = Ok df ->
  path_exists fs (rstrip input_dir) = true /\
  path_exists fs (rstrip input_dir ++ "/time") = true /\
  path_exists fs (rstrip input_dir ++ "/gps") = true /\
  path_exists fs (rstrip input_dir ++ "/speed") = true.
Proof.
  intros join_order fs input_dir df H. unfold directory_to_dataframe in H.
  destruct (path_exists fs (rstrip input_dir)); [| discriminate].
  bind_split H as t Ht. bind_split H as g Hg. bind_split H as s Hs.
  apply image_directory_to_dict_Ok in Ht, Hg, Hs.
  destruct Ht as [Ht _], Hg as [Hg _], Hs as [Hs _].
  assert (R : forall name, name <> [] -> none_in (lit "/"%char) name ->
            rstrip (rstrip input_dir ++ "/" ++ str name) =
            (rstrip input_dir ++ "/" ++ str name)%string)
    by (intros name; apply rstrip_subdirectory).
  pose proof (R (chars "time") ltac:(discriminate) ltac:(repeat constructor)) as Rt.
  pose proof (R (chars "gps") ltac:(discriminate) ltac:(repeat constructor)) as Rg.
  pose proof (R (chars "speed") ltac:(discriminate) ltac:(repeat constructor)) as Rs.
  change ("/" ++ str (chars "time"))%string with "/time"%string in Rt.
  change ("/" ++ str (chars "gps"))%string with "/gps"%string in Rg.
  change ("/" ++ str (chars "speed"))%string with "/speed"%string in Rs.
  rewrite Rt in Ht. rewrite Rg in Hg. rewrite Rs in Hs.
  repeat split; assumption.
Qed.

Lemma vstack_column : forall a b c name s,
  vstack a b = Ok c -> column a name = Ok s ->
  exists s', column b name = Ok s' /\ same_dtype s s' = true /\
             column c name = Ok (append_series s s').
Proof.
  induction a as [| [n sa] a IH]; intros b c name s H Hc; [discriminate Hc |].
  destruct b as [| [n' sb] b]; [discriminate H |]. cbn [vstack] in H.
  destruct (String.eqb_spec n n') as [<- | Hne]; [| discriminate H].
  destruct (same_dtype sa sb) eqn:Ed; [| discriminate H]. cbn [andb] in H.
  bind_split H as rest Hrest. inversion H; subst c. cbn [column] in *.
  destruct (String.eqb n name).
  - inversion Hc; subst s. exists sb. auto.
  - apply (IH b rest name s Hrest Hc).
Qed.

Lemma vstack_int_column : forall a b c name xs,
  vstack a b = Ok c -> int_column a name = Ok xs ->
  exists ys, int_column b name = Ok ys /\ int_column c name = Ok (xs ++ ys).
Proof.
  intros a b c name xs H Hx. apply int_column_Ok in Hx.
  destruct (vstack_column a b c name (SInt xs) H Hx) as (s' & Hb & Hd & Hc).
  destruct s' as [ys | ys | ys]; try discriminate Hd.
  exists ys. unfold int_column. rewrite Hb, Hc. split; reflexivity.
Qed.

Lemma directory_to_dataframe_keys : forall join_order fs input_dir df,
  directory_to_dataframe join_order fs input_dir = Ok df ->
  exists ks, int_column df "frame_index" = Ok ks.
Proof.
  intros join_order fs input_dir df H. unfold directory_to_dataframe in H.
  destruct (path_exists fs (rstrip input_dir)); [| discriminate].
  bind_split H as t Ht. bind_split H as g Hg. bind_split H as s Hs.
  apply (dict_to_dataframe_int_column _ _ _ _ _ H).
Qed.

Lemma stack_directories_keys : forall join_order fs input_dir subfolders base_df df ks0,
  stack_directories join_order fs input_dir subfolders base_df = Ok df ->
  int_column base_df "frame_index" = Ok ks0 ->
  exists kss,
    Forall2 (fun sub ks => exists d,
               directory_to_dataframe join_order fs (input_dir ++ "/" ++ sub) = Ok d /\
               int_column d "frame_index" = Ok ks) subfolders kss /\
    int_column df "frame_index" = Ok (ks0 ++ concat kss).
Proof.
  intros join_order fs input_dir.
  induction subfolders as [| sub rest IH]; intros base_df df ks0 H Hb.
  - inversion H; subst. exists []. split; [constructor |].
    simpl. rewrite app_nil_r. exact Hb.
  - cbn [stack_directories] in H. bind_split H as d Hd. bind_split H as base' Hv.
    destruct (vstack_int_column _ _ _ _ _ Hv Hb) as (ys & Hy & Hc).
    destruct (IH base' df (ks0 ++ ys) H Hc) as (kss & HF & Hk).
    exists (ys :: kss). split.
    + constructor; [exists d; split; assumption | exact HF].
    + simpl. rewrite app_assoc. exact Hk.
Qed.

(** X8: [all_directories_to_dataframe] refuses a directory without
    subfolders; otherwise the frame_index column of the table it returns is
    the frame_index columns of the videos one after the other, in the order
    of the directory listing: the frame numbers start again with every
    video. *)
Theorem all_directories_to_dataframe_rows : forall join_order fs input_dir,
  path_exists fs (rstrip input_dir) = true ->
  (listdir fs (rstrip input_dir) = Ok [] ->
   exists msg,
     all_directories_to_dataframe join_order fs input_dir = Raise (AssertionError msg)) /\
  (forall subfolders df,
     listdir fs (rstrip input_dir) = Ok subfolders ->
     all_directories_to_dataframe join_order fs input_dir = Ok df ->
     exists kss,
       Forall2 (fun sub ks => exists d,
                  directory_to_dataframe join_order fs (rstrip input_dir ++ "/" ++ sub) =
                  Ok d /\
                  int_column d "frame_index" = Ok ks) subfolders kss /\
       int_column df "frame_index" = Ok (concat kss)).
Proof.
  intros join_order fs input_dir Hex. split.
  - intros Hls. unfold all_directories_to_dataframe. rewrite Hex, Hls. cbn [bind].
    eexists. reflexivity.
  - intros subfolders df Hls H. unfold all_directories_to_dataframe in H.
    rewrite Hex, Hls in H. cbn [bind] in H.
    destruct subfolders as [| first rest]; [discriminate H |].
    bind_split H as base Hbase.
    destruct (directory_to_dataframe_keys _ _ _ _ Hbase) as [ks0 Hk0].
    destruct (stack_directories_keys _ _ _ _ _ _ _ H Hk0) as (kss & HF & Hk).
    exists (ks0 :: kss). split; [| exact Hk].
    constructor; [exists base; split; assumption | exact HF].
Qed.

Lemma directory_to_dataframe_needs_witness :
  path_exists sample_tree (rstrip "../frames/010243F/") = true /\
  path_exists sample_tree (rstrip "../frames/010243F/" ++ "/time") = true /\
  path_exists sample_tree (rstrip "../frames/010243F/" ++ "/gps") = true /\
  path_exists sample_tree (rstrip "../frames/010243F/" ++ "/speed") = true.
Proof.
  apply (directory_to_dataframe_needs ref_join_order sample_tree
           "../frames/010243F/"%string sample_video_table).
  vm_compute. reflexivity.
Defined.

Lemma all_directories_to_dataframe_rows_witness :
  exists kss,
    Forall2 (fun sub ks => exists d,
               directory_to_dataframe ref_join_order sample_tree
                 (rstrip "../frames/" ++ "/" ++ sub) = Ok d /\
               int_column d "frame_index" = Ok ks) ["010243F"; "010244F"]%string kss /\
    int_column sample_trip_table "frame_index" = Ok (concat kss).
Proof.
  apply (proj2 (all_directories_to_dataframe_rows ref_join_order sample_tree
                  "../frames/"%string eq_refl)
           ["010243F"; "010244F"]%string sample_trip_table).
  - reflexivity.
  - vm_compute. reflexivity.
Defined.

(* ================================================================== *)
(** * What the parsers return *)

Lemma seg_ok_digits : forall n seg, seg_ok (Rep is_digit n (Some n)) seg -> digits n seg.
Proof.
  intros n seg H. split; [exact (seg_ok_all _ _ _ _ H) | exact (seg_ok_length _ _ _ H)].
Qed.

(** the shape of a timestamp match: the six groups of the pattern *)
Lemma timestamp_groups : forall s gs,
  re_search regex_timestamp_pattern s = Some gs ->
  exists dd mo yyyy hh mi ss,
    gs = [dd; mo; yyyy; hh; mi; ss] /\
    digits 2 dd /\ digits 2 mo /\ digits 4 yyyy /\
    digits 2 hh /\ digits 2 mi /\ digits 2 ss.
Proof.
  intros s gs H. unfold re_search in H.
  destruct (search (nodes_of regex_timestamp_pattern) (list_ascii_of_string s))
    as [segs |] eqn:E; simpl in H; [| discriminate].
  inversion H; subst gs; clear H.
  pose proof (search_sound _ _ _ E) as [HF _]. cbn in HF.
  repeat match goal with
         | HF : Forall2 seg_ok (_ :: _) _ |- _ => inversion HF; subst; clear HF
         | HF : Forall2 seg_ok [] _ |- _ => inversion HF; subst; clear HF
         end.
  cbn [regex_timestamp_pattern groups_of length firstn skipn concat app].
  repeat rewrite app_nil_r.
  repeat match goal with
         | H : seg_ok (Rep is_digit _ (Some _)) _ |- _ => apply seg_ok_digits in H
         end.
  do 6 eexists. split; [reflexivity |]. repeat (split; [assumption |]). assumption.
Qed.

Lemma timestamp_canonical : forall dd mo yyyy hh mi ss,
  digits 2 dd -> digits 2 mo -> digits 4 yyyy ->
  digits 2 hh -> digits 2 mi -> digits 2 ss ->
  text_to_timestamp
    (str (dd ++ "-"%char :: mo ++ "-"%char :: yyyy ++ " "%char ::
          hh ++ ":"%char :: mi ++ ":"%char :: ss)) =
  str (dd ++ "-"%char :: mo ++ "-"%char :: yyyy ++ " "%char ::
       hh ++ ":"%char :: mi ++ ":"%char :: ss).
Proof.
  intros dd mo yyyy hh mi ss Hdd Hmo Hyyyy Hhh Hmi Hss.
  unfold text_to_timestamp. rewrite re_search_str.
  assert (M : match_here (nodes_of regex_timestamp_pattern)
                (dd ++ "-"%char :: mo ++ "-"%char :: yyyy ++ " "%char ::
                 hh ++ ":"%char :: mi ++ ":"%char :: ss) =
              Some [dd; ["-"%char]; mo; ["-"%char]; yyyy; [" "%char]; hh; [":"%char]; mi;
                    []; [":"%char]; ss]).
  { pose proof (timestamp_match dd ["-"%char] mo ["-"%char] yyyy [" "%char] hh [":"%char]
                  mi [":"%char] ss [] Hdd Hmo Hyyyy Hhh Hmi Hss) as M.
    rewrite app_nil_r in M. apply M; repeat constructor. }
  rewrite (search_here _ _ _ M).
  cbn [option_map groups_of regex_timestamp_pattern length firstn skipn concat app].
  repeat rewrite app_nil_r. reflexivity.
Qed.

(** X9: [text_to_timestamp] returns a fixed point of itself: a canonical
    stamp is matched again and returned as it is, and an input without a
    match is returned unchanged both times. *)
Theorem text_to_timestamp_idempotent : forall s,
  text_to_timestamp (text_to_timestamp s) = text_to_timestamp s.
Proof.
  intros s. destruct (re_search regex_timestamp_pattern s) as [gs |] eqn:E.
  - destruct (timestamp_groups s gs E)
      as (dd & mo & yyyy & hh & mi & ss & -> & Hdd & Hmo & Hyyyy & Hhh & Hmi & Hss).
    assert (Hs : text_to_timestamp s =
                 str (dd ++ "-"%char :: mo ++ "-"%char :: yyyy ++ " "%char ::
                      hh ++ ":"%char :: mi ++ ":"%char :: ss)).
    { unfold text_to_timestamp. rewrite E. reflexivity. }
    rewrite Hs. apply timestamp_canonical; assumption.
  - assert (Hs : text_to_timestamp s = s).
    { unfold text_to_timestamp. rewrite E. reflexivity. }
    rewrite Hs. exact Hs.
Qed.

Lemma digit_value_range : forall a, is_digit a = true -> (0 <= digit_value a <= 9)%Z.
Proof.
  intros a H. unfold is_digit, between in H. apply andb_prop in H. destruct H as [H1 H2].
  apply Nat.leb_le in H1, H2. unfold digit_value. lia.
Qed.

Lemma digits_value_snoc : forall ds a,
  digits_value (ds ++ [a]) = (10 * digits_value ds + digit_value a)%Z.
Proof. intros ds a. unfold digits_value. rewrite fold_left_app. reflexivity. Qed.

Lemma digits_value_bound : forall ds,
  all_in is_digit ds -> (0 <= digits_value ds < 10 ^ Z.of_nat (length ds))%Z.
Proof.
  induction ds as [| a ds IH] using rev_ind; intros H.
  - simpl. unfold digits_value. simpl. lia.
  - apply Forall_app in H. destruct H as [Hds Ha]. inversion Ha; subst.
    specialize (IH Hds). pose proof (digit_value_range a H1) as Hr.
    rewrite digits_value_snoc, length_app. simpl length.
    rewrite Nat2Z.inj_add. change (Z.of_nat 1) with 1%Z.
    rewrite Z.pow_add_r by lia. lia.
Qed.

(** the shape of a speed match: the two groups of the pattern *)
Lemma speed_groups : forall s gs,
  re_search regex_speed_pattern s = Some gs ->
  exists ds unit rest,
    gs = [ds; unit ++ rest] /\
    all_in is_digit ds /\ 1 <= length ds <= 3 /\
    all_in is_alpha unit /\ 3 <= length unit /\ all_in not_newline rest.
Proof.
  intros s gs H. unfold re_search in H.
  destruct (search (nodes_of regex_speed_pattern) (list_ascii_of_string s))
    as [segs |] eqn:E; simpl in H; [| discriminate].
  inversion H; subst gs; clear H.
  pose proof (search_sound _ _ _ E) as [HF _]. cbn in HF.
  repeat match goal with
         | HF : Forall2 seg_ok (_ :: _) _ |- _ => inversion HF; subst; clear HF
         | HF : Forall2 seg_ok [] _ |- _ => inversion HF; subst; clear HF
         end.
  cbn [regex_speed_pattern groups_of length firstn skipn concat app].
  repeat rewrite app_nil_r.
  match goal with
  | H1 : seg_ok (Rep is_digit 1 (Some 3)) ?ds,
    H2 : seg_ok (Rep is_alpha 3 None) ?u,
    H3 : seg_ok (star not_newline) ?r |- _ =>
      exists ds, u, r; split; [reflexivity |];
      inversion H1; subst; inversion H2; subst; inversion H3; subst
  end.
  repeat split; try assumption.
  match goal with H : forall h, Some 3 = Some h -> _ |- _ => apply (H 3 eq_refl) end.
Qed.

(** X10: [text_to_speed] never raises, the speed it returns is between 0
    and 999, and the units start with at least three letters and hold no
    line feed. *)
Theorem text_to_speed_range : forall s,
  exists r, text_to_speed s = Ok r /\
    (0 <= speed r <= 999)%Z /\
    exists unit rest,
      chars (speed_units r) = unit ++ rest /\
      all_in is_alpha unit /\ 3 <= length unit /\ all_in not_newline rest.
Proof.
  intros s. unfold text_to_speed.
  destruct (re_search regex_speed_pattern s) as [gs |] eqn:E.
  - destruct (speed_groups s gs E) as (ds & u & rest & -> & Hds & Hlen & Hu & Hul & Hrest).
    rewrite py_int_digits; [| exact Hds | intros ->; simpl in Hlen; lia].
    cbn [bind]. eexists. split; [reflexivity |]. cbn [speed speed_units]. split.
    + pose proof (digits_value_bound ds Hds) as Hb.
      assert ((10 ^ Z.of_nat (length ds) <= 10 ^ 3)%Z)
        by (apply Z.pow_le_mono_r; lia).
      lia.
    + exists u, rest. unfold chars. rewrite list_ascii_of_string_of_list_ascii.
      repeat split; assumption.
  - eexists. split; [reflexivity |]. cbn [speed speed_units]. split; [lia |].
    exists (chars "MPH"), []. repeat split; try reflexivity; repeat constructor.
Qed.

(* ================================================================== *)
(** * The names of image files *)

Lemma search_found : forall ns pre s r,
  match_here ns s = Some r -> exists r', search ns (pre ++ s) = Some r'.
Proof.
  induction pre as [| a pre IH]; intros s r H.
  - exists r. apply search_here. exact H.
  - cbn [app search]. destruct (match_here ns (a :: pre ++ s)) as [r0 |].
    + exists r0. reflexivity.
    + apply (IH s r H).
Qed.

Lemma extension_match : forall ext e,
  map lower e = chars ext ->
  Forall (fun c => lower c = c) (chars ext) ->
  exists r, match_here (one (lit "."%char) :: literal_nocase ext ++ [Eos])
                       ("."%char :: e) = Some r.
Proof.
  intros ext e. unfold literal_nocase, chars. generalize (list_ascii_of_string ext) as l.
  intros l Hl Hlow.
  assert (M : exists r, match_here (map (fun c => one (lit_nocase c)) l ++ [Eos]) e = Some r).
  { clear - Hl Hlow. revert e Hl. induction l as [| c l IH]; intros e Hl.
    - destruct e; [| discriminate]. eexists. reflexivity.
    - destruct e as [| a e]; [discriminate |]. simpl in Hl. inversion Hl; subst.
      inversion Hlow as [| c' l' Hc Hl']; subst.
      destruct (IH Hl' e eq_refl) as [r Hr].
      exists ([a] :: r). cbn [map app]. unfold one at 1.
      apply (greedy_exact (lit_nocase (lower a)) 1 _ [a] e r); [| reflexivity | exact Hr].
      constructor; [| constructor]. unfold lit_nocase. rewrite Hc. apply Ascii.eqb_refl. }
  destruct M as [r Hr]. exists (["."%char] :: r). apply match_here_lit. exact Hr.
Qed.

(** X11: a file whose name ends with a point and jpg, jpeg or png, in
    capitals or not, is taken as an image, whatever stands before. *)
Theorem is_image_extension : forall pre e,
  map lower e = chars "jpg" \/ map lower e = chars "jpeg" \/ map lower e = chars "png" ->
  is_image (str (pre ++ "."%char :: e)) = true.
Proof.
  intros pre e H. unfold is_image, regex_image_pattern. cbn [map existsb].
  rewrite !re_search_str.
  cbn [nodes_of flat_map piece_nodes app].
  destruct H as [H | [H | H]].
  - destruct (extension_match "jpg" e H ltac:(repeat constructor)) as [r Hr].
    destruct (search_found _ pre _ r Hr) as [r' Hr'].
    cbn [app] in Hr'. rewrite Hr'. reflexivity.
  - destruct (extension_match "jpeg" e H ltac:(repeat constructor)) as [r Hr].
    destruct (search_found _ pre _ r Hr) as [r' Hr'].
    cbn [app] in Hr'. rewrite Hr'. cbn [option_map]. apply orb_true_r.
  - destruct (extension_match "png" e H ltac:(repeat constructor)) as [r Hr].
    destruct (search_found _ pre _ r Hr) as [r' Hr'].
    cbn [app] in Hr'. rewrite Hr'. cbn [option_map]. rewrite !orb_true_r. reflexivity.
Qed.

Lemma is_image_extension_witness : is_image "clip.7/frame_12.JpEg" = true.
Proof.
  apply (is_image_extension (chars "clip.7/frame_12") (chars "JpEg")).
  right. left. reflexivity.
Defined.

(* ================================================================== *)
(** * The rows the cleaner keeps *)

Lemma mask_list_nil_r : forall (A : Type) m, mask_list m (@nil A) = [].
Proof. intros A m. destruct m; reflexivity. Qed.

(** two filters in a row are one filter *)
Lemma mask_list_compose : forall m1 m2,
  exists m, length m = length m1 /\
    forall (A : Type) (xs : list A), length xs = length m1 ->
      mask_list m2 (mask_list m1 xs) = mask_list m xs.
Proof.
  induction m1 as [| b m1 IH]; intros m2.
  - exists []. split; [reflexivity |]. intros A xs Hl.
    destruct xs; [| discriminate]. simpl. apply mask_list_nil_r.
  - destruct b.
    + destruct m2 as [| c m2].
      * destruct (IH []) as (m & Hm & Hc). exists (false :: m).
        split; [simpl; congruence |]. intros A xs Hl.
        destruct xs as [| x xs]; [discriminate |]. simpl in Hl.
        simpl. rewrite <- (Hc A xs) by congruence. reflexivity.
      * destruct (IH m2) as (m & Hm & Hc). exists (c :: m).
        split; [simpl; congruence |]. intros A xs Hl.
        destruct xs as [| x xs]; [discriminate |]. simpl in Hl.
        destruct c; simpl; rewrite (Hc A xs) by congruence; reflexivity.
    + destruct (IH m2) as (m & Hm & Hc). exists (false :: m).
      split; [simpl; congruence |]. intros A xs Hl.
      destruct xs as [| x xs]; [discriminate |]. simpl in Hl.
      simpl. apply Hc. congruence.
Qed.

Lemma mask_series_compose : forall m1 m2,
  exists m, length m = length m1 /\
    forall s, series_len s = length m1 ->
      mask_series m2 (mask_series m1 s) = mask_series m s.
Proof.
  intros m1 m2. destruct (mask_list_compose m1 m2) as (m & Hm & Hc).
  exists m. split; [exact Hm |]. intros s Hs.
  destruct s; simpl in *; rewrite Hc by exact Hs; reflexivity.
Qed.

Lemma filter_rows_selected : forall skip df m df',
  filter_rows df m = Ok df' -> selected skip m df df'.
Proof.
  intros skip df m df' H. destruct (filter_rows_Ok _ _ _ H) as [-> Hr].
  intros name s _ Hc. split.
  - rewrite (column_map (mask_series m)), Hc. reflexivity.
  - apply (rect_column _ _ _ _ Hr Hc).
Qed.

Lemma selected_masked : forall skip m1 a b c,
  selected skip m1 a b -> masked b c ->
  exists m, length m = length m1 /\ selected skip m a c.
Proof.
  intros skip m1 a b c Hs [m2 Hf].
  destruct (mask_series_compose m1 m2) as (m & Hm & Hc).
  exists m. split; [exact Hm |]. intros name s Hn Ha.
  destruct (Hs name s Hn Ha) as [Hb Hl].
  destruct (filter_rows_selected [] _ _ _ Hf name _ (fun x => x) Hb) as [Hcc _].
  split; [| congruence]. rewrite Hcc, (Hc s Hl). reflexivity.
Qed.

Lemma selected_with_column : forall skip m a b n s c,
  selected skip m a b -> with_column b n s = Ok c -> In n skip ->
  selected skip m a c.
Proof.
  intros skip m a b n s c Hs Hw Hin name s0 Hn Ha.
  destruct (Hs name s0 Hn Ha) as [Hb Hl]. split; [| exact Hl].
  rewrite (with_column_other _ _ _ _ name Hw); [exact Hb |].
  apply String.eqb_neq. intros ->. contradiction.
Qed.

Lemma drop_inv : forall df name df',
  drop df name = Ok df' -> df' = filter (fun c => negb (String.eqb (fst c) name)) df.
Proof.
  intros df name df' H. unfold drop in H.
  destruct (has_column df name); [| discriminate]. inversion H. reflexivity.
Qed.

Lemma py_range_inv : forall interval n l,
  py_range 0 (interval * Z.of_nat n) interval = Ok l ->
  interval <> 0%Z /\ l = multiples interval n.
Proof.
  intros interval n l H. destruct (Z.eq_dec interval 0) as [-> | Hne].
  - unfold py_range in H. simpl in H. discriminate.
  - split; [exact Hne |]. rewrite (py_range_multiples _ _ Hne) in H. congruence.
Qed.

Lemma not_in_neq : forall (name n : string) (l : list string),
  ~ In name l -> In n l -> String.eqb n name = false.
Proof.
  intros name n l Hn Hin. apply String.eqb_neq. intros ->. contradiction.
Qed.

(** the rows a mask keeps, by their position *)
Lemma mask_list_seq_In : forall m a k,
  In k (mask_list m (seq a (length m))) <->
  a <= k < a + length m /\ nth (k - a) m false = true.
Proof.
  induction m as [| b m IH]; intros a k; cbn [length seq mask_list].
  - split; [contradiction | intros [H _]; lia].
  - specialize (IH (S a) k).
    destruct (Nat.eq_dec k a) as [-> | Hne].
    + rewrite Nat.sub_diag. cbn [nth]. destruct b.
      * split; [intros _; split; [lia | reflexivity] | intros _; left; reflexivity].
      * split; [| intros [_ H]; discriminate H].
        intros H. apply IH in H. lia.
    + assert (E : forall x, a <= k -> nth (k - a) (x :: m) false = nth (k - S a) m false).
      { intros x Hle. replace (k - a) with (S (k - S a)) by lia. reflexivity. }
      destruct b; cbn [In]; rewrite IH; split.
      * intros [H | [H1 H2]]; [congruence |]. split; [lia |]. rewrite E by lia. exact H2.
      * intros [H1 H2]. right. split; [lia |]. rewrite <- (E true) by lia. exact H2.
      * intros [H1 H2]. split; [lia |]. rewrite E by lia. exact H2.
      * intros [H1 H2]. split; [lia |]. rewrite <- (E false) by lia. exact H2.
Qed.

Section Rows.

Variable mode_order : list Z -> list Z.
Variables mean std : list float -> option float.

(** lines 11-14 read the other way: what a table that left the reindexer
    holds *)
Lemma reindex_inv : forall df out,
  reindex mode_order df = Ok out ->
  exists interval,
    interval <> 0%Z /\
    column out "new_index" = Ok (SInt (multiples interval (height df))) /\
    forall name, ~ In name ["frame_index"; "frame_delta"; "new_index"]%string ->
                 column out name = column df name.
Proof.
  intros df out H. unfold reindex in H.
  bind_split H as fi Hfi. bind_split H as fd Hfd. bind_split H as d1 H1.
  bind_split H as interval Hi. bind_split H as new_index Hn. bind_split H as d2 H2.
  bind_split H as d3 H3.
  apply drop_inv in H. apply drop_inv in H3. subst out d3.
  rewrite (with_column_height _ _ _ _ H1 (column_nonempty _ _ _ Hfi)) in Hn.
  destruct (py_range_inv _ _ _ Hn) as [Hne ->].
  exists interval. split; [exact Hne |]. split.
  - rewrite !column_filter_other by reflexivity.
    apply (with_column_same _ _ _ _ H2).
  - intros name Hname.
    assert (E1 : String.eqb "frame_index" name = false)
      by (apply (not_in_neq _ _ _ Hname); simpl; tauto).
    assert (E2 : String.eqb "frame_delta" name = false)
      by (apply (not_in_neq _ _ _ Hname); simpl; tauto).
    assert (E3 : String.eqb "new_index" name = false)
      by (apply (not_in_neq _ _ _ Hname); simpl; tauto).
    rewrite !column_filter_other by assumption.
    rewrite (with_column_other _ _ _ _ name H2 E3).
    apply (with_column_other _ _ _ _ name H1 E2).
Qed.

Lemma outlier_filter_selected : forall df out,
  outlier_filter mean std df = Ok out ->
  exists m, selected ["lat_delta"; "lon_delta"]%string m df out.
Proof.
  intros df out H. unfold outlier_filter in H.
  bind_split H as d1 H1. bind_split H as d2 H2.
  destruct (domain_pass_masked _ _ H1) as (a1 & a2 & [m0 F0] & A2 & A3).
  destruct (magnitude_pass_masked _ _ _ _ H2) as (b1 & b2 & M1 & M2 & M3).
  destruct (delta_pass_steps _ _ _ _ H) as (ld & od & e1 & e2 & e3 & W1 & W2 & M4 & M5).
  pose proof (filter_rows_selected ["lat_delta"; "lon_delta"]%string _ _ _ F0) as S.
  destruct (selected_masked _ _ _ _ _ S A2) as (m1 & _ & S1).
  destruct (selected_masked _ _ _ _ _ S1 A3) as (m2 & _ & S2).
  destruct (selected_masked _ _ _ _ _ S2 M1) as (m3 & _ & S3).
  destruct (selected_masked _ _ _ _ _ S3 M2) as (m4 & _ & S4).
  destruct (selected_masked _ _ _ _ _ S4 M3) as (m5 & _ & S5).
  pose proof (selected_with_column _ _ _ _ _ _ _ S5 W1 ltac:(simpl; tauto)) as S6.
  pose proof (selected_with_column _ _ _ _ _ _ _ S6 W2 ltac:(simpl; tauto)) as S7.
  destruct (selected_masked _ _ _ _ _ S7 M4) as (m6 & _ & S8).
  destruct (selected_masked _ _ _ _ _ S8 M5) as (m7 & _ & S9).
  exists m7. exact S9.
Qed.

Lemma clean_dataframe_selected : forall df out file,
  clean_dataframe mode_order mean std df = Ok (out, file) ->
  exists m interval,
    length m = height df /\ interval <> 0%Z /\
    column out "new_index" = Ok (SInt (mask_list m (multiples interval (height df)))) /\
    forall name s,
      ~ In name ["frame_index"; "frame_delta"; "new_index"; "lat_delta"; "lon_delta"]%string ->
      column df name = Ok s -> column out name = Ok (mask_series m s).
Proof.
  intros df out file H.
  destruct (clean_dataframe_Ok _ _ _ _ _ _ H) as (d1 & Hr & Hf & _).
  destruct (reindex_inv _ _ Hr) as (interval & Hne & Hnew & Hother).
  destruct (outlier_filter_selected _ _ Hf) as (m & S).
  assert (Hskip : ~ In "new_index"%string ["lat_delta"; "lon_delta"]%string).
  { simpl. intros [E | [E | []]]; discriminate E. }
  destruct (S _ _ Hskip Hnew) as [Hout Hlen].
  simpl in Hlen. rewrite multiples_length in Hlen.
  exists m, interval. split; [symmetry; exact Hlen |]. split; [exact Hne |].
  split; [exact Hout |].
  intros name s Hname Hc.
  assert (Hn1 : ~ In name ["frame_index"; "frame_delta"; "new_index"]%string)
    by (simpl in *; tauto).
  assert (Hn2 : ~ In name ["lat_delta"; "lon_delta"]%string) by (simpl in *; tauto).
  rewrite <- (Hother name Hn1) in Hc.
  apply (S name s Hn2 Hc).
Qed.

(** X12: [clean_dataframe] only removes whole rows: one mask, as long as
    the input is high, gives every column of the result that the input had
    under the same name, apart from the index and delta columns, and the
    number of rows that are left. No value is changed and no row moves. *)
Theorem clean_dataframe_rows : forall df out file,
  clean_dataframe mode_order mean std df = Ok (out, file) ->
  exists m,
    length m = height df /\
    height out = length (filter (fun b => b) m) /\
    forall name s,
      ~ In name ["frame_index"; "frame_delta"; "new_index"; "lat_delta"; "lon_delta"]%string ->
      column df name = Ok s -> column out name = Ok (mask_series m s).
Proof.
  intros df out file H.
  destruct (clean_dataframe_selected _ _ _ H) as (m & interval & Hlen & _ & Hnew & Hcols).
  exists m. split; [exact Hlen |]. split; [| exact Hcols].
  destruct (clean_dataframe_Ok _ _ _ _ _ _ H) as (d1 & _ & Hf & _).
  destruct (outlier_filter_rect _ _ _ _ Hf) as [n Hr].
  rewrite (rect_height _ _ _ _ Hr Hnew).
  rewrite <- (rect_column _ _ _ _ Hr Hnew). simpl.
  apply mask_list_length. rewrite multiples_length. symmetry. exact Hlen.
Qed.

(** X13: the [new_index] column of the cleaned table is not counted again
    after the filters: it is the sequence 0, interval, 2*interval, ... of
    the input rows under the very mask that removes the rows, with an
    interval that is not zero. So the row kept from position [i] of the
    input carries [i * interval], and that value is in the column exactly
    when row [i] is kept: a removed row leaves a gap. *)
Theorem clean_dataframe_new_index : forall df out file,
  clean_dataframe mode_order mean std df = Ok (out, file) ->
  exists m interval,
    length m = height df /\ interval <> 0%Z /\
    (forall name s,
       ~ In name ["frame_index"; "frame_delta"; "new_index"; "lat_delta"; "lon_delta"]%string ->
       column df name = Ok s -> column out name = Ok (mask_series m s)) /\
    column out "new_index" = Ok (SInt (mask_list m (multiples interval (height df)))) /\
    forall i, i < height df ->
      (In (Z.of_nat i * interval)%Z (mask_list m (multiples interval (height df))) <->
       nth i m false = true).
Proof.
  intros df out file H.
  destruct (clean_dataframe_selected _ _ _ H) as (m & interval & Hlen & Hne & Hnew & Hcols).
  exists m, interval.
  split; [exact Hlen |]. split; [exact Hne |]. split; [exact Hcols |].
  split; [exact Hnew |].
  intros i Hi. unfold multiples. rewrite mask_list_map, in_map_iff.
  rewrite <- Hlen. split.
  - intros (k & Hk & Hin). apply mask_list_seq_In in Hin. destruct Hin as [_ Hin].
    rewrite Nat.sub_0_r in Hin.
    assert (k = i) as -> by nia. exact Hin.
  - intros Hm. exists i. split; [reflexivity |]. apply mask_list_seq_In.
    rewrite Nat.sub_0_r. split; [lia | exact Hm].
Qed.

End Rows.

Lemma clean_dataframe_rows_witness :
  exists m,
    length m = height sample_trip /\
    height sample_trip_cleaned = length (filter (fun b => b) m) /\
    forall name s,
      ~ In name ["frame_index"; "frame_delta"; "new_index"; "lat_delta"; "lon_delta"]%string ->
      column sample_trip name = Ok s ->
      column sample_trip_cleaned name = Ok (mask_series m s).
Proof.
  exact (clean_dataframe_rows ref_mode_order ref_mean ref_std sample_trip
           sample_trip_cleaned _ sample_trip_cleaned_eq).
Defined.

Lemma clean_dataframe_new_index_witness :
  exists m interval,
    length m = height gap_trip /\ interval <> 0%Z /\
    (forall name s,
       ~ In name ["frame_index"; "frame_delta"; "new_index"; "lat_delta"; "lon_delta"]%string ->
       column gap_trip name = Ok s -> column gap_trip_cleaned name = Ok (mask_series m s)) /\
    column gap_trip_cleaned "new_index" =
      Ok (SInt (mask_list m (multiples interval (height gap_trip)))) /\
    forall i, i < height gap_trip ->
      (In (Z.of_nat i * interval)%Z (mask_list m (multiples interval (height gap_trip))) <->
       nth i m false = true).
Proof.
  apply (clean_dataframe_new_index ref_mode_order ref_mean ref_std gap_trip
           gap_trip_cleaned
           ("../output/filtered_dashcam.csv"%string, gap_trip_cleaned)).
  vm_compute. reflexivity.
Defined.

(** the fifth frame of [gap_trip] is removed and the index 12 with it *)
Example gap_trip_new_index :
  column gap_trip_cleaned "new_index" =
  Ok (SInt [0; 3; 6; 9; 15; 18; 21; 24; 27; 30]%Z).
Proof. reflexivity. Qed.

(* ================================================================== *)
(** * What the reindexer refuses *)

Section ReindexRefusals.

Variable mode_order : list Z -> list Z.
Hypothesis mode_order_perm : forall l, Permutation (mode_order l) l.

(** X14: on a table without rows the reindexer fails with [IndexError]:
    the column of differences is empty, so it has no mode to take. *)
Theorem reindex_empty : forall df,
  column df "frame_index" = Ok (SInt []) -> height df = 0 ->
  reindex mode_order df = Raise IndexError.
Proof.
  intros df Hfi Hh. unfold reindex. rewrite Hfi. cbn [bind diff_fill diff fill_null map].
  pose proof (with_column_ok df "frame_delta" (SInt []) (column_nonempty _ _ _ Hfi)) as W.
  rewrite W by (rewrite Hh; reflexivity). cbn [bind].
  pose proof (with_column_same _ _ _ _ (W ltac:(rewrite Hh; reflexivity))) as Hs.
  unfold first_mode. rewrite Hs. cbn [bind].
  change (modes_of []) with (@nil Z).
  rewrite (Permutation_nil (Permutation_sym (mode_order_perm []))). reflexivity.
Qed.

(** X15: when no difference of consecutive frame indexes occurs as often
    as zero, the zero that [fill_null] puts in the first row counted, the
    interval is zero and the reindexer fails with the [ValueError] of
    [range]; this is so for every table of one row and for every constant
    frame index. *)
Theorem reindex_zero_interval : forall df xs,
  column df "frame_index" = Ok (SInt xs) -> height df = length xs -> xs <> [] ->
  (forall y, y <> 0%Z ->
     count y (fill_null 0%Z (diff xs)) < count 0%Z (fill_null 0%Z (diff xs))) ->
  reindex mode_order df = Raise ValueError.
Proof.
  intros df xs Hfi Hh Hne Hzero. unfold reindex. rewrite Hfi. cbn [bind diff_fill].
  pose proof (with_column_ok df "frame_delta" (SInt (fill_null 0%Z (diff xs)))
                (column_nonempty _ _ _ Hfi)) as W.
  assert (Hlen : series_len (SInt (fill_null 0%Z (diff xs))) = height df).
  { simpl. rewrite diff_fill_length. symmetry. exact Hh. }
  specialize (W Hlen). rewrite W. cbn [bind].
  pose proof (with_column_same _ _ _ _ W) as Hs.
  unfold first_mode. rewrite Hs. cbn [bind].
  assert (Hds : fill_null 0%Z (diff xs) <> []).
  { intros E. apply (f_equal (@length Z)) in E. rewrite diff_fill_length in E.
    destruct xs; [congruence | discriminate]. }
  destruct (first_mode_exists mode_order mode_order_perm _ Hds)
    as (interval & rest & Hm & _ & Hmax).
  rewrite Hm. cbn [bind].
  assert (interval = 0%Z) as ->.
  { destruct (Z.eq_dec interval 0) as [E | E]; [exact E |].
    specialize (Hzero interval E). specialize (Hmax 0%Z). lia. }
  reflexivity.
Qed.

End ReindexRefusals.

Lemma reindex_empty_witness :
  reindex ref_mode_order (dashcam [] [] [] [] [] []) = Raise IndexError.
Proof.
  apply (reindex_empty ref_mode_order (fun l => Permutation_refl l)
           (dashcam [] [] [] [] [] [])); reflexivity.
Defined.

Lemma reindex_zero_interval_witness :
  reindex ref_mode_order single_frame = Raise ValueError.
Proof.
  apply (reindex_zero_interval ref_mode_order (fun l => Permutation_refl l)
           single_frame [7%Z]).
  - reflexivity.
  - reflexivity.
  - discriminate.
  - intros y Hy. unfold count. cbn [fill_null diff diff_from map count_occ].
    destruct (Z.eq_dec 0 y) as [E | E]; [congruence |].
    destruct (Z.eq_dec 0 0) as [_ | E0]; [lia | congruence].
Defined.

(* ================================================================== *)
(** * Too few rows for a standard deviation *)

Lemma masked_column_Ok : forall df df' name s,
  masked df df' -> column df name = Ok s -> exists s', column df' name = Ok s'.
Proof.
  intros df df' name s Hm Hc. destruct (masked_column _ _ name Hm) as [m E].
  rewrite Hc in E. eexists. exact E.
Qed.

Lemma ref_std_short : forall xs, length xs <= 1 -> ref_std xs = None.
Proof.
  intros xs H. unfold ref_std. destruct (ref_mean xs); [| reflexivity].
  destruct (length xs <=? 1) eqn:E; [reflexivity |]. apply Nat.leb_gt in E. lia.
Qed.

Section ShortTable.

Variable mode_order : list Z -> list Z.
Variables mean std : list float -> option float.
Hypothesis std_short : forall xs, length xs <= 1 -> std xs = None.

(** X16: when at most one row passes the three domain filters,
    [clean_dataframe] fails with [TypeError]: the standard deviation of the
    latitude is [None] there, and the band of line 30 multiplies it (or
    takes the absolute value of a mean that is [None] as well). *)
Theorem clean_dataframe_short : forall df d1 d2 sp,
  reindex mode_order df = Ok d1 ->
  domain_pass d1 = Ok d2 ->
  height d2 <= 1 ->
  column df "speed" = Ok sp ->
  clean_dataframe mode_order mean std df = Raise TypeError.
Proof.
  intros df d1 d2 sp Hr Hd Hh Hsp.
  unfold clean_dataframe, outlier_filter. rewrite Hr. cbn [bind]. rewrite Hd. cbn [bind].
  destruct (domain_pass_holds _ _ Hd)
    as [(slat & lats & Clat & Alat & _) (slon & lons & Clon & Alon & _)].
  destruct (reindex_inv mode_order _ _ Hr) as (interval & _ & _ & Hother).
  assert (Hsp1 : column d1 "speed" = Ok sp).
  { rewrite Hother; [exact Hsp |]. simpl. intros [E | [E | [E | []]]]; discriminate E. }
  destruct (domain_pass_masked _ _ Hd) as (a1 & a2 & A1 & A2 & A3).
  destruct (masked_column_Ok _ _ _ _ A1 Hsp1) as [sp2 Hsp2].
  destruct (masked_column_Ok _ _ _ _ A2 Hsp2) as [sp3 Hsp3].
  destruct (masked_column_Ok _ _ _ _ A3 Hsp3) as [sp4 Hsp4].
  destruct (masked_rect _ _ A3) as [n Hrect].
  assert (Hn : series_len slat <= 1).
  { rewrite (rect_column _ _ _ _ Hrect Clat).
    rewrite <- (rect_height _ _ _ _ Hrect Clat). exact Hh. }
  assert (Hstd : series_stat std slat = None).
  { destruct slat as [xs | xs | xs]; simpl in *.
    - apply std_short. rewrite length_map. exact Hn.
    - apply std_short. exact Hn.
    - reflexivity. }
  unfold magnitude_pass, column_stat. rewrite Clat, Clon, Hsp4. cbn [bind].
  unfold band_filter at 1. rewrite Clat. cbn [bind]. rewrite Alat. cbn [bind].
  rewrite Hstd. destruct (series_stat mean slat); reflexivity.
Qed.

End ShortTable.

Lemma clean_dataframe_short_witness :
  clean_dataframe ref_mode_order ref_mean ref_std
    (dashcam [0; 3; 6]%Z (repeat "08-04-2024 11:04:13"%string 3)
             [0%float; 0%float; 30.5%float] (repeat (-97.5)%float 3)
             (repeat 50%Z 3) (repeat "MPH"%string 3)) = Raise TypeError.
Proof.
  eapply (clean_dataframe_short ref_mode_order ref_mean ref_std ref_std_short).
  - vm_compute. reflexivity.
  - vm_compute. reflexivity.
  - vm_compute. apply le_n.
  - reflexivity.
Defined.

(* ================================================================== *)
(** * Paths and file names *)

Lemma rstrip_slash_trailing : forall l, rstrip_slash (l ++ ["/"%char]) = rstrip_slash l.
Proof.
  induction l as [| a l IH]; simpl; [reflexivity |]. rewrite IH. reflexivity.
Qed.

Lemma rstrip_trailing : forall d : string, rstrip (d ++ "/") = rstrip d.
Proof.
  intros d. unfold rstrip.
  change (list_ascii_of_string (d ++ "/")) with (chars (d ++ "/")).
  rewrite chars_append. change (chars "/") with ["/"%char].
  rewrite rstrip_slash_trailing. reflexivity.
Qed.

(** X17: a slash at the end of the directory changes nothing: the three
    readers and the writer do the same with [d/] as with [d]. *)
Theorem trailing_slash_ignored : forall join_order fs df (d name : string),
  image_directory_to_dict fs (d ++ "/") = image_directory_to_dict fs d /\
  directory_to_dataframe join_order fs (d ++ "/") =
  directory_to_dataframe join_order fs d /\
  all_directories_to_dataframe join_order fs (d ++ "/") =
  all_directories_to_dataframe join_order fs d /\
  write_dataframe_to_file df (d ++ "/") name = write_dataframe_to_file df d name.
Proof.
  intros join_order fs df d name.
  unfold image_directory_to_dict, directory_to_dataframe, all_directories_to_dataframe,
    write_dataframe_to_file.
  rewrite !rstrip_trailing. repeat split; reflexivity.
Qed.

Lemma suffix_match : forall pre ds post,
  none_in is_digit pre -> all_in is_digit ds -> ds <> [] -> stops is_digit post ->
  match_here (nodes_of regex_suffix_pattern) (pre ++ ds ++ post) =
  Some [pre; ds; take_while non_digit post].
Proof.
  intros pre ds post Hpre Hds Hne Hpost.
  cbn [nodes_of regex_suffix_pattern flat_map piece_nodes app].
  apply greedy_star.
  - eapply Forall_impl; [| exact Hpre]. intros a Ha. unfold non_digit. rewrite Ha. reflexivity.
  - destruct ds as [| a ds]; [congruence |]. inversion Hds; subst. simpl.
    apply digit_not_non_digit. assumption.
  - apply greedy_plus; [exact Hds | destruct ds; [congruence | simpl; lia] | exact Hpost |].
    rewrite <- (take_drop_while non_digit post) at 1.
    apply greedy_star; [apply take_while_all | apply drop_while_stops | reflexivity].
Qed.

(** X18: the sort key of a file name is the number written by its first
    run of digits; what follows that run, digits included, is not read. *)
Theorem frame_number_first_digits : forall pre ds post,
  none_in is_digit pre -> all_in is_digit ds -> ds <> [] -> stops is_digit post ->
  frame_number (str (pre ++ ds ++ post)) = Ok (digits_value ds).
Proof.
  intros pre ds post Hpre Hds Hne Hpost. unfold frame_number.
  rewrite re_search_str.
  rewrite (search_here _ _ _ (suffix_match pre ds post Hpre Hds Hne Hpost)).
  cbn [option_map groups_of regex_suffix_pattern length firstn skipn concat app nth].
  rewrite app_nil_r. apply py_int_digits; assumption.
Qed.

Lemma frame_number_first_digits_witness :
  frame_number "frame_12_v2.jpg" = Ok 12%Z.
Proof.
  apply (frame_number_first_digits (chars "frame_") (chars "12") (chars "_v2.jpg")).
  - repeat constructor.
  - repeat constructor.
  - discriminate.
  - reflexivity.
Defined.

(* ================================================================== *)
(** * The frame files of the extractor, read back *)

Lemma string_of_uint_digits : forall u,
  all_in is_digit (chars (DecimalString.NilEmpty.string_of_uint u)).
Proof.
  induction u; simpl; constructor; try reflexivity; assumption.
Qed.

Lemma string_of_uint_acc : forall u acc,
  fold_left (fun a c => (10 * a + digit_value c)%Z)
            (chars (DecimalString.NilEmpty.string_of_uint u)) (Z.pos acc) =
  Z.pos (Pos.of_uint_acc u acc).
Proof.
  induction u; intros acc; cbn [DecimalString.NilEmpty.string_of_uint chars
                                list_ascii_of_string fold_left Pos.of_uint_acc];
    [reflexivity | ..];
    rewrite <- IHu; f_equal; unfold digit_value; cbn [code]; simpl Z.of_nat; lia.
Qed.

Lemma string_of_uint_value : forall u,
  digits_value (chars (DecimalString.NilEmpty.string_of_uint u)) = Z.of_uint u.
Proof.
  unfold digits_value, Z.of_uint.
  induction u; cbn [DecimalString.NilEmpty.string_of_uint chars list_ascii_of_string
                    fold_left Pos.of_uint];
    [reflexivity | exact IHu | ..];
    cbn [Z.of_N]; rewrite <- string_of_uint_acc; reflexivity.
Qed.

(** [str(i)] of an int that is not negative: its decimal digits *)
Lemma py_str_int_digits : forall i,
  (0 <= i)%Z ->
  all_in is_digit (chars (py_str_int i)) /\ chars (py_str_int i) <> [] /\
  digits_value (chars (py_str_int i)) = i.
Proof.
  intros i Hi. unfold py_str_int.
  pose proof (DecimalZ.of_to i) as R.
  destruct (Z.to_int i) as [u | u] eqn:E.
  - cbn [DecimalString.NilEmpty.string_of_int]. simpl in R.
    split; [apply string_of_uint_digits |]. split.
    + destruct u; try discriminate. simpl in R. subst i. discriminate E.
    + rewrite string_of_uint_value. exact R.
  - destruct i; simpl in E; try discriminate. lia.
Qed.

Lemma frame_file_chars : forall i,
  frame_file i = str (chars "frame_" ++ chars (py_str_int i) ++ chars ".jpg").
Proof.
  intros i. unfold frame_file. rewrite !str_append, !str_chars. reflexivity.
Qed.

Lemma py_range_nonneg : forall stop step offsets,
  (0 <= stop)%Z -> py_range 0 stop step = Ok offsets ->
  Forall (fun i => (0 <= i)%Z) offsets.
Proof.
  intros stop step offsets Hs H. unfold py_range in H.
  destruct (step =? 0)%Z; [discriminate |]. inversion H; subst; clear H.
  apply Forall_forall. intros i Hi. apply in_map_iff in Hi.
  destruct Hi as (k & <- & Hk). apply in_seq in Hk.
  destruct (0 <? step)%Z eqn:E.
  - apply Z.ltb_lt in E. nia.
  - pose proof E as E'. apply Z.ltb_ge in E'.
    match type of Hk with
    | context [Z.to_nat ?q] => assert (Hn : (q <= 0)%Z)
    end.
    { destruct (Z.eq_dec step 0) as [-> | Hne];
        [change (- 0)%Z with 0%Z; rewrite Z.div_0_r; lia |].
      match goal with |- (?q <= 0)%Z => assert (q < 1)%Z; [| lia] end.
      apply Z.div_lt_upper_bound; lia. }
    lia.
Qed.

(** X19: the frames that [frame_extractor_loop] writes for a video of a
    length that is not negative are files of the directory
    [frames/<video>/<kind>] that the reader takes as images, and the sort
    key the reader computes from each name is the time offset the frame
    was taken at. *)
Theorem frame_extractor_loop_read_back :
  forall parent_folder length_in_seconds frequency frame_type paths,
  (0 <= length_in_seconds)%Z ->
  frame_extractor_loop parent_folder length_in_seconds frequency frame_type = Ok paths ->
  exists offsets,
    py_range 0 length_in_seconds frequency = Ok offsets /\
    paths = map (fun i => ("frames/" ++ parent_folder ++ "/" ++ frame_type ++ "/" ++
                           frame_file i)%string) offsets /\
    mapM frame_number (map frame_file offsets) = Ok offsets /\
    Forall (fun i => is_image (frame_file i) = true) offsets.
Proof.
  intros parent_folder len freq frame_type paths Hlen H.
  unfold frame_extractor_loop in H. bind_split H as offsets Hr.
  inversion H; subst paths; clear H.
  exists offsets. split; [exact Hr |]. split; [reflexivity |].
  pose proof (py_range_nonneg _ _ _ Hlen Hr) as Hpos. clear Hr.
  split.
  - induction Hpos as [| i l Hi Hl IH]; [reflexivity |].
    destruct (py_str_int_digits i Hi) as (Hd & Hne & Hv).
    cbn [map mapM]. rewrite frame_file_chars. unfold frame_number at 1.
    rewrite re_search_str.
    rewrite (search_here _ _ _
               (suffix_match (chars "frame_") _ (chars ".jpg")
                  ltac:(repeat constructor) Hd Hne eq_refl)).
    cbn [option_map groups_of regex_suffix_pattern length firstn skipn concat app nth].
    rewrite app_nil_r, (py_int_digits _ Hd Hne), Hv. cbn [bind].
    rewrite IH. reflexivity.
  - eapply Forall_impl; [| exact Hpos]. intros i _.
    rewrite frame_file_chars. unfold is_image, regex_image_pattern. cbn [map existsb].
    rewrite !re_search_str. cbn [nodes_of flat_map piece_nodes app].
    destruct (extension_match "jpg" (chars "jpg") eq_refl ltac:(repeat constructor))
      as [r Hm].
    destruct (search_found _ (chars "frame_" ++ chars (py_str_int i)) _ r Hm) as [r' Hs].
    rewrite <- app_assoc in Hs. cbn [app] in Hs.
    change (chars ".jpg") with ("."%char :: chars "jpg").
    cbn [app]. rewrite Hs. reflexivity.
Qed.

Lemma frame_extractor_loop_read_back_witness :
  exists offsets,
    py_range 0 10 3 = Ok offsets /\
    ["frames/010243F/gps/frame_0.jpg"; "frames/010243F/gps/frame_3.jpg";
     "frames/010243F/gps/frame_6.jpg"; "frames/010243F/gps/frame_9.jpg"]%string =
    map (fun i => ("frames/" ++ "010243F" ++ "/" ++ "gps" ++ "/" ++ frame_file i)%string)
        offsets /\
    mapM frame_number (map frame_file offsets) = Ok offsets /\
    Forall (fun i => is_image (frame_file i) = true) offsets.
Proof.
  apply (frame_extractor_loop_read_back "010243F"%string 10%Z 3%Z "gps"%string).
  - lia.
  - vm_compute. reflexivity.
Defined.

(* ================================================================== *)
(** * The errors of the stream builder *)







